(** * Zero-CAC preCAC engine (umac/dfs/core/src/misc/dfs_zero_cac.c)

    A shallow embedding of the frequency-indexed code path
    (CONFIG_CHAN_FREQ_API) of the preCAC forest: the band trees, their
    mutators, the status queries, the selection policy, the agile preCAC
    timer and the intermediate-channel setter, followed by the properties
    checked against the specification. *)

From Stdlib Require Import ZArith List Bool Lia Permutation.
Import ListNotations.
Local Open Scope Z_scope.

(** ** Machine integers

    Counters are [uint8_t], frequencies [uint16_t], timeouts [uint32_t];
    they are carried as [Z] and wrapped where the C code stores them. *)

Definition u8 (x : Z) : Z := x mod 256.
Definition u16 (x : Z) : Z := x mod 65536.
Definition u32 (x : Z) : Z := x mod 4294967296.

(** ** Constants *)

(** Modelled from the spec: the bandwidth values and the tree geometry of
    dfs_zero_cac.h, which is not part of the sources at hand.  The spec
    gives the bandwidths {20,40,80}, the span of a node as bandwidth/20
    and a depth-3 tree. *)
Definition DFS_CHWIDTH_20_VAL : Z := 20.
Definition DFS_CHWIDTH_40_VAL : Z := 40.
Definition DFS_CHWIDTH_80_VAL : Z := 80.
Definition DFS_CHWIDTH_160_VAL : Z := 160.
Definition MIN_DFS_SUBCHAN_BW : Z := 20.
Definition N_SUBCHANS_FOR_80BW : Z := 4.
Definition TREE_DEPTH : nat := 3.

(** Modelled from the spec: the level offsets of dfs_zero_cac.h, which is
    not part of the sources at hand.  The spec identifies an aggregate
    with the midpoint of its 20 MHz members (40 MHz {5260,5280} is 5270,
    80 MHz {5260,...,5320} is 5290) and its scenarios place the 40 MHz
    nodes of the tree of 5290 at 5270 and 5310 and its leaves at 5260,
    5280, 5300 and 5320; the source routes a frequency to the tree whose
    centre is within VHT80_FREQ_OFFSET = 30 of it.  Hence the 40 MHz
    level starts 20 MHz below the root and advances by 40, and the 20 MHz
    level starts 30 MHz below the root and advances by 20 (the list
    {-10,+10}, {-15,...,+15} of the spec's construction section is in
    half these units and does not fit its own examples). *)
Definition INITIAL_80_CHAN_FREQ_OFFSET : Z := 0.
Definition INITIAL_40_CHAN_FREQ_OFFSET : Z := -20.
Definition INITIAL_20_CHAN_FREQ_OFFSET : Z := -30.
Definition NEXT_80_CHAN_FREQ_OFFSET : Z := 80.
Definition NEXT_40_CHAN_FREQ_OFFSET : Z := 40.
Definition NEXT_20_CHAN_FREQ_OFFSET : Z := 20.

(** Modelled from the spec: distances of the 20 MHz sub-channel centres of
    an aggregate from its centre (dfs.h, not part of the sources at hand);
    they follow from the midpoint rule above. *)
Definition DFS_5GHZ_NEXT_CHAN_FREQ_OFFSET : Z := 10.
Definition DFS_5GHZ_2ND_CHAN_FREQ_OFFSET : Z := 30.
Definition DFS_5GHZ_3RD_CHAN_FREQ_OFFSET : Z := 50.
Definition DFS_5GHZ_4TH_CHAN_FREQ_OFFSET : Z := 70.

(* Defined in dfs_zero_cac.c itself. *)
Definition VHT80_FREQ_OFFSET : Z := 30.
Definition DFS_160MHZ_SECSEG_CHAN_OFFSET : Z := 40.
Definition EXTRA_TIME_IN_MS : Z := 2000.
Definition EINVAL : Z := 22.

Definition N_SUBCHS_FOR_BANDWIDTH (bw : Z) : Z := bw / MIN_DFS_SUBCHAN_BW.

Definition IS_WITHIN_RANGE (A B C : Z) : bool :=
  (B - C <=? A) && (A <=? B + C).

(** ** Band trees *)

(** [struct precac_tree_node] without its two child pointers, which are
    the sub-trees of [Node] below.  [ch_ieee] is derived from [ch_freq]
    and only printed, so it is left out. *)
Record precac_tree_node : Type := mk_node {
  ch_freq : Z;
  n_caced_subchs : Z;
  n_nol_subchs : Z;
  n_valid_subchs : Z;
  bandwidth : Z
}.

Inductive precac_tree : Type :=
| Null
| Node (d : precac_tree_node) (left_child right_child : precac_tree).

Definition set_caced (d : precac_tree_node) (v : Z) : precac_tree_node :=
  mk_node (ch_freq d) v (n_nol_subchs d) (n_valid_subchs d) (bandwidth d).

Definition set_nol (d : precac_tree_node) (v : Z) : precac_tree_node :=
  mk_node (ch_freq d) (n_caced_subchs d) v (n_valid_subchs d) (bandwidth d).

(** Left iff the frequency is below the node's centre.  The loops below
    write this test in place, on the node they have just matched, so that
    their recursion is structural. *)
Definition dfs_descend_precac_tree_for_freq
  (node : precac_tree) (chan_freq : Z) : precac_tree :=
  match node with
  | Null => Null
  | Node d l r => if chan_freq <? ch_freq d then l else r
  end.

(** The nodes visited when descending by frequency from [t]. *)
Fixpoint descent_path (t : precac_tree) (f : Z) : list precac_tree_node :=
  match t with
  | Null => []
  | Node d l r => d :: descent_path (if f <? ch_freq d then l else r) f
  end.

(** Overwrite the [k]-th node of the descent path for [f]. *)
Fixpoint path_update (t : precac_tree) (f : Z) (k : nat)
  (g : precac_tree_node -> precac_tree_node) : precac_tree :=
  match t with
  | Null => Null
  | Node d l r =>
      match k with
      | O => Node (g d) l r
      | S k' =>
          if f <? ch_freq d then Node d (path_update l f k' g) r
          else Node d l (path_update r f k' g)
      end
  end.

Fixpoint tree_all (p : precac_tree_node -> bool) (t : precac_tree) : bool :=
  match t with
  | Null => true
  | Node d l r => p d && tree_all p l && tree_all p r
  end.

Fixpoint tree_nodes (t : precac_tree) : list precac_tree_node :=
  match t with
  | Null => []
  | Node d l r => d :: tree_nodes l ++ tree_nodes r
  end.

(** *** Construction *)

Definition dfs_init_precac_tree_node_for_freq (freq bw : Z)
  : precac_tree_node :=
  mk_node freq 0 0 (u8 (N_SUBCHS_FOR_BANDWIDTH bw)) bw.

(** Allocation is assumed to succeed (the -ENOMEM exit is not modelled).
    The new node is hung where the descent falls off the tree. *)
Fixpoint dfs_insert_node_into_bstree_for_freq
  (root : precac_tree) (chan_freq bw : Z) : precac_tree :=
  match root with
  | Null => Node (dfs_init_precac_tree_node_for_freq chan_freq bw) Null Null
  | Node d l r =>
      if chan_freq <? ch_freq d
      then Node d (dfs_insert_node_into_bstree_for_freq l chan_freq bw) r
      else Node d l (dfs_insert_node_into_bstree_for_freq r chan_freq bw)
  end.

Definition initial_and_next_offsets : list (Z * Z) :=
  [ (INITIAL_80_CHAN_FREQ_OFFSET, NEXT_80_CHAN_FREQ_OFFSET);
    (INITIAL_40_CHAN_FREQ_OFFSET, NEXT_40_CHAN_FREQ_OFFSET);
    (INITIAL_20_CHAN_FREQ_OFFSET, NEXT_20_CHAN_FREQ_OFFSET) ].

(** Inner loop [for (; offset < boundary_offset; offset += step)]; [fuel]
    bounds the number of iterations. *)
Fixpoint insert_level (fuel : nat) (root : precac_tree)
  (ch offset step boundary bw : Z) : precac_tree :=
  match fuel with
  | O => root
  | S fuel' =>
      if offset <? boundary
      then insert_level fuel'
             (dfs_insert_node_into_bstree_for_freq root (u16 (ch + offset))
                                                   (u8 bw))
             ch (offset + step) step boundary bw
      else root
  end.

(** Outer loop over the rows of the offset table; the bandwidth halves
    after each level. *)
Fixpoint create_levels (rows : list (Z * Z)) (root : precac_tree)
  (ch bw : Z) : precac_tree :=
  match rows with
  | [] => root
  | (offset, step) :: rows' =>
      let top_lvl_step := NEXT_80_CHAN_FREQ_OFFSET in
      let boundary_offset := offset + top_lvl_step in
      create_levels rows'
        (insert_level (Z.to_nat top_lvl_step) root ch offset step
                      boundary_offset bw)
        ch (bw / 2)
  end.

Definition dfs_create_precac_tree_for_freq (ch : Z) : precac_tree :=
  create_levels (firstn TREE_DEPTH initial_and_next_offsets) Null ch
                DFS_CHWIDTH_80_VAL.

(** *** Status queries *)

Fixpoint find_cac_status_loop (node : precac_tree)
  (chan_freq n_cur_lvl_subchs : Z) : bool :=
  match node with
  | Null => false
  | Node d l r =>
      if ch_freq d =? chan_freq
      then n_caced_subchs d =? n_cur_lvl_subchs
      else find_cac_status_loop (if chan_freq <? ch_freq d then l else r)
                                chan_freq (n_cur_lvl_subchs / 2)
  end.

Definition dfs_find_cac_status_for_chan_for_freq
  (tree_root : precac_tree) (chan_freq : Z) : bool :=
  find_cac_status_loop tree_root chan_freq N_SUBCHANS_FOR_80BW.

Fixpoint dfs_is_tree_node_marked_as_cac_for_freq
  (root : precac_tree) (freq : Z) : bool :=
  match root with
  | Null => false
  | Node d l r =>
      if n_caced_subchs d =? 0 then false
      else if ch_freq d =? freq then negb (n_caced_subchs d =? 0)
      else dfs_is_tree_node_marked_as_cac_for_freq
             (if freq <? ch_freq d then l else r) freq
  end.

Fixpoint dfs_is_pcac_required_for_freq (node : precac_tree) (freq : Z)
  : bool :=
  match node with
  | Null => false
  | Node d l r =>
      if ch_freq d =? freq
      then
        if (n_caced_subchs d =? N_SUBCHS_FOR_BANDWIDTH (bandwidth d))
           || negb (n_nol_subchs d =? 0)
        then false else true
      else dfs_is_pcac_required_for_freq
             (if freq <? ch_freq d then l else r) freq
  end.

(** *** Mutators *)

Fixpoint mark_cac_done_loop (curr_node : precac_tree) (chan_freq : Z)
  : precac_tree :=
  match curr_node with
  | Null => Null
  | Node d l r =>
      let d' :=
        if n_caced_subchs d <? N_SUBCHS_FOR_BANDWIDTH (bandwidth d)
        then set_caced d (u8 (n_caced_subchs d + 1)) else d in
      if chan_freq <? ch_freq d
      then Node d' (mark_cac_done_loop l chan_freq) r
      else Node d' l (mark_cac_done_loop r chan_freq)
  end.

Definition dfs_mark_tree_node_as_cac_done_for_freq
  (tree_root : precac_tree) (chan_freq : Z) : precac_tree :=
  match tree_root with
  | Null => Null
  | Node _ _ _ =>
      if dfs_is_tree_node_marked_as_cac_for_freq tree_root chan_freq
      then tree_root
      else mark_cac_done_loop tree_root chan_freq
  end.

Fixpoint dfs_unmark_tree_node_as_cac_done_for_freq
  (curr_node : precac_tree) (chan_freq : Z) : precac_tree :=
  match curr_node with
  | Null => Null
  | Node d l r =>
      if n_caced_subchs d =? 0 then curr_node
      else
        let d' := set_caced d (u8 (n_caced_subchs d - 1)) in
        if chan_freq <? ch_freq d
        then Node d' (dfs_unmark_tree_node_as_cac_done_for_freq l chan_freq) r
        else Node d' l (dfs_unmark_tree_node_as_cac_done_for_freq r chan_freq)
  end.

(** Mark-NOL calls unmark-CAC-done on the whole tree from inside its own
    descent, so the tree root is threaded as state: [curr_node] is the
    cursor (its shape drives the descent and the termination), [k] its
    position on the descent path, and the counters of the node under the
    cursor are read from, and written to, the current [tree_root]. *)
Fixpoint mark_nol_loop (curr_node : precac_tree) (k : nat)
  (tree_root : precac_tree) (freq : Z) : precac_tree :=
  match curr_node with
  | Null => tree_root
  | Node c l r =>
      match nth_error (descent_path tree_root freq) k with
      | None => tree_root
      | Some d =>
          if n_nol_subchs d <? N_SUBCHS_FOR_BANDWIDTH (bandwidth d)
          then
            let root1 :=
              path_update tree_root freq k
                (fun n => set_nol n (u8 (n_nol_subchs n + 1))) in
            let root2 :=
              if (freq =? ch_freq d) && negb (n_caced_subchs d =? 0)
              then dfs_unmark_tree_node_as_cac_done_for_freq root1 freq
              else root1 in
            mark_nol_loop (if freq <? ch_freq c then l else r) (S k)
                          root2 freq
          else tree_root
      end
  end.

Definition dfs_mark_tree_node_as_nol_for_freq
  (tree_root : precac_tree) (freq : Z) : precac_tree :=
  mark_nol_loop tree_root 0 tree_root freq.

Fixpoint dfs_unmark_tree_node_as_nol_for_freq
  (curr_node : precac_tree) (chan_freq : Z) : precac_tree :=
  match curr_node with
  | Null => Null
  | Node d l r =>
      if n_nol_subchs d =? 0 then curr_node
      else
        let d' := set_nol d (u8 (n_nol_subchs d - 1)) in
        if chan_freq <? ch_freq d
        then Node d' (dfs_unmark_tree_node_as_nol_for_freq l chan_freq) r
        else Node d' l (dfs_unmark_tree_node_as_nol_for_freq r chan_freq)
  end.

(** The four primitive mutators and their sequencing. *)
Inductive mutator : Type :=
| MarkCacDone (f : Z)
| UnmarkCacDone (f : Z)
| MarkNol (f : Z)
| UnmarkNol (f : Z).

Definition apply_mutator (t : precac_tree) (m : mutator) : precac_tree :=
  match m with
  | MarkCacDone f => dfs_mark_tree_node_as_cac_done_for_freq t f
  | UnmarkCacDone f => dfs_unmark_tree_node_as_cac_done_for_freq t f
  | MarkNol f => dfs_mark_tree_node_as_nol_for_freq t f
  | UnmarkNol f => dfs_unmark_tree_node_as_nol_for_freq t f
  end.

Definition apply_mutators (t : precac_tree) (ms : list mutator)
  : precac_tree :=
  fold_left apply_mutator ms t.

(** ** The preCAC forest *)

Record dfs_precac_entry : Type := mk_entry {
  vht80_ch_freq : Z;
  tree_root : precac_tree
}.

(** The TAILQ [dfs_precac_list], head first. *)
Definition precac_list : Type := list dfs_precac_entry.

(** Modelled from the spec: [struct dfs_channel] and the flag macros of
    the headers that are not part of the sources at hand.  The phymode
    flags are kept as the operating width they encode (the spec lists
    20, 40, 80, 80+80 and 160), tested by WLAN_IS_CHAN_MODE_*, and the
    DFS bit of [dfs_ch_flagext], tested by WLAN_IS_CHAN_DFS, as a
    boolean. *)
Inductive chan_mode : Type :=
| MODE_20 | MODE_40 | MODE_80 | MODE_80_80 | MODE_160 | MODE_OTHER.

Record dfs_channel : Type := mk_chan {
  dfs_ch_freq : Z;
  dfs_ch_mode : chan_mode;
  dfs_ch_is_dfs : bool;
  dfs_ch_mhz_freq_seg1 : Z;
  dfs_ch_mhz_freq_seg2 : Z
}.

Definition WLAN_IS_CHAN_MODE_20 (c : dfs_channel) : bool :=
  match dfs_ch_mode c with MODE_20 => true | _ => false end.
Definition WLAN_IS_CHAN_MODE_40 (c : dfs_channel) : bool :=
  match dfs_ch_mode c with MODE_40 => true | _ => false end.
Definition WLAN_IS_CHAN_MODE_160 (c : dfs_channel) : bool :=
  match dfs_ch_mode c with MODE_160 => true | _ => false end.
Definition WLAN_IS_CHAN_11AC_VHT80 (c : dfs_channel) : bool :=
  match dfs_ch_mode c with MODE_80 => true | _ => false end.
Definition WLAN_IS_CHAN_DFS (c : dfs_channel) : bool := dfs_ch_is_dfs c.

(** Modelled from the spec: the regulatory domains returned by
    utils_get_dfsdomain; the engine is inert unless the domain is ETSI. *)
Inductive dfs_domain : Type :=
| DFS_UNINIT_DOMAIN | DFS_FCC_DOMAIN | DFS_ETSI_DOMAIN | DFS_MKK4_DOMAIN.

Definition is_etsi (d : dfs_domain) : bool :=
  match d with DFS_ETSI_DOMAIN => true | _ => false end.

(** *** Initialization *)

Fixpoint precac_entry_found (l : precac_list) (pri_chan_cfreq : Z) : bool :=
  match l with
  | [] => false
  | e :: rest =>
      if vht80_ch_freq e =? pri_chan_cfreq then true
      else precac_entry_found rest pri_chan_cfreq
  end.

(** One iteration of the loop over the regulatory channels. *)
Definition init_precac_step (l : precac_list) (ichan : dfs_channel)
  : precac_list :=
  let pri_chan_cfreq := dfs_ch_mhz_freq_seg1 ichan in
  if WLAN_IS_CHAN_11AC_VHT80 ichan && WLAN_IS_CHAN_DFS ichan
  then
    if negb (precac_entry_found l pri_chan_cfreq)
       && negb (pri_chan_cfreq =? 0)
    then l ++ [mk_entry pri_chan_cfreq
                 (dfs_create_precac_tree_for_freq pri_chan_cfreq)]
    else l
  else l.

(** [old] is the list before the call: outside ETSI the function returns
    before touching it. *)
Definition dfs_init_precac_list (domain : dfs_domain)
  (chans : list dfs_channel) (old : precac_list) : precac_list :=
  if negb (is_etsi domain) then old
  else fold_left init_precac_step chans [].

(** *** Forest-level query and mutators *)

Fixpoint dfs_is_precac_done_on_ht20_40_80_chan_for_freq
  (l : precac_list) (chan_freq : Z) : bool :=
  match l with
  | [] => false
  | e :: rest =>
      if IS_WITHIN_RANGE chan_freq (vht80_ch_freq e) VHT80_FREQ_OFFSET
      then dfs_find_cac_status_for_chan_for_freq (tree_root e) chan_freq
      else dfs_is_precac_done_on_ht20_40_80_chan_for_freq rest chan_freq
  end.

(** The inner TAILQ_FOREACH_SAFE of the forest mutators: the first entry
    whose 80 MHz centre is within range gets [g] applied, then [break]. *)
Fixpoint mark_first_in_range (g : precac_tree -> Z -> precac_tree)
  (l : precac_list) (f : Z) : precac_list :=
  match l with
  | [] => []
  | e :: rest =>
      if IS_WITHIN_RANGE f (vht80_ch_freq e) VHT80_FREQ_OFFSET
      then mk_entry (vht80_ch_freq e) (g (tree_root e) f) :: rest
      else e :: mark_first_in_range g rest f
  end.

Inductive phy_ch_width : Type :=
| CH_WIDTH_20MHZ | CH_WIDTH_40MHZ | CH_WIDTH_80MHZ | CH_WIDTH_160MHZ
| CH_WIDTH_80P80MHZ | CH_WIDTH_5MHZ | CH_WIDTH_10MHZ | CH_WIDTH_INVALID.

(** The [channels[]] array filled by the switch on the width; [None] is
    the [default:] exit. *)
Definition precac_done_channels (pri_ch_freq sec_ch_freq : Z)
  (ch_width : phy_ch_width) : option (list Z) :=
  let o1 := DFS_5GHZ_NEXT_CHAN_FREQ_OFFSET in
  let o2 := DFS_5GHZ_2ND_CHAN_FREQ_OFFSET in
  let o3 := DFS_5GHZ_3RD_CHAN_FREQ_OFFSET in
  let o4 := DFS_5GHZ_4TH_CHAN_FREQ_OFFSET in
  match ch_width with
  | CH_WIDTH_20MHZ => Some [pri_ch_freq]
  | CH_WIDTH_40MHZ => Some [u16 (pri_ch_freq - o1); u16 (pri_ch_freq + o1)]
  | CH_WIDTH_80MHZ =>
      Some [u16 (pri_ch_freq - o2); u16 (pri_ch_freq - o1);
            u16 (pri_ch_freq + o1); u16 (pri_ch_freq + o2)]
  | CH_WIDTH_80P80MHZ =>
      Some [u16 (pri_ch_freq - o2); u16 (pri_ch_freq - o1);
            u16 (pri_ch_freq + o1); u16 (pri_ch_freq + o2);
            u16 (sec_ch_freq - o2); u16 (sec_ch_freq - o1);
            u16 (sec_ch_freq + o1); u16 (sec_ch_freq + o2)]
  | CH_WIDTH_160MHZ =>
      Some [u16 (pri_ch_freq - o4); u16 (pri_ch_freq - o3);
            u16 (pri_ch_freq - o2); u16 (pri_ch_freq - o1);
            u16 (pri_ch_freq + o1); u16 (pri_ch_freq + o2);
            u16 (pri_ch_freq + o3); u16 (pri_ch_freq + o4)]
  | _ => None
  end.

(** The loop [for (i = 0; i < nchannels; i++)] over the frequencies. *)
Definition mark_precac_done_list (l : precac_list) (channels : list Z)
  : precac_list :=
  fold_left (mark_first_in_range dfs_mark_tree_node_as_cac_done_for_freq)
            channels l.

Definition dfs_mark_precac_done_for_freq (l : precac_list)
  (pri_ch_freq sec_ch_freq : Z) (ch_width : phy_ch_width) : precac_list :=
  if pri_ch_freq =? 0 then l
  else
    match precac_done_channels pri_ch_freq sec_ch_freq ch_width with
    | None => l
    | Some channels => mark_precac_done_list l channels
    end.

(** The forest update of dfs_mark_precac_nol_for_freq; the re-planning of
    the timer that follows it in the source does not write to the
    forest. *)
Definition dfs_mark_precac_nol_for_freq (l : precac_list)
  (freq_lst : list Z) : precac_list :=
  fold_left (mark_first_in_range dfs_mark_tree_node_as_nol_for_freq)
            freq_lst l.

Definition dfs_unmark_precac_nol_for_freq (l : precac_list) (chan_freq : Z)
  : precac_list :=
  mark_first_in_range dfs_unmark_tree_node_as_nol_for_freq l chan_freq.

(** ** Selection policy *)

Definition exclude_sec_ch_freq_of (curchan : dfs_channel) : Z :=
  let exclude_pri_ch_freq := dfs_ch_mhz_freq_seg1 curchan in
  let exclude_sec_ch_freq := dfs_ch_mhz_freq_seg2 curchan in
  if WLAN_IS_CHAN_MODE_160 curchan
  then
    if exclude_sec_ch_freq <? exclude_pri_ch_freq
    then u16 (exclude_sec_ch_freq - DFS_160MHZ_SECSEG_CHAN_OFFSET)
    else u16 (exclude_sec_ch_freq + DFS_160MHZ_SECSEG_CHAN_OFFSET)
  else exclude_sec_ch_freq.

Definition cur_chwidth_val (curchan : dfs_channel) : Z :=
  if WLAN_IS_CHAN_MODE_20 curchan then DFS_CHWIDTH_20_VAL
  else if WLAN_IS_CHAN_MODE_40 curchan then DFS_CHWIDTH_40_VAL
  else DFS_CHWIDTH_80_VAL.

(** [node] is a non-NULL node pointer, given as the sub-tree it roots. *)
Definition dfs_get_num_cur_subchans_in_node_freq (curchan : dfs_channel)
  (node : precac_tree) : Z :=
  match node with
  | Null => 0
  | Node d _ _ =>
      let exclude_pri_ch_freq := dfs_ch_mhz_freq_seg1 curchan in
      let exclude_sec_ch_freq := exclude_sec_ch_freq_of curchan in
      let chwidth_val := cur_chwidth_val curchan in
      let n0 := 0 in
      let n1 :=
        if IS_WITHIN_RANGE exclude_pri_ch_freq (ch_freq d) (bandwidth d / 2)
           && dfs_is_pcac_required_for_freq node exclude_pri_ch_freq
        then u8 (n0 + N_SUBCHS_FOR_BANDWIDTH chwidth_val) else n0 in
      if IS_WITHIN_RANGE exclude_sec_ch_freq (ch_freq d) (bandwidth d / 2)
         && dfs_is_pcac_required_for_freq node exclude_sec_ch_freq
      then u8 (n1 + N_SUBCHS_FOR_BANDWIDTH chwidth_val) else n1
  end.

Definition dfs_is_cac_needed_for_bst_node_for_freq (curchan : dfs_channel)
  (node : precac_tree) (req_bandwidth : Z) : bool :=
  match node with
  | Null => false
  | Node d _ _ =>
      let n_excluded_subchs :=
        dfs_get_num_cur_subchans_in_node_freq curchan node in
      let n_subchs_for_req_bw := u8 (N_SUBCHS_FOR_BANDWIDTH req_bandwidth) in
      let n_allowed_subchs :=
        u8 (n_valid_subchs d - (n_nol_subchs d + n_excluded_subchs)) in
      if (n_allowed_subchs <? n_subchs_for_req_bw)
         || (n_caced_subchs d + n_nol_subchs d + n_excluded_subchs
             =? n_valid_subchs d)
      then false else true
  end.

Fixpoint find_ieee_ch_loop (curchan : dfs_channel) (curr_node : precac_tree)
  (req_bw : Z) : Z :=
  match curr_node with
  | Null => 0
  | Node d l r =>
      if bandwidth d =? req_bw
      then
        if dfs_is_cac_needed_for_bst_node_for_freq curchan curr_node req_bw
        then ch_freq d else 0
      else
        if negb (dfs_is_cac_needed_for_bst_node_for_freq curchan l req_bw)
        then find_ieee_ch_loop curchan r req_bw
        else find_ieee_ch_loop curchan l req_bw
  end.

Definition dfs_find_ieee_ch_from_precac_tree_for_freq
  (curchan : dfs_channel) (root : precac_tree) (req_bw : Z) : Z :=
  if negb (dfs_is_cac_needed_for_bst_node_for_freq curchan root req_bw)
  then 0
  else find_ieee_ch_loop curchan root req_bw.

(** [exclude_pri_ch_freq] and [exclude_sec_ch_freq] are only logged by the
    source; the exclusion itself is read from [dfs->dfs_curchan]. *)
Fixpoint dfs_get_ieeechan_for_precac_for_freq (curchan : dfs_channel)
  (l : precac_list) (exclude_pri_ch_freq exclude_sec_ch_freq bw : Z) : Z :=
  match l with
  | [] => 0
  | e :: rest =>
      let ieee_chan_freq :=
        dfs_find_ieee_ch_from_precac_tree_for_freq curchan (tree_root e) bw in
      if negb (ieee_chan_freq =? 0) then ieee_chan_freq
      else dfs_get_ieeechan_for_precac_for_freq curchan rest
             exclude_pri_ch_freq exclude_sec_ch_freq bw
  end.

Definition chan_width_of_mode (m : chan_mode) : phy_ch_width :=
  match m with
  | MODE_20 => CH_WIDTH_20MHZ
  | MODE_40 => CH_WIDTH_40MHZ
  | MODE_80 => CH_WIDTH_80MHZ
  | MODE_80_80 => CH_WIDTH_80P80MHZ
  | MODE_160 => CH_WIDTH_160MHZ
  | MODE_OTHER => CH_WIDTH_INVALID
  end.

Definition dfs_translate_chwidth_enum2val (chwidth : phy_ch_width) : Z :=
  match chwidth with
  | CH_WIDTH_20MHZ => DFS_CHWIDTH_20_VAL
  | CH_WIDTH_40MHZ => DFS_CHWIDTH_40_VAL
  | CH_WIDTH_80MHZ | CH_WIDTH_80P80MHZ => DFS_CHWIDTH_80_VAL
  | CH_WIDTH_160MHZ => DFS_CHWIDTH_160_VAL
  | _ => 0
  end.

Definition dfs_find_agile_width (chwidth : phy_ch_width) : phy_ch_width :=
  match chwidth with
  | CH_WIDTH_20MHZ => CH_WIDTH_20MHZ
  | CH_WIDTH_40MHZ => CH_WIDTH_40MHZ
  | CH_WIDTH_80MHZ | CH_WIDTH_80P80MHZ | CH_WIDTH_160MHZ => CH_WIDTH_80MHZ
  | _ => CH_WIDTH_INVALID
  end.

(** ** Agile preCAC timer *)

Inductive ocac_status_t : Type := OCAC_SUCCESS | OCAC_RESET | OCAC_CANCEL.

Definition is_ocac_success (s : ocac_status_t) : bool :=
  match s with OCAC_SUCCESS => true | _ => false end.

(** The duration and weather-range macros come from dfs_zero_cac.h, which
    is not part of the sources at hand; the timer code is parameterised
    by them. *)
Record precac_consts : Type := mk_consts {
  MIN_PRECAC_DURATION : Z;
  MIN_WEATHER_PRECAC_DURATION : Z;
  MAX_PRECAC_DURATION : Z;
  MAX_WEATHER_PRECAC_DURATION : Z;
  WEATHER_CHAN_START_FREQ : Z;
  WEATHER_CHAN_END_FREQ : Z
}.

(** Modelled from the spec: the values it names for the constants above
    (weather range [5600, 5650] MHz, regular minimum 60,000 ms, weather
    minimum 600,000 ms, maximum ten times the minimum). *)
Definition spec_consts : precac_consts :=
  mk_consts 60000 600000 600000 6000000 5600 5650.

Record dfs_agile_cac_params : Type := mk_adfs {
  precac_chan_freq : Z;
  precac_chwidth : phy_ch_width;
  min_precac_timeout : Z;
  max_precac_timeout : Z
}.

(** [dfs_precac_timer] is the duration the timer was last armed with by
    qdf_timer_mod, if any. *)
Record dfs_soc_priv_obj : Type := mk_soc {
  dfs_precac_timer_running : bool;
  ocac_status : ocac_status_t;
  dfs_precac_timer : option Z
}.

Record wlan_dfs : Type := mk_dfs {
  dfs_precac_timeout_override : Z;
  dfs_precac_inter_chan_freq : Z;
  dfs_curchan : dfs_channel;
  dfs_precac_list : precac_list;
  dfs_soc_obj : dfs_soc_priv_obj
}.

Definition FIND_IF_OVERLAP_WITH_WEATHER_FREQ_RANGE (k : precac_consts)
  (first_ch_freq last_ch_freq : Z) : bool :=
  (first_ch_freq <=? WEATHER_CHAN_END_FREQ k)
  && (WEATHER_CHAN_START_FREQ k <=? last_ch_freq).

Definition dfs_is_pcac_on_weather_channel_for_freq (k : precac_consts)
  (chwidth : phy_ch_width) (precac_freq : Z) : bool :=
  match chwidth with
  | CH_WIDTH_20MHZ =>
      FIND_IF_OVERLAP_WITH_WEATHER_FREQ_RANGE k precac_freq precac_freq
  | CH_WIDTH_40MHZ =>
      FIND_IF_OVERLAP_WITH_WEATHER_FREQ_RANGE k
        (u16 (precac_freq - DFS_5GHZ_NEXT_CHAN_FREQ_OFFSET))
        (u16 (precac_freq + DFS_5GHZ_NEXT_CHAN_FREQ_OFFSET))
  | CH_WIDTH_80MHZ =>
      FIND_IF_OVERLAP_WITH_WEATHER_FREQ_RANGE k
        (u16 (precac_freq - DFS_5GHZ_2ND_CHAN_FREQ_OFFSET))
        (u16 (precac_freq + DFS_5GHZ_2ND_CHAN_FREQ_OFFSET))
  | _ => false
  end.

(** The pair (min, max) computed before the parameters are written. *)
Definition agile_precac_timeouts (k : precac_consts) (dfs : wlan_dfs)
  (ocac : ocac_status_t) (adfs_param : dfs_agile_cac_params) : Z * Z :=
  if is_ocac_success ocac then (0, 0)
  else if negb (dfs_precac_timeout_override dfs =? -1)
  then (u32 (dfs_precac_timeout_override dfs * 1000),
        u32 (MAX_PRECAC_DURATION k))
  else if dfs_is_pcac_on_weather_channel_for_freq k
            (precac_chwidth adfs_param) (precac_chan_freq adfs_param)
  then (u32 (MIN_WEATHER_PRECAC_DURATION k),
        u32 (MAX_WEATHER_PRECAC_DURATION k))
  else (u32 (MIN_PRECAC_DURATION k), u32 (MAX_PRECAC_DURATION k)).

Definition dfs_start_agile_precac_timer (k : precac_consts) (dfs : wlan_dfs)
  (ocac : ocac_status_t) (adfs_param : dfs_agile_cac_params)
  : wlan_dfs * dfs_agile_cac_params :=
  let soc := dfs_soc_obj dfs in
  let '(min_to, max_to) := agile_precac_timeouts k dfs ocac adfs_param in
  let adfs_param' :=
    mk_adfs (precac_chan_freq adfs_param) (precac_chwidth adfs_param)
            min_to max_to in
  let host_to :=
    if negb (min_to =? 0) then u32 (min_to + EXTRA_TIME_IN_MS) else min_to in
  let soc' :=
    mk_soc true
           (if is_ocac_success ocac then OCAC_SUCCESS else ocac_status soc)
           (Some host_to) in
  (mk_dfs (dfs_precac_timeout_override dfs) (dfs_precac_inter_chan_freq dfs)
          (dfs_curchan dfs) (dfs_precac_list dfs) soc',
   adfs_param').

(** ** Intermediate channel *)

(** [find_dot11_chan] stands for dfs_mlme_find_dot11_chan_for_freq, the
    regulatory lookup: [None] when it does not return QDF_STATUS_SUCCESS.
    The result is the updated object and the return code. *)
Definition dfs_set_precac_intermediate_chan
  (find_dot11_chan : Z -> option dfs_channel) (dfs : wlan_dfs) (freq : Z)
  : wlan_dfs * Z :=
  match find_dot11_chan freq with
  | None => (dfs, - EINVAL)
  | Some chan =>
      if negb (WLAN_IS_CHAN_DFS chan)
      then (mk_dfs (dfs_precac_timeout_override dfs) freq
                   (dfs_curchan dfs) (dfs_precac_list dfs) (dfs_soc_obj dfs),
            0)
      else (mk_dfs (dfs_precac_timeout_override dfs) 0
                   (dfs_curchan dfs) (dfs_precac_list dfs) (dfs_soc_obj dfs),
            - EINVAL)
  end.

Definition dfs_get_precac_intermediate_chan (dfs : wlan_dfs) : Z :=
  dfs_precac_inter_chan_freq dfs.

(** ** Destruction *)

(** Number of nodes on the left spine of [t]. *)
Fixpoint left_spine_len (t : precac_tree) : nat :=
  match t with
  | Null => O
  | Node _ l _ => S (left_spine_len l)
  end.

(** The sub-tree reached from [t] by [k] steps to the left. *)
Fixpoint left_descend (t : precac_tree) (k : nat) {struct k}
  : precac_tree :=
  match k with
  | O => t
  | S k' => match t with Null => Null | Node _ l _ => left_descend l k' end
  end.

(** [p->left_child = s] for the node [p] found [k] steps to the left of the
    root of [t]. *)
Fixpoint set_left_at (t : precac_tree) (k : nat) (s : precac_tree)
  : precac_tree :=
  match t with
  | Null => Null
  | Node d l r =>
      match k with
      | O => Node d s r
      | S k' => Node d (set_left_at l k' s) r
      end
  end.

(** The leftmost leaf below [node], as the number of steps to the left
    that lead to it; [None] is the NULL result. *)
Definition dfs_find_leftmost_leaf_of_precac_tree (node : precac_tree)
  : option nat :=
  match node with
  | Null => None
  | Node _ l _ => Some (left_spine_len l)
  end.

(** Outcome of freeing a tree: what is still allocated under the root
    pointer, the nodes passed to qdf_mem_free in order, and whether one of
    the two QDF_ASSERT(0) exits was taken. *)
Record free_result : Type := mk_free {
  fr_root : precac_tree;
  fr_freed : list precac_tree_node;
  fr_asserted : bool
}.

(** The loop [while (root_node)].  [left_most_leaf] always lies on the
    left spine of the tree under [root_node] and is kept as its distance
    [leaf] from [root_node]; every iteration frees one node, so [fuel]
    bounds the iterations by the number of nodes. *)
Fixpoint free_precac_tree_loop (fuel : nat) (root_node : precac_tree)
  (leaf : nat) (freed : list precac_tree_node) : free_result :=
  match fuel with
  | O => mk_free root_node freed false
  | S fuel' =>
      match root_node with
      | Null => mk_free Null freed false
      | Node d l r =>
          match r with
          | Null => free_precac_tree_loop fuel' l (pred leaf) (freed ++ [d])
          | Node _ _ _ =>
              let root1 := set_left_at root_node leaf r in
              match dfs_find_leftmost_leaf_of_precac_tree
                      (left_descend root1 leaf) with
              | None => mk_free root1 freed true
              | Some k =>
                  free_precac_tree_loop fuel'
                    (left_descend root1 1) (pred (leaf + k)) (freed ++ [d])
              end
          end
      end
  end.

Definition dfs_free_precac_tree_nodes (tree_root : precac_tree)
  : free_result :=
  match tree_root with
  | Null => mk_free Null [] false
  | Node _ _ _ =>
      match dfs_find_leftmost_leaf_of_precac_tree tree_root with
      | None => mk_free tree_root [] true
      | Some leaf =>
          free_precac_tree_loop (length (tree_nodes tree_root)) tree_root
                                leaf []
      end
  end.

(** Every entry has its tree freed and is then unlinked and freed itself;
    the result is the list left behind and the tree nodes freed. *)
Fixpoint dfs_deinit_precac_list (l : precac_list)
  : precac_list * list precac_tree_node :=
  match l with
  | [] => ([], [])
  | e :: rest =>
      let fr := dfs_free_precac_tree_nodes (tree_root e) in
      let '(l', freed) := dfs_deinit_precac_list rest in
      (l', fr_freed fr ++ freed)
  end.


(** ** Operator-preferred channel and channel state *)

Definition WLAN_IS_CHAN_MODE_80 (c : dfs_channel) : bool :=
  match dfs_ch_mode c with MODE_80 => true | _ => false end.
Definition WLAN_IS_CHAN_MODE_80_80 (c : dfs_channel) : bool :=
  match dfs_ch_mode c with MODE_80_80 => true | _ => false end.

(** TAILQ_FOREACH with TAILQ_REMOVE, TAILQ_INSERT_HEAD and [break] on the
    first entry whose 80 MHz centre is [freq]; the boolean is [found]. *)
Fixpoint precac_extract_first (l : precac_list) (freq : Z)
  : option (dfs_precac_entry * precac_list) :=
  match l with
  | [] => None
  | e :: rest =>
      if vht80_ch_freq e =? freq then Some (e, rest)
      else
        match precac_extract_first rest freq with
        | Some (x, rest') => Some (x, e :: rest')
        | None => None
        end
  end.

Definition precac_move_to_head (l : precac_list) (freq : Z)
  : precac_list * bool :=
  match precac_extract_first l freq with
  | Some (x, rest) => (x :: rest, true)
  | None => (l, false)
  end.

Definition is_nil (l : precac_list) : bool :=
  match l with [] => true | _ => false end.

(** [VHT160_FREQ_DIFF] comes from a header that is not part of the sources
    at hand and [dfs_precac_secondary_freq_mhz] is a field of [struct
    wlan_dfs] the record above does not carry; both are arguments.  The
    result is the reordered list; [found] is only logged. *)
Definition dfs_set_precac_preferred_channel (VHT160_FREQ_DIFF : Z)
  (dfs_precac_secondary_freq_mhz : Z) (dfs : wlan_dfs) (chan : dfs_channel)
  : precac_list :=
  let l := dfs_precac_list dfs in
  if dfs_precac_timer_running (dfs_soc_obj dfs)
     && WLAN_IS_CHAN_MODE_80 chan
     && (dfs_precac_secondary_freq_mhz =? dfs_ch_freq chan)
  then l
  else
    let l1 :=
      if WLAN_IS_CHAN_DFS chan && negb (is_nil l)
      then fst (precac_move_to_head l (dfs_ch_mhz_freq_seg1 chan))
      else l in
    if WLAN_IS_CHAN_MODE_160 chan && WLAN_IS_CHAN_DFS chan
       && negb (is_nil l1)
    then
      let freq_160_sec_mhz :=
        if dfs_ch_freq chan <? dfs_ch_mhz_freq_seg2 chan
        then u16 (dfs_ch_mhz_freq_seg1 chan + VHT160_FREQ_DIFF)
        else u16 (dfs_ch_mhz_freq_seg1 chan - VHT160_FREQ_DIFF) in
      fst (precac_move_to_head l1 freq_160_sec_mhz)
    else l1.

(** Modelled from the spec: [enum precac_chan_state] of the missing header;
    the spec lists the states REQUIRED, NOW, DONE, NOL and ERR. *)
Inductive precac_chan_state : Type :=
| PRECAC_REQUIRED | PRECAC_NOW | PRECAC_DONE | PRECAC_NOL | PRECAC_ERR.

(** The TAILQ_FOREACH that classifies the root of the first entry whose
    centre is [freq]; [None] is the dereference of a NULL tree root. *)
Fixpoint precac_root_state (l : precac_list) (freq : Z)
  : option precac_chan_state :=
  match l with
  | [] => Some PRECAC_ERR
  | e :: rest =>
      if vht80_ch_freq e =? freq
      then
        match tree_root e with
        | Null => None
        | Node root _ _ =>
            if negb (n_nol_subchs root =? 0) then Some PRECAC_NOL
            else if n_caced_subchs root
                    =? N_SUBCHS_FOR_BANDWIDTH (bandwidth root)
            then Some PRECAC_DONE
            else Some PRECAC_REQUIRED
        end
      else precac_root_state rest freq
  end.

Definition dfs_get_precac_chan_state_for_freq
  (find_dot11_chan : Z -> option dfs_channel) (dfs : wlan_dfs)
  (pcac_freq : Z) : option precac_chan_state :=
  match find_dot11_chan pcac_freq with
  | None => Some PRECAC_ERR
  | Some chan =>
      if negb (WLAN_IS_CHAN_DFS chan) then Some PRECAC_ERR
      else
        let now :=
          dfs_precac_timer_running (dfs_soc_obj dfs)
          && match dfs_precac_list dfs with
             | [] => false
             | e :: _ => vht80_ch_freq e =? dfs_ch_mhz_freq_seg1 chan
             end in
        if now then Some PRECAC_NOW
        else precac_root_state (dfs_precac_list dfs)
                               (dfs_ch_mhz_freq_seg1 chan)
  end.

(** ** CAC-done query of an operating channel *)

(** [VHT160_FREQ_DIFF] and the flag test [WLAN_IS_CHAN_DFS_CFREQ2] come
    from headers that are not part of the sources at hand; both are
    arguments. *)
Definition dfs_is_precac_done_on_ht8080_ht160_chan (VHT160_FREQ_DIFF : Z)
  (WLAN_IS_CHAN_DFS_CFREQ2 : dfs_channel -> bool) (l : precac_list)
  (chan : dfs_channel) : bool :=
  let cfreq1 := dfs_ch_mhz_freq_seg1 chan in
  let cfreq2 :=
    if WLAN_IS_CHAN_MODE_160 chan
    then
      if dfs_ch_freq chan <? dfs_ch_mhz_freq_seg2 chan
      then u16 (dfs_ch_mhz_freq_seg1 chan + VHT160_FREQ_DIFF)
      else u16 (dfs_ch_mhz_freq_seg1 chan - VHT160_FREQ_DIFF)
    else dfs_ch_mhz_freq_seg2 chan in
  let primary_found :=
    if WLAN_IS_CHAN_DFS chan
    then dfs_is_precac_done_on_ht20_40_80_chan_for_freq l cfreq1
    else true in
  if WLAN_IS_CHAN_DFS_CFREQ2 chan && primary_found
  then dfs_is_precac_done_on_ht20_40_80_chan_for_freq l cfreq2
  else if primary_found then true else false.

Definition dfs_is_precac_done (VHT160_FREQ_DIFF : Z)
  (WLAN_IS_CHAN_DFS_CFREQ2 : dfs_channel -> bool) (l : precac_list)
  (chan : dfs_channel) : bool :=
  let cfreq := dfs_ch_mhz_freq_seg1 chan in
  if WLAN_IS_CHAN_MODE_20 chan || WLAN_IS_CHAN_MODE_40 chan
     || WLAN_IS_CHAN_MODE_80 chan
  then dfs_is_precac_done_on_ht20_40_80_chan_for_freq l cfreq
  else if WLAN_IS_CHAN_MODE_80_80 chan || WLAN_IS_CHAN_MODE_160 chan
  then dfs_is_precac_done_on_ht8080_ht160_chan VHT160_FREQ_DIFF
         WLAN_IS_CHAN_DFS_CFREQ2 l chan
  else false.

(** ** State machine over the radios of a SoC *)

(** One radio: the fields of [struct wlan_dfs] the state machine uses
    (those of [wlan_dfs] above, under the prefix [rd_], and more), with
    the [agile_precac_active] flag of its slot in [dfs_priv].  The modes
    of [enum wlan_phymode] are carried as their integer values. *)
Record precac_radio : Type := mk_radio {
  agile_precac_active : bool;
  rd_precac_timeout_override : Z;
  rd_precac_inter_chan_freq : Z;
  rd_curchan : dfs_channel;
  rd_precac_list : precac_list;
  dfs_legacy_precac_ucfg : bool;
  dfs_agile_precac_ucfg : bool;
  dfs_fw_adfs_support_non_160 : bool;
  dfs_fw_adfs_support_160 : bool;
  dfs_precac_chwidth : phy_ch_width;
  dfs_agile_precac_freq_mhz : Z;
  dfs_precac_secondary_freq_mhz : Z;
  dfs_autoswitch_des_chan_freq : Z;
  dfs_autoswitch_des_mode : Z
}.

(** Calls that leave the file: the agile channel command of the target
    interface, the CSA request and the channel change of the MLME, each
    with the index of the radio it is issued for.  The callbacks are taken
    to be installed. *)
Inductive precac_event : Type :=
| AgileChCfgCmd (idx : Z) (adfs_param : dfs_agile_cac_params)
| PrecacChanChangeCsa (idx : Z) (freq mode : Z)
| ChannelChangeByPrecac (idx : Z).

(** The SoC object shared by the radios; [precac_events] lists the calls
    above, latest first. *)
Record precac_soc : Type := mk_psoc {
  num_dfs_privs : Z;
  cur_precac_dfs_index : Z;
  dfs_priv : list precac_radio;
  psoc_obj : dfs_soc_priv_obj;
  precac_state_started : bool;
  precac_events : list precac_event
}.

(** The radio as the [wlan_dfs] object of the definitions above, with the
    shared SoC object behind its [dfs_soc_obj] pointer. *)
Definition radio_dfs (soc : dfs_soc_priv_obj) (r : precac_radio) : wlan_dfs :=
  mk_dfs (rd_precac_timeout_override r) (rd_precac_inter_chan_freq r)
         (rd_curchan r) (rd_precac_list r) soc.

Definition set_rd_precac_list (r : precac_radio) (l : precac_list)
  : precac_radio :=
  mk_radio (agile_precac_active r) (rd_precac_timeout_override r)
    (rd_precac_inter_chan_freq r) (rd_curchan r) l
    (dfs_legacy_precac_ucfg r) (dfs_agile_precac_ucfg r)
    (dfs_fw_adfs_support_non_160 r) (dfs_fw_adfs_support_160 r)
    (dfs_precac_chwidth r) (dfs_agile_precac_freq_mhz r)
    (dfs_precac_secondary_freq_mhz r) (dfs_autoswitch_des_chan_freq r)
    (dfs_autoswitch_des_mode r).

Definition set_rd_precac_inter_chan_freq (r : precac_radio) (f : Z)
  : precac_radio :=
  mk_radio (agile_precac_active r) (rd_precac_timeout_override r)
    f (rd_curchan r) (rd_precac_list r)
    (dfs_legacy_precac_ucfg r) (dfs_agile_precac_ucfg r)
    (dfs_fw_adfs_support_non_160 r) (dfs_fw_adfs_support_160 r)
    (dfs_precac_chwidth r) (dfs_agile_precac_freq_mhz r)
    (dfs_precac_secondary_freq_mhz r) (dfs_autoswitch_des_chan_freq r)
    (dfs_autoswitch_des_mode r).

Definition set_dfs_precac_chwidth (r : precac_radio) (w : phy_ch_width)
  : precac_radio :=
  mk_radio (agile_precac_active r) (rd_precac_timeout_override r)
    (rd_precac_inter_chan_freq r) (rd_curchan r) (rd_precac_list r)
    (dfs_legacy_precac_ucfg r) (dfs_agile_precac_ucfg r)
    (dfs_fw_adfs_support_non_160 r) (dfs_fw_adfs_support_160 r)
    w (dfs_agile_precac_freq_mhz r)
    (dfs_precac_secondary_freq_mhz r) (dfs_autoswitch_des_chan_freq r)
    (dfs_autoswitch_des_mode r).

Definition set_dfs_agile_precac_freq_mhz (r : precac_radio) (f : Z)
  : precac_radio :=
  mk_radio (agile_precac_active r) (rd_precac_timeout_override r)
    (rd_precac_inter_chan_freq r) (rd_curchan r) (rd_precac_list r)
    (dfs_legacy_precac_ucfg r) (dfs_agile_precac_ucfg r)
    (dfs_fw_adfs_support_non_160 r) (dfs_fw_adfs_support_160 r)
    (dfs_precac_chwidth r) f
    (dfs_precac_secondary_freq_mhz r) (dfs_autoswitch_des_chan_freq r)
    (dfs_autoswitch_des_mode r).

Definition set_dfs_autoswitch_des (r : precac_radio) (freq mode : Z)
  : precac_radio :=
  mk_radio (agile_precac_active r) (rd_precac_timeout_override r)
    (rd_precac_inter_chan_freq r) (rd_curchan r) (rd_precac_list r)
    (dfs_legacy_precac_ucfg r) (dfs_agile_precac_ucfg r)
    (dfs_fw_adfs_support_non_160 r) (dfs_fw_adfs_support_160 r)
    (dfs_precac_chwidth r) (dfs_agile_precac_freq_mhz r)
    (dfs_precac_secondary_freq_mhz r) freq mode.

Definition dfs_is_legacy_precac_enabled (r : precac_radio) : bool :=
  dfs_legacy_precac_ucfg r.

Definition dfs_is_agile_precac_enabled (r : precac_radio) : bool :=
  dfs_agile_precac_ucfg r && dfs_fw_adfs_support_non_160 r.

Definition dfs_cancel_precac_timer (soc : dfs_soc_priv_obj)
  : dfs_soc_priv_obj :=
  mk_soc false (ocac_status soc) None.

Definition is_wide_chwidth (w : phy_ch_width) : bool :=
  match w with CH_WIDTH_80P80MHZ | CH_WIDTH_160MHZ => true | _ => false end.
Definition is_invalid_chwidth (w : phy_ch_width) : bool :=
  match w with CH_WIDTH_INVALID => true | _ => false end.

(** The result is the SoC object, the radio, and what was stored through
    [ch_freq]: [None] on the two early returns, which leave it alone.  The
    width value is one of 20, 40 and 80 and fits its [uint8_t]. *)
Definition dfs_get_ieeechan_for_agilecac_for_freq (soc : dfs_soc_priv_obj)
  (r : precac_radio) (pri_ch_freq sec_ch_freq : Z)
  : dfs_soc_priv_obj * precac_radio * option Z :=
  let chwidth := chan_width_of_mode (dfs_ch_mode (rd_curchan r)) in
  if is_wide_chwidth chwidth && negb (dfs_fw_adfs_support_160 r)
  then (soc, r, None)
  else
    let r1 := set_dfs_precac_chwidth r (dfs_find_agile_width chwidth) in
    if is_invalid_chwidth (dfs_precac_chwidth r1)
    then (soc, r1, None)
    else
      let chwidth_val :=
        dfs_translate_chwidth_enum2val (dfs_precac_chwidth r1) in
      let soc1 :=
        mk_soc (dfs_precac_timer_running soc) OCAC_RESET
               (dfs_precac_timer soc) in
      let ieee_chan_freq :=
        dfs_get_ieeechan_for_precac_for_freq (rd_curchan r1)
          (rd_precac_list r1) pri_ch_freq sec_ch_freq chwidth_val in
      (soc1, set_dfs_agile_precac_freq_mhz r1 ieee_chan_freq,
       Some ieee_chan_freq).

Definition dfs_find_pdev_for_agile_precac (s : precac_soc) : Z :=
  u8 ((cur_precac_dfs_index s + 1) mod num_dfs_privs s).

Fixpoint set_nth_radio (l : list precac_radio) (i : nat) (r : precac_radio)
  : list precac_radio :=
  match l, i with
  | [], _ => []
  | _ :: rest, O => r :: rest
  | x :: rest, S i' => x :: set_nth_radio rest i' r
  end.

(** The loop [for (i = 0; i < num_dfs_privs; i++)], with the iterations
    left as [fuel]; the result is the SoC and, after a [break], the index
    of [temp_dfs] and the frequency in [ch_freq].  A slot beyond the
    radios present ends the loop; it is not reached when [num_dfs_privs]
    radios are present. *)
Fixpoint prepare_agile_loop (fuel : nat) (s : precac_soc)
  : precac_soc * option (Z * Z) :=
  match fuel with
  | O => (s, None)
  | S fuel' =>
      let cur_dfs_idx := dfs_find_pdev_for_agile_precac s in
      let s1 :=
        mk_psoc (num_dfs_privs s) cur_dfs_idx (dfs_priv s) (psoc_obj s)
                (precac_state_started s) (precac_events s) in
      match nth_error (dfs_priv s1) (Z.to_nat cur_dfs_idx) with
      | None => (s1, None)
      | Some temp_dfs =>
          if negb (agile_precac_active temp_dfs)
          then prepare_agile_loop fuel' s1
          else
            let vhtop_ch_freq_seg1 :=
              dfs_ch_mhz_freq_seg1 (rd_curchan temp_dfs) in
            let vhtop_ch_freq_seg2 :=
              exclude_sec_ch_freq_of (rd_curchan temp_dfs) in
            let '(soc', temp_dfs', out) :=
              dfs_get_ieeechan_for_agilecac_for_freq (psoc_obj s1) temp_dfs
                vhtop_ch_freq_seg1 vhtop_ch_freq_seg2 in
            let s2 :=
              mk_psoc (num_dfs_privs s1) cur_dfs_idx
                (set_nth_radio (dfs_priv s1) (Z.to_nat cur_dfs_idx)
                               temp_dfs')
                soc' (precac_state_started s1) (precac_events s1) in
            match out with
            | Some ch_freq =>
                if ch_freq =? 0 then prepare_agile_loop fuel' s2
                else (s2, Some (cur_dfs_idx, ch_freq))
            | None => prepare_agile_loop fuel' s2
            end
      end
  end.

Definition dfs_prepare_agile_precac_chan (k : precac_consts)
  (s : precac_soc) : precac_soc :=
  let '(s1, found) :=
    prepare_agile_loop (Z.to_nat (num_dfs_privs s)) s in
  match found with
  | Some (idx, ch_freq) =>
      match nth_error (dfs_priv s1) (Z.to_nat idx) with
      | None => s1
      | Some temp_dfs =>
          let adfs_param :=
            mk_adfs ch_freq (dfs_precac_chwidth temp_dfs) 0 0 in
          let '(dfs', adfs_param') :=
            dfs_start_agile_precac_timer k
              (radio_dfs (psoc_obj s1) temp_dfs)
              (ocac_status (psoc_obj s1)) adfs_param in
          mk_psoc (num_dfs_privs s1) (cur_precac_dfs_index s1) (dfs_priv s1)
                  (dfs_soc_obj dfs') (precac_state_started s1)
                  (AgileChCfgCmd idx adfs_param' :: precac_events s1)
      end
  | None =>
      mk_psoc (num_dfs_privs s1) (cur_precac_dfs_index s1) (dfs_priv s1)
              (psoc_obj s1) false (precac_events s1)
  end.

Definition set_radio (s : precac_soc) (idx : Z) (r : precac_radio)
  : precac_soc :=
  mk_psoc (num_dfs_privs s) (cur_precac_dfs_index s)
          (set_nth_radio (dfs_priv s) (Z.to_nat idx) r) (psoc_obj s)
          (precac_state_started s) (precac_events s).

Definition add_event (s : precac_soc) (ev : precac_event) : precac_soc :=
  mk_psoc (num_dfs_privs s) (cur_precac_dfs_index s) (dfs_priv s)
          (psoc_obj s) (precac_state_started s) (ev :: precac_events s).

Definition set_psoc_obj (s : precac_soc) (soc : dfs_soc_priv_obj)
  : precac_soc :=
  mk_psoc (num_dfs_privs s) (cur_precac_dfs_index s) (dfs_priv s)
          soc (precac_state_started s) (precac_events s).

Definition set_precac_state_started (s : precac_soc) (b : bool)
  : precac_soc :=
  mk_psoc (num_dfs_privs s) (cur_precac_dfs_index s) (dfs_priv s)
          (psoc_obj s) b (precac_events s).

(** [find_dot11_chan_for_freq] stands for
    dfs_mlme_find_dot11_chan_for_freq with the mode it is given: [None]
    when it does not return QDF_STATUS_SUCCESS. *)
Definition dfs_precac_csa (s : precac_soc) (idx : Z) (dfs : precac_radio)
  : precac_soc :=
  let des := dfs_autoswitch_des_chan_freq dfs in
  let dfs1 := set_rd_precac_inter_chan_freq dfs des in
  let s1 := add_event s (PrecacChanChangeCsa idx des
                           (dfs_autoswitch_des_mode dfs)) in
  set_radio s1 idx
    (set_dfs_autoswitch_des dfs1 0 (dfs_autoswitch_des_mode dfs1)).

Definition dfs_precac_check_home_chan_change (VHT160_FREQ_DIFF : Z)
  (WLAN_IS_CHAN_DFS_CFREQ2 : dfs_channel -> bool)
  (find_dot11_chan_for_freq : Z -> Z -> option dfs_channel)
  (s : precac_soc) (idx : Z) (dfs : precac_radio) : precac_soc * bool :=
  match find_dot11_chan_for_freq (dfs_autoswitch_des_chan_freq dfs)
                                 (dfs_autoswitch_des_mode dfs) with
  | None => (s, false)
  | Some chan =>
      if negb (dfs_autoswitch_des_chan_freq dfs =? 0)
         && dfs_is_precac_done VHT160_FREQ_DIFF WLAN_IS_CHAN_DFS_CFREQ2
              (rd_precac_list dfs) chan
      then (set_precac_state_started (dfs_precac_csa s idx dfs) false, true)
      else (s, false)
  end.


(** The timer handler, for the radio [dfs_priv[cur_precac_dfs_index]]. *)
Definition dfs_precac_timeout (VHT160_FREQ_DIFF : Z)
  (WLAN_IS_CHAN_DFS_CFREQ2 : dfs_channel -> bool)
  (find_dot11_chan_for_freq : Z -> Z -> option dfs_channel)
  (k : precac_consts) (s : precac_soc) : precac_soc :=
  let idx := cur_precac_dfs_index s in
  match nth_error (dfs_priv s) (Z.to_nat idx) with
  | None => s
  | Some dfs =>
      let s0 :=
        set_psoc_obj s (mk_soc false (ocac_status (psoc_obj s))
                               (dfs_precac_timer (psoc_obj s))) in
      if dfs_is_legacy_precac_enabled dfs
      then
        let dfs1 :=
          set_rd_precac_list dfs
            (dfs_mark_precac_done_for_freq (rd_precac_list dfs)
               (dfs_precac_secondary_freq_mhz dfs) 0
               (dfs_precac_chwidth dfs)) in
        let s1 := set_radio s0 idx dfs1 in
        let '(s2, is_cac_done_on_des_chan) :=
          dfs_precac_check_home_chan_change VHT160_FREQ_DIFF
            WLAN_IS_CHAN_DFS_CFREQ2 find_dot11_chan_for_freq s1 idx dfs1 in
        if negb is_cac_done_on_des_chan
        then add_event s2 (ChannelChangeByPrecac idx)
        else s2
      else if dfs_is_agile_precac_enabled dfs
      then
        let '(s1, dfs1) :=
          if is_ocac_success (ocac_status (psoc_obj s0))
          then
            let dfs1 :=
              set_rd_precac_list dfs
                (dfs_mark_precac_done_for_freq (rd_precac_list dfs)
                   (dfs_agile_precac_freq_mhz dfs) 0
                   (dfs_precac_chwidth dfs)) in
            (set_radio
               (set_psoc_obj s0
                  (mk_soc (dfs_precac_timer_running (psoc_obj s0)) OCAC_RESET
                          (dfs_precac_timer (psoc_obj s0))))
               idx dfs1,
             dfs1)
          else (s0, dfs) in
        let '(s2, is_cac_done_on_des_chan) :=
          dfs_precac_check_home_chan_change VHT160_FREQ_DIFF
            WLAN_IS_CHAN_DFS_CFREQ2 find_dot11_chan_for_freq s1 idx dfs1 in
        if negb is_cac_done_on_des_chan
        then dfs_prepare_agile_precac_chan k s2
        else s2
      else s0
  end.

(** [idx] is the radio of the pdev the event is delivered to;
    utils_dfs_cancel_precac_timer is taken to be the cancel above. *)
Definition dfs_process_ocac_complete (k : precac_consts) (s : precac_soc)
  (idx : Z) (status : ocac_status_t) (center_freq_mhz : Z) : precac_soc :=
  match nth_error (dfs_priv s) (Z.to_nat idx) with
  | None => s
  | Some dfs =>
      let s0 := set_psoc_obj s (dfs_cancel_precac_timer (psoc_obj s)) in
      match status with
      | OCAC_RESET => dfs_prepare_agile_precac_chan k s0
      | OCAC_CANCEL => s0
      | OCAC_SUCCESS =>
          let adfs_param :=
            mk_adfs center_freq_mhz (dfs_precac_chwidth dfs) 0 0 in
          let '(dfs', _) :=
            dfs_start_agile_precac_timer k (radio_dfs (psoc_obj s0) dfs)
              status adfs_param in
          set_psoc_obj s0 (dfs_soc_obj dfs')
      end
  end.

(** ** Vocabulary of the properties *)

(** Bounds of the spec's data model on one node. *)
Definition cac_bound (d : precac_tree_node) : bool :=
  (0 <=? n_caced_subchs d) && (n_caced_subchs d <=? n_valid_subchs d).
Definition nol_bound (d : precac_tree_node) : bool :=
  (0 <=? n_nol_subchs d) && (n_nol_subchs d <=? n_valid_subchs d).
Definition sum_bound (d : precac_tree_node) : bool :=
  n_caced_subchs d + n_nol_subchs d <=? n_valid_subchs d.

(** What every node of a band tree satisfies in every reachable state:
    a bandwidth of 20, 40 or 80, the span as valid count, and both
    counters between 0 and the span. *)
Definition node_ok (d : precac_tree_node) : bool :=
  ((bandwidth d =? 20) || (bandwidth d =? 40) || (bandwidth d =? 80))
  && (n_valid_subchs d =? N_SUBCHS_FOR_BANDWIDTH (bandwidth d))
  && cac_bound d && nol_bound d.

Definition caced_of (t : precac_tree) : Z :=
  match t with Null => 0 | Node d _ _ => n_caced_subchs d end.
Definition nol_of (t : precac_tree) : Z :=
  match t with Null => 0 | Node d _ _ => n_nol_subchs d end.

(** Sum rule: the counters of a node with children are the sums of the
    children's. *)
Fixpoint sum_rule (t : precac_tree) : bool :=
  match t with
  | Null => true
  | Node d Null Null => true
  | Node d l r =>
      (n_caced_subchs d =? caced_of l + caced_of r)
      && (n_nol_subchs d =? nol_of l + nol_of r)
      && sum_rule l && sum_rule r
  end.

(** A frequency is advertised as DFS-valid when the regulatory channel
    list has a DFS channel at it. *)
Definition advertised_dfs (chans : list dfs_channel) (f : Z) : bool :=
  existsb (fun c => (dfs_ch_freq c =? f) && WLAN_IS_CHAN_DFS c) chans.

(** The weather condition in the words of the spec: the range from the
    first to the last 20 MHz sub-channel centre of the preCAC channel
    meets the weather range. *)
Definition subchannel_reach (chwidth : phy_ch_width) : option Z :=
  match chwidth with
  | CH_WIDTH_20MHZ => Some 0
  | CH_WIDTH_40MHZ => Some 10
  | CH_WIDTH_80MHZ => Some 30
  | _ => None
  end.

Definition overlaps_weather_range (k : precac_consts)
  (chwidth : phy_ch_width) (freq : Z) : Prop :=
  exists reach, subchannel_reach chwidth = Some reach /\
    freq - reach <= WEATHER_CHAN_END_FREQ k /\
    WEATHER_CHAN_START_FREQ k <= freq + reach.

Definition consts_in_range (k : precac_consts) : Prop :=
  0 < MIN_PRECAC_DURATION k < 4294967296 - 2000 /\
  0 < MIN_WEATHER_PRECAC_DURATION k < 4294967296 - 2000.

(** Position of the entry the forest mutators pick for [f]: the first one
    in list order whose 80 MHz centre is within 30 MHz of [f]. *)
Fixpoint first_in_range (l : precac_list) (f : Z) : option nat :=
  match l with
  | [] => None
  | e :: rest =>
      if IS_WITHIN_RANGE f (vht80_ch_freq e) VHT80_FREQ_OFFSET then Some O
      else option_map S (first_in_range rest f)
  end.

(** The shape of a tree: its nodes with both counters reset. *)
Definition skeleton_node (d : precac_tree_node) : precac_tree_node :=
  mk_node (ch_freq d) 0 0 (n_valid_subchs d) (bandwidth d).

Fixpoint skeleton (t : precac_tree) : precac_tree :=
  match t with
  | Null => Null
  | Node d l r => Node (skeleton_node d) (skeleton l) (skeleton r)
  end.

(** A band tree over the 80 MHz centre [C] in some counter state: the
    tree initialization builds for [C], whatever its counters hold. *)
Definition is_band_tree (C : Z) (t : precac_tree) : Prop :=
  30 <= C <= 65505 /\ skeleton t = dfs_create_precac_tree_for_freq C.

(** The band tree of [C] written out, with a (CAC-done, NOL) pair for each
    node: root, 40 MHz left and right, then the four leaves in ascending
    order. *)
Definition band_tree (C : Z) (k80 k40l k40r k1 k2 k3 k4 : Z * Z)
  : precac_tree :=
  Node (mk_node C (fst k80) (snd k80) 4 80)
    (Node (mk_node (C - 20) (fst k40l) (snd k40l) 2 40)
       (Node (mk_node (C - 30) (fst k1) (snd k1) 1 20) Null Null)
       (Node (mk_node (C - 10) (fst k2) (snd k2) 1 20) Null Null))
    (Node (mk_node (C + 20) (fst k40r) (snd k40r) 2 40)
       (Node (mk_node (C + 10) (fst k3) (snd k3) 1 20) Null Null)
       (Node (mk_node (C + 30) (fst k4) (snd k4) 1 20) Null Null)).

(** A node of a written-out band tree. *)
Definition bt_node (f bw v : Z) (k : Z * Z) : precac_tree_node :=
  mk_node f (fst k) (snd k) v bw.

(** Search-tree order: every centre lies strictly between the bounds
    inherited from the ancestors. *)
Fixpoint bst_in (lo hi : Z) (t : precac_tree) : bool :=
  match t with
  | Null => true
  | Node d l r =>
      (lo <? ch_freq d) && (ch_freq d <? hi)
      && bst_in lo (ch_freq d) l && bst_in (ch_freq d) hi r
  end.

(** The span of a node is the count [n] of its level, halving downwards. *)
Fixpoint levels_ok (t : precac_tree) (n : Z) : bool :=
  match t with
  | Null => true
  | Node d l r =>
      (N_SUBCHS_FOR_BANDWIDTH (bandwidth d) =? n)
      && levels_ok l (n / 2) && levels_ok r (n / 2)
  end.

(** A forest of band trees over 80 MHz centres that are at least 80 MHz
    apart, as distinct 80 MHz channels are. *)
Fixpoint forest_wf (l : precac_list) : Prop :=
  match l with
  | [] => True
  | e :: rest =>
      is_band_tree (vht80_ch_freq e) (tree_root e) /\
      (forall e', In e' rest ->
         80 <= Z.abs (vht80_ch_freq e - vht80_ch_freq e')) /\
      forest_wf rest
  end.

(** The bandwidth the callers request for an operating channel:
    20 -> 20, 40 -> 40, 80 / 80+80 / 160 -> 80. *)
Definition requested_bw_of (curchan : dfs_channel) : Z :=
  dfs_translate_chwidth_enum2val
    (dfs_find_agile_width (chan_width_of_mode (dfs_ch_mode curchan))).

(** Two channels, given by centre and width, share spectrum. *)
Definition spans_overlap (c1 w1 c2 w2 : Z) : Prop :=
  c1 - w1 / 2 < c2 + w2 / 2 /\ c2 - w2 / 2 < c1 + w1 / 2.

(** Decidable form of [forest_wf], for concrete forests. *)
Definition node_eqb (a b : precac_tree_node) : bool :=
  (ch_freq a =? ch_freq b) && (n_caced_subchs a =? n_caced_subchs b)
  && (n_nol_subchs a =? n_nol_subchs b)
  && (n_valid_subchs a =? n_valid_subchs b) && (bandwidth a =? bandwidth b).

Fixpoint tree_eqb (a b : precac_tree) : bool :=
  match a, b with
  | Null, Null => true
  | Node x l r, Node y l' r' => node_eqb x y && tree_eqb l l' && tree_eqb r r'
  | _, _ => false
  end.

Fixpoint forest_wf_b (l : precac_list) : bool :=
  match l with
  | [] => true
  | e :: rest =>
      (30 <=? vht80_ch_freq e) && (vht80_ch_freq e <=? 65505)
      && tree_eqb (skeleton (tree_root e))
                  (dfs_create_precac_tree_for_freq (vht80_ch_freq e))
      && forallb (fun e' =>
                    80 <=? Z.abs (vht80_ch_freq e - vht80_ch_freq e')) rest
      && forest_wf_b rest
  end.

(** The 20 MHz sub-channels of the band of [C]. *)
Definition band_leaves (C : Z) : list Z := [C - 30; C - 10; C + 10; C + 30].

(** The node with centre [f] met on the descent for [f] has a NOL
    sub-channel. *)
Definition leaf_in_nol (t : precac_tree) (f : Z) : bool :=
  existsb (fun d => (ch_freq d =? f) && negb (n_nol_subchs d =? 0))
          (descent_path t f).

(** Counters within their spans, sum rule, and CAC-done plus NOL within
    the valid count, on every node. *)
Definition consistent (t : precac_tree) : bool :=
  tree_all node_ok t && sum_rule t && tree_all sum_bound t.

(** Guarded use of the mutators on the band of [C]: CAC completion and
    radar are recorded for a 20 MHz sub-channel that is not in NOL, NOL
    expiry for one that is; unmark-CAC-done is only called from inside
    mark-NOL. *)
Definition op_guard (C : Z) (t : precac_tree) (m : mutator) : bool :=
  match m with
  | MarkCacDone f => existsb (Z.eqb f) (band_leaves C) && negb (leaf_in_nol t f)
  | MarkNol f => existsb (Z.eqb f) (band_leaves C) && negb (leaf_in_nol t f)
  | UnmarkNol f => existsb (Z.eqb f) (band_leaves C) && leaf_in_nol t f
  | UnmarkCacDone _ => false
  end.

(** A sequence of mutators, as long as each one is guarded in the state
    it is applied to. *)
Fixpoint run_guarded (C : Z) (t : precac_tree) (ms : list mutator)
  : option precac_tree :=
  match ms with
  | [] => Some t
  | m :: ms' =>
      if op_guard C t m then run_guarded C (apply_mutator t m) ms' else None
  end.

(** The nodes of the band of [C]: centre and bandwidth. *)
Definition band_nodes (C : Z) : list (Z * Z) :=
  [(C, 80); (C - 20, 40); (C + 20, 40);
   (C - 30, 20); (C - 10, 20); (C + 10, 20); (C + 30, 20)].

(** The channels of the band of [C]: centre and width, as mark-done takes
    them. *)
Definition band_channels (C : Z) : list (Z * phy_ch_width) :=
  [(C, CH_WIDTH_80MHZ); (C - 20, CH_WIDTH_40MHZ); (C + 20, CH_WIDTH_40MHZ);
   (C - 30, CH_WIDTH_20MHZ); (C - 10, CH_WIDTH_20MHZ);
   (C + 10, CH_WIDTH_20MHZ); (C + 30, CH_WIDTH_20MHZ)].

(** The span of width [bw] around [f] lies inside the span of width [w]
    around [pri]. *)
Definition span_covers (pri w f bw : Z) : bool :=
  (pri - w / 2 <=? f - bw / 2) && (f + bw / 2 <=? pri + w / 2).

(** A channel of the regulatory list that gets a band tree. *)
Definition is_precac_chan (c : dfs_channel) : bool :=
  WLAN_IS_CHAN_11AC_VHT80 c && WLAN_IS_CHAN_DFS c
  && negb (dfs_ch_mhz_freq_seg1 c =? 0).

(** The 80 MHz centres of the regulatory list lie in the 16-bit range that
    leaves room for the band, and distinct centres are 80 MHz apart. *)
Definition regulatory_raster (chans : list dfs_channel) : Prop :=
  (forall c, In c chans -> is_precac_chan c = true ->
     30 <= dfs_ch_mhz_freq_seg1 c <= 65505) /\
  (forall c c', In c chans -> In c' chans ->
     is_precac_chan c = true -> is_precac_chan c' = true ->
     dfs_ch_mhz_freq_seg1 c <> dfs_ch_mhz_freq_seg1 c' ->
     80 <= Z.abs (dfs_ch_mhz_freq_seg1 c - dfs_ch_mhz_freq_seg1 c')).

Inductive forest_op : Type :=
| ForestMarkDone (pri_ch_freq sec_ch_freq : Z) (ch_width : phy_ch_width)
| ForestMarkNol (freq_lst : list Z)
| ForestUnmarkNol (chan_freq : Z).

Definition apply_forest_op (l : precac_list) (op : forest_op) : precac_list :=
  match op with
  | ForestMarkDone pri sec w => dfs_mark_precac_done_for_freq l pri sec w
  | ForestMarkNol freqs => dfs_mark_precac_nol_for_freq l freqs
  | ForestUnmarkNol f => dfs_unmark_precac_nol_for_freq l f
  end.

(** The bands of a forest in list order, each with the shape of its tree. *)
Definition forest_shape (l : precac_list) : list (Z * precac_tree) :=
  map (fun e => (vht80_ch_freq e, skeleton (tree_root e))) l.

(** What a forest-level mutator does to one entry: the tree mutator on
    the frequencies within 30 MHz of the entry's centre, in list order. *)
Definition per_band (g : precac_tree -> Z -> precac_tree) (freqs : list Z)
  (e : dfs_precac_entry) : dfs_precac_entry :=
  mk_entry (vht80_ch_freq e)
    (fold_left g
       (filter (fun f => IS_WITHIN_RANGE f (vht80_ch_freq e)
                           VHT80_FREQ_OFFSET) freqs)
       (tree_root e)).

(** A radio with agile preCAC enabled and active, on the operating
    channel [curchan], with the forest [l]. *)
Definition radio_sample (curchan : dfs_channel) (l : precac_list)
  : precac_radio :=
  mk_radio true (-1) 5180 curchan l false true true false CH_WIDTH_INVALID
           0 0 0 0.

(** What a visit of the preparation loop to a radio stores in [ch_freq]:
    the selection for the radio's operating channel and forest, 0 for a
    radio that is not active or whose width the agile detector does not
    serve. *)
Definition radio_candidate (r : precac_radio) : Z :=
  if agile_precac_active r
  then
    match snd (dfs_get_ieeechan_for_agilecac_for_freq
                 (mk_soc false OCAC_RESET None) r
                 (dfs_ch_mhz_freq_seg1 (rd_curchan r))
                 (exclude_sec_ch_freq_of (rd_curchan r))) with
    | Some c => c
    | None => 0
    end
  else 0.

(** What the preparation loop reads of a radio and never writes. *)
Definition radio_static (r : precac_radio)
  : bool * dfs_channel * precac_list * bool :=
  (agile_precac_active r, rd_curchan r, rd_precac_list r,
   dfs_fw_adfs_support_160 r).

(** A SoC with two radios, the second one active on 5260 (20 MHz) with a
    forest of two bands, the round-robin index on the first. *)
Definition psoc_sample : precac_soc :=
  mk_psoc 2 0
    [ mk_radio false (-1) 5180 (mk_chan 5180 MODE_80 false 5210 0) []
               false true true false CH_WIDTH_INVALID 0 0 0 0;
      radio_sample (mk_chan 5260 MODE_20 true 5260 0)
        [ mk_entry 5290 (dfs_create_precac_tree_for_freq 5290);
          mk_entry 5530 (dfs_create_precac_tree_for_freq 5530) ] ]
    (mk_soc false OCAC_RESET None) true [].



(** The SoC of [psoc_sample] while the agile timer of its second radio
    runs for 5280 (20 MHz), the off-channel CAC reported as complete. *)
Definition psoc_timeout : precac_soc :=
  mk_psoc 2 1
    [ mk_radio false (-1) 5180 (mk_chan 5180 MODE_80 false 5210 0) []
               false true true false CH_WIDTH_INVALID 0 0 0 0;
      mk_radio true (-1) 5180 (mk_chan 5260 MODE_20 true 5260 0)
               [ mk_entry 5290 (dfs_create_precac_tree_for_freq 5290);
                 mk_entry 5530 (dfs_create_precac_tree_for_freq 5530) ]
               false true true false CH_WIDTH_20MHZ 5280 0 0 0 ]
    (mk_soc true OCAC_SUCCESS (Some 62000)) true
    [ AgileChCfgCmd 1 (mk_adfs 5280 CH_WIDTH_20MHZ 60000 600000) ].

(** [psoc_timeout] before the completion event: the timer runs with the
    timeout of the command and the OCAC status is reset. *)
Definition psoc_running : precac_soc :=
  mk_psoc 2 1 (dfs_priv psoc_timeout) (mk_soc true OCAC_RESET (Some 62000))
    true (precac_events psoc_timeout).

(** A radio in legacy preCAC on the secondary 80 MHz channel 5290. *)
Definition radio_legacy : precac_radio :=
  mk_radio false (-1) 5180 (mk_chan 5180 MODE_80_80 false 5210 5290)
    [ mk_entry 5290 (dfs_create_precac_tree_for_freq 5290);
      mk_entry 5530 (dfs_create_precac_tree_for_freq 5530) ]
    true false false false CH_WIDTH_80MHZ 0 5290 0 0.

Definition psoc_legacy : precac_soc :=
  mk_psoc 1 0 [ radio_legacy ] (mk_soc true OCAC_RESET (Some 60000)) true [].

(** ** Sample inputs *)

Definition chan_5260_vht80 : dfs_channel := mk_chan 5260 MODE_80 true 5290 0.

Definition soc_idle : dfs_soc_priv_obj := mk_soc false OCAC_RESET None.

Definition dfs_sample (override inter : Z) : wlan_dfs :=
  mk_dfs override inter chan_5260_vht80 [] soc_idle.

(** A regulatory lookup that knows 5180 (non-DFS) and 5260 (DFS). *)
Definition sample_find_dot11_chan (freq : Z) : option dfs_channel :=
  if freq =? 5180 then Some (mk_chan 5180 MODE_80 false 5210 0)
  else if freq =? 5260 then Some chan_5260_vht80
  else None.

Example create_5290 :
  dfs_create_precac_tree_for_freq 5290 =
  Node (mk_node 5290 0 0 4 80)
    (Node (mk_node 5270 0 0 2 40)
       (Node (mk_node 5260 0 0 1 20) Null Null)
       (Node (mk_node 5280 0 0 1 20) Null Null))
    (Node (mk_node 5310 0 0 2 40)
       (Node (mk_node 5300 0 0 1 20) Null Null)
       (Node (mk_node 5320 0 0 1 20) Null Null)).
Proof. reflexivity. Qed.

(** ** Descent *)

Lemma descent_path_descend (d : precac_tree_node) (l r : precac_tree)
  (f : Z) :
  descent_path (Node d l r) f
  = d :: descent_path (dfs_descend_precac_tree_for_freq (Node d l r) f) f.
Proof. reflexivity. Qed.

(** ** Machine-integer facts *)

Lemma u8_small (x : Z) : 0 <= x < 256 -> u8 x = x.
Proof. intros H; unfold u8; apply Z.mod_small; exact H. Qed.

Lemma u16_small (x : Z) : 0 <= x < 65536 -> u16 x = x.
Proof. intros H; unfold u16; apply Z.mod_small; exact H. Qed.

Lemma u32_small (x : Z) : 0 <= x < 4294967296 -> u32 x = x.
Proof. intros H; unfold u32; apply Z.mod_small; exact H. Qed.

(** ** Intermediate channel *)

(** C7 (as stated, refuted): with 5180 stored as intermediate channel, a
    request for the DFS frequency 5260 returns -EINVAL but the stored
    channel does not keep its previous value. *)
Lemma intermediate_chan_dfs_not_kept :
  let dfs := dfs_sample (-1) 5180 in
  let r := dfs_set_precac_intermediate_chan sample_find_dot11_chan dfs 5260 in
  snd r = - EINVAL /\
  dfs_get_precac_intermediate_chan dfs = 5180 /\
  dfs_get_precac_intermediate_chan (fst r) <> 5180.
Proof. cbv. repeat split; discriminate. Qed.

(** C7 (amended): a frequency that resolves to a DFS channel is rejected
    with -EINVAL, the stored intermediate channel is reset to 0, and every
    other field of the object is left as it was. *)
Theorem intermediate_chan_dfs_rejected :
  forall find dfs freq chan,
    find freq = Some chan ->
    WLAN_IS_CHAN_DFS chan = true ->
    let r := dfs_set_precac_intermediate_chan find dfs freq in
    snd r = - EINVAL /\
    dfs_get_precac_intermediate_chan (fst r) = 0 /\
    dfs_precac_timeout_override (fst r) = dfs_precac_timeout_override dfs /\
    dfs_curchan (fst r) = dfs_curchan dfs /\
    dfs_precac_list (fst r) = dfs_precac_list dfs /\
    dfs_soc_obj (fst r) = dfs_soc_obj dfs.
Proof.
  intros find dfs freq chan Hfind Hdfs r; subst r.
  unfold dfs_set_precac_intermediate_chan.
  rewrite Hfind, Hdfs; cbn.
  repeat split; reflexivity.
Qed.

Lemma intermediate_chan_dfs_rejected_witness :
  let r := dfs_set_precac_intermediate_chan sample_find_dot11_chan
             (dfs_sample (-1) 5180) 5260 in
  snd r = - EINVAL /\ dfs_get_precac_intermediate_chan (fst r) = 0.
Proof.
  pose proof (intermediate_chan_dfs_rejected sample_find_dot11_chan
                (dfs_sample (-1) 5180) 5260 chan_5260_vht80
                eq_refl eq_refl) as H.
  cbv zeta in H. destruct H as (H1 & H2 & _).
  split; assumption.
Defined.

(** ** Agile preCAC timer *)

Lemma weather_channel_spec (k : precac_consts) (w : phy_ch_width) (f : Z) :
  30 <= f <= 65505 ->
  dfs_is_pcac_on_weather_channel_for_freq k w f = true <->
  overlaps_weather_range k w f.
Proof.
  intros Hf.
  unfold dfs_is_pcac_on_weather_channel_for_freq, overlaps_weather_range,
    FIND_IF_OVERLAP_WITH_WEATHER_FREQ_RANGE,
    DFS_5GHZ_NEXT_CHAN_FREQ_OFFSET, DFS_5GHZ_2ND_CHAN_FREQ_OFFSET.
  destruct w; cbn [subchannel_reach];
    try (split; [discriminate | intros (reach & Hr & _); discriminate]).
  - rewrite andb_true_iff, !Z.leb_le. split.
    + intros [H1 H2]. exists 0. repeat split; lia.
    + intros (reach & Hr & H1 & H2). injection Hr as <-. lia.
  - rewrite !u16_small by lia. rewrite andb_true_iff, !Z.leb_le. split.
    + intros [H1 H2]. exists 10. repeat split; lia.
    + intros (reach & Hr & H1 & H2). injection Hr as <-. lia.
  - rewrite !u16_small by lia. rewrite andb_true_iff, !Z.leb_le. split.
    + intros [H1 H2]. exists 30. repeat split; lia.
    + intros (reach & Hr & H1 & H2). injection Hr as <-. lia.
Qed.

(** C9 (as stated, refuted): with an operator override of 0 seconds and a
    status other than success, the minimum is 0 * 1000 = 0 and the host
    timer is armed with 0, not with the minimum plus 2000 ms. *)
Lemma agile_timer_zero_override_no_slack :
  let dfs := dfs_sample 0 0 in
  let r := dfs_start_agile_precac_timer spec_consts dfs OCAC_RESET
             (mk_adfs 5290 CH_WIDTH_80MHZ 0 0) in
  min_precac_timeout (snd r) = 0 * 1000 /\
  dfs_precac_timer (dfs_soc_obj (fst r)) = Some 0 /\
  dfs_precac_timer (dfs_soc_obj (fst r))
    <> Some (min_precac_timeout (snd r) + 2000).
Proof. cbv. repeat split; discriminate. Qed.

(** C9 (amended): when the agile timer is armed with a status other than
    success, the minimum is the override times 1000 if an override is set,
    else the weather minimum if the sub-channel range of the preCAC
    channel meets the weather range, else the regular minimum; the host
    timer is armed with that minimum plus 2000 ms when the minimum is not
    zero, and with 0 when it is zero. *)
Theorem agile_timer_min_and_slack :
  forall k dfs ocac p,
    consts_in_range k ->
    is_ocac_success ocac = false ->
    dfs_precac_timeout_override dfs = -1 \/
    0 <= dfs_precac_timeout_override dfs <= 2147483 ->
    30 <= precac_chan_freq p <= 65505 ->
    let r := dfs_start_agile_precac_timer k dfs ocac p in
    let m := min_precac_timeout (snd r) in
    (dfs_precac_timeout_override dfs <> -1 ->
       m = dfs_precac_timeout_override dfs * 1000) /\
    (dfs_precac_timeout_override dfs = -1 ->
       overlaps_weather_range k (precac_chwidth p) (precac_chan_freq p) ->
       m = MIN_WEATHER_PRECAC_DURATION k) /\
    (dfs_precac_timeout_override dfs = -1 ->
       ~ overlaps_weather_range k (precac_chwidth p) (precac_chan_freq p) ->
       m = MIN_PRECAC_DURATION k) /\
    dfs_precac_timer_running (dfs_soc_obj (fst r)) = true /\
    dfs_precac_timer (dfs_soc_obj (fst r)) =
      Some (if m =? 0 then 0 else m + 2000).
Proof.
  intros k dfs ocac p [Hmin Hwmin] Hocac Hov Hf r m; subst m r.
  pose proof (weather_channel_spec k (precac_chwidth p) _ Hf) as Hw.
  unfold dfs_start_agile_precac_timer.
  destruct (agile_precac_timeouts k dfs ocac p) as [mn mx] eqn:Hmm.
  cbn [fst snd min_precac_timeout dfs_soc_obj dfs_precac_timer
       dfs_precac_timer_running].
  unfold agile_precac_timeouts in Hmm. rewrite Hocac in Hmm.
  assert (Hslack : forall x, 0 <= x < 4294967296 - 2000 ->
            (if negb (x =? 0) then u32 (x + EXTRA_TIME_IN_MS) else x) =
            (if x =? 0 then 0 else x + 2000)).
  { intros x Hx. unfold EXTRA_TIME_IN_MS.
    destruct (Z.eqb_spec x 0) as [-> | Hx0]; cbn [negb]; [reflexivity |].
    apply u32_small; lia. }
  destruct (Z.eqb_spec (dfs_precac_timeout_override dfs) (-1)) as [E | E];
    cbn [negb] in Hmm.
  - destruct (dfs_is_pcac_on_weather_channel_for_freq k (precac_chwidth p)
                (precac_chan_freq p)) eqn:W;
      injection Hmm as <- <-; rewrite u32_small by lia;
      rewrite Hslack by lia.
    + repeat split; try reflexivity; try congruence.
      intros _ Hn. exfalso. apply Hn, Hw. reflexivity.
    + repeat split; try reflexivity; try congruence.
      intros _ Hy. apply Hw in Hy. discriminate.
  - assert (Hr : 0 <= dfs_precac_timeout_override dfs <= 2147483)
      by (destruct Hov; [contradiction | assumption]).
    injection Hmm as <- <-. rewrite u32_small by lia.
    rewrite Hslack by lia.
    repeat split; try reflexivity; try contradiction.
Qed.

Lemma agile_timer_min_and_slack_witness :
  let r := dfs_start_agile_precac_timer spec_consts (dfs_sample (-1) 0)
             OCAC_RESET (mk_adfs 5610 CH_WIDTH_80MHZ 0 0) in
  min_precac_timeout (snd r) = 600000 /\
  dfs_precac_timer (dfs_soc_obj (fst r)) = Some 602000.
Proof.
  assert (Hc : consts_in_range spec_consts) by (cbv; repeat split; reflexivity).
  assert (Ho : dfs_precac_timeout_override (dfs_sample (-1) 0) = -1 \/
               0 <= dfs_precac_timeout_override (dfs_sample (-1) 0)
                 <= 2147483) by (left; reflexivity).
  assert (Hf : 30 <= precac_chan_freq (mk_adfs 5610 CH_WIDTH_80MHZ 0 0)
               <= 65505) by (cbn; lia).
  pose proof (agile_timer_min_and_slack spec_consts (dfs_sample (-1) 0)
                OCAC_RESET (mk_adfs 5610 CH_WIDTH_80MHZ 0 0)
                Hc eq_refl Ho Hf) as H.
  cbv zeta in H. destruct H as (_ & Hw & _ & _ & Ht).
  split.
  - apply Hw; [reflexivity |].
    exists 30. cbn. repeat split; lia.
  - exact Ht.
Defined.

(** ** Nodes of a tree *)

Lemma tree_all_forall (p : precac_tree_node -> bool) (t : precac_tree) :
  tree_all p t = true <-> forall d, In d (tree_nodes t) -> p d = true.
Proof.
  induction t as [| d l IHl r IHr]; cbn.
  - split; [intros _ d [] | reflexivity].
  - rewrite !andb_true_iff, IHl, IHr. split.
    + intros [[Hd Hl] Hr] x [<- | Hx]; [exact Hd |].
      apply in_app_or in Hx. destruct Hx; auto.
    + intros H. repeat split.
      * apply H. left. reflexivity.
      * intros x Hx. apply H. right. apply in_or_app. left. exact Hx.
      * intros x Hx. apply H. right. apply in_or_app. right. exact Hx.
Qed.

Lemma tree_nodes_insert (t : precac_tree) (f bw : Z) (x : precac_tree_node) :
  In x (tree_nodes (dfs_insert_node_into_bstree_for_freq t f bw)) <->
  x = dfs_init_precac_tree_node_for_freq f bw \/ In x (tree_nodes t).
Proof.
  induction t as [| d l IHl r IHr]; cbn.
  - split; [intros [<- | []]; left; reflexivity | intros [-> | []]; left; reflexivity].
  - destruct (f <? ch_freq d); cbn; rewrite !in_app_iff.
    + rewrite IHl. intuition.
    + rewrite IHr. intuition.
Qed.

Lemma create_precac_tree_inserts (C : Z) :
  dfs_create_precac_tree_for_freq C =
  let ins := dfs_insert_node_into_bstree_for_freq in
  ins (ins (ins (ins (ins (ins (ins Null (u16 (C + 0)) 80)
                               (u16 (C + -20)) 40)
                          (u16 (C + 20)) 40)
                     (u16 (C + -30)) 20)
                (u16 (C + -10)) 20)
           (u16 (C + 10)) 20)
      (u16 (C + 30)) 20.
Proof. reflexivity. Qed.

Lemma create_precac_tree_nodes (C : Z) (x : precac_tree_node) :
  In x (tree_nodes (dfs_create_precac_tree_for_freq C)) <->
  In x [ mk_node (u16 (C + 30)) 0 0 1 20; mk_node (u16 (C + 10)) 0 0 1 20;
         mk_node (u16 (C + -10)) 0 0 1 20; mk_node (u16 (C + -30)) 0 0 1 20;
         mk_node (u16 (C + 20)) 0 0 2 40; mk_node (u16 (C + -20)) 0 0 2 40;
         mk_node (u16 (C + 0)) 0 0 4 80 ].
Proof.
  rewrite create_precac_tree_inserts. cbv zeta.
  rewrite !tree_nodes_insert. cbn [tree_nodes In].
  unfold dfs_init_precac_tree_node_for_freq.
  change (u8 (N_SUBCHS_FOR_BANDWIDTH 80)) with 4.
  change (u8 (N_SUBCHS_FOR_BANDWIDTH 40)) with 2.
  change (u8 (N_SUBCHS_FOR_BANDWIDTH 20)) with 1.
  intuition congruence.
Qed.

Lemma init_precac_list_trees (chans : list dfs_channel) (acc : precac_list) :
  (forall e, In e acc ->
     tree_root e = dfs_create_precac_tree_for_freq (vht80_ch_freq e)) ->
  forall e, In e (fold_left init_precac_step chans acc) ->
    tree_root e = dfs_create_precac_tree_for_freq (vht80_ch_freq e).
Proof.
  revert acc. induction chans as [| c chans IH]; intros acc Hacc; cbn.
  - exact Hacc.
  - apply IH. intros e He. unfold init_precac_step in He.
    destruct (WLAN_IS_CHAN_11AC_VHT80 c && WLAN_IS_CHAN_DFS c); [| auto].
    destruct (negb (precac_entry_found acc (dfs_ch_mhz_freq_seg1 c))
              && negb (dfs_ch_mhz_freq_seg1 c =? 0)); [| auto].
    apply in_app_or in He. destruct He as [He | [<- | []]]; [auto |].
    reflexivity.
Qed.

(** ** Construction and regulatory validity *)

(** C8 (as stated, refuted): the forest built from a regulatory list that
    advertises only 5260 (VHT80, DFS, 80 MHz centre 5290) holds the 20 MHz
    leaf 5320, which is not advertised, with a valid count of 1, not 0. *)
Lemma init_unadvertised_leaf_valid :
  let chans := [chan_5260_vht80] in
  let forest := dfs_init_precac_list DFS_ETSI_DOMAIN chans [] in
  exists e d,
    In e forest /\ In d (tree_nodes (tree_root e)) /\
    bandwidth d = 20 /\ ch_freq d = 5320 /\
    advertised_dfs chans (ch_freq d) = false /\
    n_valid_subchs d = 1 /\ n_valid_subchs d <> 0.
Proof.
  cbv zeta.
  exists (mk_entry 5290 (dfs_create_precac_tree_for_freq 5290)),
         (mk_node 5320 0 0 1 20).
  repeat split.
  - left. reflexivity.
  - vm_compute. auto 10.
  - discriminate.
Qed.

(** C8 (amended): every band tree of the forest holds the four 20 MHz
    leaves at -30, -10, +10 and +30 MHz of its 80 MHz centre, and every
    node of it, whatever the regulatory list advertises for its
    frequency, has a valid count equal to its bandwidth / 20 (hence not
    0). *)
Theorem init_nodes_valid_unconditionally :
  forall chans e,
    In e (dfs_init_precac_list DFS_ETSI_DOMAIN chans []) ->
    (forall off, In off [-30; -10; 10; 30] ->
       exists d, In d (tree_nodes (tree_root e)) /\
                 ch_freq d = u16 (vht80_ch_freq e + off) /\
                 bandwidth d = 20) /\
    (forall d, In d (tree_nodes (tree_root e)) ->
       n_valid_subchs d = bandwidth d / 20 /\ n_valid_subchs d <> 0).
Proof.
  intros chans e He.
  assert (Ht : tree_root e =
               dfs_create_precac_tree_for_freq (vht80_ch_freq e)).
  { apply (init_precac_list_trees chans []); [intros ? [] | exact He]. }
  rewrite Ht. split.
  - intros off Hoff.
    exists (mk_node (u16 (vht80_ch_freq e + off)) 0 0 1 20).
    rewrite create_precac_tree_nodes. cbn [ch_freq bandwidth].
    repeat split. cbn in Hoff |- *.
    destruct Hoff as [<- | [<- | [<- | [<- | []]]]]; tauto.
  - intros d Hd. apply create_precac_tree_nodes in Hd. cbn in Hd.
    repeat (destruct Hd as [<- | Hd]; [cbn; split; [reflexivity | discriminate] |]).
    destruct Hd.
Qed.

Lemma init_nodes_valid_unconditionally_witness :
  exists d,
    In d (tree_nodes (dfs_create_precac_tree_for_freq 5290)) /\
    ch_freq d = 5320 /\ bandwidth d = 20.
Proof.
  assert (He : In (mk_entry 5290 (dfs_create_precac_tree_for_freq 5290))
                  (dfs_init_precac_list DFS_ETSI_DOMAIN [chan_5260_vht80] []))
    by (left; reflexivity).
  destruct (init_nodes_valid_unconditionally [chan_5260_vht80] _ He)
    as [Hleaves _].
  apply (Hleaves 30). cbn. tauto.
Defined.

(** ** Counter bounds *)

Lemma node_ok_spec (d : precac_tree_node) :
  node_ok d = true <->
  (bandwidth d = 20 \/ bandwidth d = 40 \/ bandwidth d = 80) /\
  n_valid_subchs d = N_SUBCHS_FOR_BANDWIDTH (bandwidth d) /\
  0 <= n_caced_subchs d <= n_valid_subchs d /\
  0 <= n_nol_subchs d <= n_valid_subchs d.
Proof.
  unfold node_ok, cac_bound, nol_bound.
  rewrite !andb_true_iff, !orb_true_iff, !Z.eqb_eq, !Z.leb_le. tauto.
Qed.

Lemma span_cases (bw : Z) :
  bw = 20 \/ bw = 40 \/ bw = 80 ->
  (bw = 20 /\ N_SUBCHS_FOR_BANDWIDTH bw = 1) \/
  (bw = 40 /\ N_SUBCHS_FOR_BANDWIDTH bw = 2) \/
  (bw = 80 /\ N_SUBCHS_FOR_BANDWIDTH bw = 4).
Proof. intros [-> | [-> | ->]]; [left | right; left | right; right]; split; reflexivity. Qed.

Lemma span_range (bw : Z) :
  bw = 20 \/ bw = 40 \/ bw = 80 -> 1 <= N_SUBCHS_FOR_BANDWIDTH bw <= 4.
Proof. intros H. destruct (span_cases bw H) as [[_ E] | [[_ E] | [_ E]]]; lia. Qed.

Lemma node_ok_incr_caced (d : precac_tree_node) :
  node_ok d = true ->
  (n_caced_subchs d <? N_SUBCHS_FOR_BANDWIDTH (bandwidth d)) = true ->
  node_ok (set_caced d (u8 (n_caced_subchs d + 1))) = true.
Proof.
  rewrite !node_ok_spec, Z.ltb_lt. cbn.
  intros (Hbw & Hv & Hc & Hn) Hlt. pose proof (span_range _ Hbw).
  rewrite u8_small by lia. repeat split; try tauto; lia.
Qed.

Lemma node_ok_decr_caced (d : precac_tree_node) :
  node_ok d = true ->
  (n_caced_subchs d =? 0) = false ->
  node_ok (set_caced d (u8 (n_caced_subchs d - 1))) = true.
Proof.
  rewrite !node_ok_spec, Z.eqb_neq. cbn.
  intros (Hbw & Hv & Hc & Hn) Hnz. pose proof (span_range _ Hbw).
  rewrite u8_small by lia. repeat split; try tauto; lia.
Qed.

Lemma node_ok_incr_nol (d : precac_tree_node) :
  node_ok d = true ->
  (n_nol_subchs d <? N_SUBCHS_FOR_BANDWIDTH (bandwidth d)) = true ->
  node_ok (set_nol d (u8 (n_nol_subchs d + 1))) = true.
Proof.
  rewrite !node_ok_spec, Z.ltb_lt. cbn.
  intros (Hbw & Hv & Hc & Hn) Hlt. pose proof (span_range _ Hbw).
  rewrite u8_small by lia. repeat split; try tauto; lia.
Qed.

Lemma node_ok_decr_nol (d : precac_tree_node) :
  node_ok d = true ->
  (n_nol_subchs d =? 0) = false ->
  node_ok (set_nol d (u8 (n_nol_subchs d - 1))) = true.
Proof.
  rewrite !node_ok_spec, Z.eqb_neq. cbn.
  intros (Hbw & Hv & Hc & Hn) Hnz. pose proof (span_range _ Hbw).
  rewrite u8_small by lia. repeat split; try tauto; lia.
Qed.

(** Splits a [tree_all] fact on a node into its three parts. *)
Ltac split_all H :=
  cbn [tree_all] in H; rewrite !andb_true_iff in H;
  destruct H as [[? ?] ?].

Lemma mark_cac_done_loop_ok (t : precac_tree) (f : Z) :
  tree_all node_ok t = true ->
  tree_all node_ok (mark_cac_done_loop t f) = true.
Proof.
  induction t as [| d l IHl r IHr]; intros H; [reflexivity |].
  split_all H. cbn [mark_cac_done_loop].
  assert (Hd : node_ok
    (if n_caced_subchs d <? N_SUBCHS_FOR_BANDWIDTH (bandwidth d)
     then set_caced d (u8 (n_caced_subchs d + 1)) else d) = true).
  { destruct (n_caced_subchs d <? N_SUBCHS_FOR_BANDWIDTH (bandwidth d)) eqn:E;
      [apply node_ok_incr_caced |]; assumption. }
  destruct (f <? ch_freq d); cbn [tree_all]; rewrite Hd; cbn [andb].
  - rewrite IHl by assumption. assumption.
  - rewrite IHr by assumption. rewrite andb_true_r. assumption.
Qed.

Lemma mark_cac_done_ok (t : precac_tree) (f : Z) :
  tree_all node_ok t = true ->
  tree_all node_ok (dfs_mark_tree_node_as_cac_done_for_freq t f) = true.
Proof.
  intros H. unfold dfs_mark_tree_node_as_cac_done_for_freq.
  destruct t as [| d l r]; [reflexivity |].
  destruct (dfs_is_tree_node_marked_as_cac_for_freq (Node d l r) f);
    [exact H | apply mark_cac_done_loop_ok; exact H].
Qed.

Lemma unmark_cac_done_ok (t : precac_tree) (f : Z) :
  tree_all node_ok t = true ->
  tree_all node_ok (dfs_unmark_tree_node_as_cac_done_for_freq t f) = true.
Proof.
  induction t as [| d l IHl r IHr]; intros H; [reflexivity |].
  pose proof H as H0. split_all H.
  cbn [dfs_unmark_tree_node_as_cac_done_for_freq].
  destruct (n_caced_subchs d =? 0) eqn:E; [exact H0 |].
  pose proof (node_ok_decr_caced d ltac:(assumption) E) as Hd.
  destruct (f <? ch_freq d); cbn [tree_all]; rewrite Hd; cbn [andb].
  - rewrite IHl by assumption. assumption.
  - rewrite IHr by assumption. rewrite andb_true_r. assumption.
Qed.

Lemma unmark_nol_ok (t : precac_tree) (f : Z) :
  tree_all node_ok t = true ->
  tree_all node_ok (dfs_unmark_tree_node_as_nol_for_freq t f) = true.
Proof.
  induction t as [| d l IHl r IHr]; intros H; [reflexivity |].
  pose proof H as H0. split_all H.
  cbn [dfs_unmark_tree_node_as_nol_for_freq].
  destruct (n_nol_subchs d =? 0) eqn:E; [exact H0 |].
  pose proof (node_ok_decr_nol d ltac:(assumption) E) as Hd.
  destruct (f <? ch_freq d); cbn [tree_all]; rewrite Hd; cbn [andb].
  - rewrite IHl by assumption. assumption.
  - rewrite IHr by assumption. rewrite andb_true_r. assumption.
Qed.

Lemma path_update_all (p : precac_tree_node -> bool)
  (g : precac_tree_node -> precac_tree_node) (f : Z) :
  forall (t : precac_tree) (k : nat) (d : precac_tree_node),
    tree_all p t = true ->
    nth_error (descent_path t f) k = Some d ->
    p (g d) = true ->
    tree_all p (path_update t f k g) = true.
Proof.
  induction t as [| x l IHl r IHr]; intros k d H Hk Hg; [reflexivity |].
  split_all H. destruct k as [| k]; cbn in Hk |- *.
  - injection Hk as <-. rewrite Hg. cbn. rewrite andb_true_iff. tauto.
  - destruct (f <? ch_freq x); cbn [tree_all]; rewrite !andb_true_iff;
      repeat split; try assumption.
    + eapply IHl; eassumption.
    + eapply IHr; eassumption.
Qed.

Lemma mark_nol_loop_ok (f : Z) :
  forall (curr : precac_tree) (k : nat) (root : precac_tree),
    tree_all node_ok root = true ->
    tree_all node_ok (mark_nol_loop curr k root f) = true.
Proof.
  induction curr as [| c l IHl r IHr]; intros k root H; [exact H |].
  cbn [mark_nol_loop].
  destruct (nth_error (descent_path root f) k) as [d |] eqn:Hk; [| exact H].
  destruct (n_nol_subchs d <? N_SUBCHS_FOR_BANDWIDTH (bandwidth d)) eqn:E;
    [| exact H].
  assert (Hd : node_ok d = true).
  { apply (proj1 (tree_all_forall node_ok root) H).
    apply nth_error_In in Hk. clear -Hk. revert Hk.
    induction root as [| x a IHa b IHb]; cbn; [tauto |].
    intros [<- | Hin]; [left; reflexivity |]. right. apply in_or_app.
    destruct (f <? ch_freq x); [left | right]; auto. }
  assert (H1 : tree_all node_ok
            (path_update root f k
               (fun n => set_nol n (u8 (n_nol_subchs n + 1)))) = true).
  { eapply path_update_all; [exact H | exact Hk |].
    apply node_ok_incr_nol; assumption. }
  assert (H2 : tree_all node_ok
            (if (f =? ch_freq d) && negb (n_caced_subchs d =? 0)
             then dfs_unmark_tree_node_as_cac_done_for_freq
                    (path_update root f k
                       (fun n => set_nol n (u8 (n_nol_subchs n + 1)))) f
             else path_update root f k
                    (fun n => set_nol n (u8 (n_nol_subchs n + 1)))) = true).
  { destruct ((f =? ch_freq d) && negb (n_caced_subchs d =? 0));
      [apply unmark_cac_done_ok |]; exact H1. }
  destruct (f <? ch_freq c); [apply IHl | apply IHr]; exact H2.
Qed.

Lemma apply_mutator_ok (t : precac_tree) (m : mutator) :
  tree_all node_ok t = true -> tree_all node_ok (apply_mutator t m) = true.
Proof.
  intros H. destruct m as [f | f | f | f]; cbn [apply_mutator].
  - apply mark_cac_done_ok; exact H.
  - apply unmark_cac_done_ok; exact H.
  - apply mark_nol_loop_ok; exact H.
  - apply unmark_nol_ok; exact H.
Qed.

Lemma apply_mutators_ok (ms : list mutator) :
  forall t, tree_all node_ok t = true ->
            tree_all node_ok (apply_mutators t ms) = true.
Proof.
  unfold apply_mutators.
  induction ms as [| m ms IH]; intros t H; cbn; [exact H |].
  apply IH, apply_mutator_ok, H.
Qed.

Lemma create_precac_tree_ok (C : Z) :
  tree_all node_ok (dfs_create_precac_tree_for_freq C) = true.
Proof.
  apply tree_all_forall. intros d Hd.
  apply create_precac_tree_nodes in Hd. cbn in Hd.
  repeat (destruct Hd as [<- | Hd]; [reflexivity |]). destruct Hd.
Qed.

(** C1 (as stated, refuted): in the band tree of 5290, mark-NOL(5260)
    followed by mark-CAC-done(5260) leaves the leaf 5260 with one CAC-done
    and one NOL sub-channel out of one valid sub-channel. *)
Lemma counter_sum_exceeds_valid :
  let t := apply_mutators (dfs_create_precac_tree_for_freq 5290)
             [MarkNol 5260; MarkCacDone 5260] in
  In (mk_node 5260 1 1 1 20) (tree_nodes t) /\
  tree_all sum_bound t = false.
Proof. vm_compute. split; [auto 10 | reflexivity]. Qed.

(** C1 (amended): in every band tree built by initialization and every
    state reached from it by any sequence of the four mutators on any
    frequencies, every node has 0 <= n_cac_done <= n_valid and
    0 <= n_nol <= n_valid. *)
Theorem counters_within_valid :
  forall C ms d,
    In d (tree_nodes
            (apply_mutators (dfs_create_precac_tree_for_freq C) ms)) ->
    0 <= n_caced_subchs d <= n_valid_subchs d /\
    0 <= n_nol_subchs d <= n_valid_subchs d.
Proof.
  intros C ms d Hd.
  pose proof (apply_mutators_ok ms _ (create_precac_tree_ok C)) as H.
  apply (proj1 (tree_all_forall _ _) H) in Hd.
  apply node_ok_spec in Hd. tauto.
Qed.

Lemma counters_within_valid_witness :
  let t := apply_mutators (dfs_create_precac_tree_for_freq 5290)
             [MarkNol 5260; MarkCacDone 5260] in
  let d := mk_node 5260 1 1 1 20 in
  In d (tree_nodes t) /\
  0 <= n_caced_subchs d <= n_valid_subchs d /\
  0 <= n_nol_subchs d <= n_valid_subchs d.
Proof.
  cbv zeta.
  assert (H : In (mk_node 5260 1 1 1 20)
                (tree_nodes
                   (apply_mutators (dfs_create_precac_tree_for_freq 5290)
                      [MarkNol 5260; MarkCacDone 5260])))
    by (vm_compute; auto 10).
  split; [exact H |].
  exact (counters_within_valid 5290 [MarkNol 5260; MarkCacDone 5260] _ H).
Defined.

(** ** Sum rule *)

(** C2 (the code at the failing input): two mark-NOL(5260) in a row on the
    band tree of 5290 leave the root and the 40 MHz node 5270 with an NOL
    count of 2 while the leaves 5260 and 5280 hold 1 and 0: the second
    call increments the ancestors and returns at the saturated leaf; the
    forest-level mark-NOL reaches this state through the same calls.
    After the NOL of 5260 expires (one unmark-NOL), 5270 still counts one
    NOL sub-channel although neither leaf is in NOL, and is therefore
    reported as not requiring preCAC. *)
Theorem sum_rule_lost_on_repeated_nol :
  let t0 := dfs_create_precac_tree_for_freq 5290 in
  let t := apply_mutators t0 [MarkNol 5260; MarkNol 5260] in
  let t2 := apply_mutators t [UnmarkNol 5260] in
  t = Node (mk_node 5290 0 2 4 80)
        (Node (mk_node 5270 0 2 2 40)
           (Node (mk_node 5260 0 1 1 20) Null Null)
           (Node (mk_node 5280 0 0 1 20) Null Null))
        (Node (mk_node 5310 0 0 2 40)
           (Node (mk_node 5300 0 0 1 20) Null Null)
           (Node (mk_node 5320 0 0 1 20) Null Null)) /\
  dfs_mark_precac_nol_for_freq
    (dfs_mark_precac_nol_for_freq [mk_entry 5290 t0] [5260]) [5260]
  = [mk_entry 5290 t] /\
  sum_rule t0 = true /\
  sum_rule t = false /\
  map n_nol_subchs (descent_path t2 5260) = [1; 1; 0] /\
  dfs_is_pcac_required_for_freq t0 5270 = true /\
  dfs_is_pcac_required_for_freq t2 5270 = false.
Proof. vm_compute. repeat split. Qed.

(** ** Frame of the forest mutators *)

Lemma mark_first_in_range_nth (g : precac_tree -> Z -> precac_tree) (f : Z) :
  forall (l : precac_list) (j : nat),
    first_in_range l f <> Some j ->
    nth_error (mark_first_in_range g l f) j = nth_error l j.
Proof.
  induction l as [| e l IH]; intros j Hj; [reflexivity |].
  cbn in Hj |- *.
  destruct (IS_WITHIN_RANGE f (vht80_ch_freq e) VHT80_FREQ_OFFSET).
  - destruct j as [| j]; [congruence | reflexivity].
  - destruct j as [| j]; [reflexivity |]. cbn. apply IH.
    intros E. apply Hj. rewrite E. reflexivity.
Qed.

Lemma first_in_range_mark (g : precac_tree -> Z -> precac_tree) (f f' : Z) :
  forall l : precac_list,
    first_in_range (mark_first_in_range g l f') f = first_in_range l f.
Proof.
  induction l as [| e l IH]; [reflexivity |]. cbn.
  destruct (IS_WITHIN_RANGE f' (vht80_ch_freq e) VHT80_FREQ_OFFSET); cbn.
  - reflexivity.
  - rewrite IH. reflexivity.
Qed.

Lemma first_in_range_within (f : Z) :
  forall (l : precac_list) (j : nat),
    first_in_range l f = Some j ->
    exists e, nth_error l j = Some e /\
              IS_WITHIN_RANGE f (vht80_ch_freq e) VHT80_FREQ_OFFSET = true.
Proof.
  induction l as [| e l IH]; intros j Hj; [discriminate |].
  cbn in Hj.
  destruct (IS_WITHIN_RANGE f (vht80_ch_freq e) VHT80_FREQ_OFFSET) eqn:E.
  - injection Hj as <-. exists e. split; [reflexivity | exact E].
  - destruct (first_in_range l f) as [i |] eqn:Hi; [| discriminate].
    injection Hj as <-. cbn. apply IH. reflexivity.
Qed.

Lemma fold_mark_first_nth (g : precac_tree -> Z -> precac_tree) (j : nat) :
  forall (freqs : list Z) (l : precac_list),
    (forall f, In f freqs -> first_in_range l f <> Some j) ->
    nth_error (fold_left (mark_first_in_range g) freqs l) j = nth_error l j.
Proof.
  induction freqs as [| f freqs IH]; intros l H; [reflexivity |].
  cbn [fold_left]. rewrite IH.
  - apply mark_first_in_range_nth, H. left. reflexivity.
  - intros f' Hf'. rewrite first_in_range_mark. apply H. right. exact Hf'.
Qed.

Lemma forest_mark_out_of_range (g : precac_tree -> Z -> precac_tree) :
  forall (l : precac_list) (freqs : list Z) (j : nat) (e : dfs_precac_entry),
    nth_error l j = Some e ->
    (forall f, In f freqs ->
       IS_WITHIN_RANGE f (vht80_ch_freq e) VHT80_FREQ_OFFSET = false) ->
    nth_error (fold_left (mark_first_in_range g) freqs l) j = Some e.
Proof.
  intros l freqs j e He Hout. rewrite fold_mark_first_nth; [exact He |].
  intros f Hf Hj. apply first_in_range_within in Hj.
  destruct Hj as (e' & He' & Hin). rewrite He in He'. injection He' as <-.
  rewrite (Hout f Hf) in Hin. discriminate.
Qed.

(** C10: a forest-level mark-CAC-done or mark-NOL over a list of
    frequencies leaves unchanged every entry that is not, for some listed
    frequency, the first entry in list order whose 80 MHz centre is within
    30 MHz of it. *)
Theorem forest_mark_frame :
  forall (l : precac_list) (freqs : list Z) (j : nat),
    (forall f, In f freqs -> first_in_range l f <> Some j) ->
    nth_error (mark_precac_done_list l freqs) j = nth_error l j /\
    nth_error (dfs_mark_precac_nol_for_freq l freqs) j = nth_error l j /\
    (forall pri sec w,
       precac_done_channels pri sec w = Some freqs ->
       nth_error (dfs_mark_precac_done_for_freq l pri sec w) j
       = nth_error l j).
Proof.
  intros l freqs j H.
  assert (Hd : nth_error (mark_precac_done_list l freqs) j = nth_error l j)
    by (apply fold_mark_first_nth; exact H).
  assert (Hn : nth_error (dfs_mark_precac_nol_for_freq l freqs) j
               = nth_error l j)
    by (apply fold_mark_first_nth; exact H).
  repeat split; try assumption.
  intros pri sec w Hch. unfold dfs_mark_precac_done_for_freq.
  destruct (pri =? 0); [reflexivity |]. rewrite Hch. exact Hd.
Qed.

Lemma forest_mark_frame_witness :
  let l := [ mk_entry 5290 (dfs_create_precac_tree_for_freq 5290);
             mk_entry 5530 (dfs_create_precac_tree_for_freq 5530) ] in
  nth_error (dfs_mark_precac_nol_for_freq l [5260; 5280]) 1 = nth_error l 1.
Proof.
  cbv zeta.
  refine (proj1 (proj2 (forest_mark_frame _ [5260; 5280] 1%nat _))).
  intros f [<- | [<- | []]]; vm_compute; discriminate.
Defined.

(** ** Idempotence of mark-CAC-done *)

Lemma mark_cac_done_loop_marked (f : Z) :
  forall t : precac_tree,
    tree_all node_ok t = true ->
    (exists d, In d (descent_path t f) /\ ch_freq d = f) ->
    dfs_is_tree_node_marked_as_cac_for_freq (mark_cac_done_loop t f) f = true.
Proof.
  induction t as [| d l IHl r IHr]; intros H (x & Hx & Hf).
  - destruct Hx.
  - split_all H. cbn [mark_cac_done_loop].
    match goal with H : node_ok d = true |- _ =>
      apply node_ok_spec in H; destruct H as (Hbw & Hv & Hc & Hn) end.
    pose proof (span_range _ Hbw) as Hs.
    set (d' := if n_caced_subchs d <? N_SUBCHS_FOR_BANDWIDTH (bandwidth d)
               then set_caced d (u8 (n_caced_subchs d + 1)) else d).
    assert (Hd' : ch_freq d' = ch_freq d /\ (n_caced_subchs d' =? 0) = false).
    { subst d'.
      destruct (Z.ltb_spec (n_caced_subchs d)
                  (N_SUBCHS_FOR_BANDWIDTH (bandwidth d))); cbn.
      - rewrite u8_small by lia. split; [reflexivity |].
        apply Z.eqb_neq. lia.
      - split; [reflexivity |]. apply Z.eqb_neq. lia. }
    destruct Hd' as [Hch Hnz].
    assert (Hrec : ch_freq d <> f ->
              exists y, In y (descent_path (if f <? ch_freq d then l else r) f)
                        /\ ch_freq y = f).
    { intros Hne. cbn in Hx. destruct Hx as [<- | Hx]; [contradiction |].
      exists x. split; assumption. }
    destruct (f <? ch_freq d) eqn:Hlt;
      cbn [dfs_is_tree_node_marked_as_cac_for_freq];
      rewrite Hnz, Hch; cbn [negb];
      destruct (Z.eqb_spec (ch_freq d) f) as [E | E]; try reflexivity;
      rewrite Hlt.
    + apply IHl; [assumption | apply Hrec, E].
    + apply IHr; [assumption | apply Hrec, E].
Qed.

Lemma mark_cac_done_marked (t : precac_tree) (f : Z) :
  tree_all node_ok t = true ->
  (exists d, In d (descent_path t f) /\ ch_freq d = f) ->
  dfs_is_tree_node_marked_as_cac_for_freq
    (dfs_mark_tree_node_as_cac_done_for_freq t f) f = true.
Proof.
  intros H Hf. unfold dfs_mark_tree_node_as_cac_done_for_freq.
  destruct t as [| d l r]; [destruct Hf as (x & [] & _) |].
  destruct (dfs_is_tree_node_marked_as_cac_for_freq (Node d l r) f) eqn:E;
    [exact E | apply mark_cac_done_loop_marked; assumption].
Qed.

(** C5: in every state of a band tree (bandwidths 20/40/80, counters
    within their spans) and for every frequency [f] that is the centre of
    a node met by the descent, in particular each 20 MHz sub-channel of
    the tree, a second mark-CAC-done(f) finds the node marked and leaves
    the tree as the first call left it. *)
Theorem mark_cac_done_idempotent :
  forall (t : precac_tree) (f : Z),
    tree_all node_ok t = true ->
    (exists d, In d (descent_path t f) /\ ch_freq d = f) ->
    dfs_is_tree_node_marked_as_cac_for_freq
      (dfs_mark_tree_node_as_cac_done_for_freq t f) f = true /\
    dfs_mark_tree_node_as_cac_done_for_freq
      (dfs_mark_tree_node_as_cac_done_for_freq t f) f
    = dfs_mark_tree_node_as_cac_done_for_freq t f.
Proof.
  intros t f H Hf.
  pose proof (mark_cac_done_marked t f H Hf) as Hm.
  split; [exact Hm |].
  unfold dfs_mark_tree_node_as_cac_done_for_freq at 1.
  destruct (dfs_mark_tree_node_as_cac_done_for_freq t f) as [| d l r] eqn:E;
    [reflexivity |].
  rewrite Hm. reflexivity.
Qed.

Lemma mark_cac_done_idempotent_witness :
  let t := dfs_create_precac_tree_for_freq 5290 in
  dfs_mark_tree_node_as_cac_done_for_freq
    (dfs_mark_tree_node_as_cac_done_for_freq t 5280) 5280
  = dfs_mark_tree_node_as_cac_done_for_freq t 5280.
Proof.
  cbv zeta.
  refine (proj2 (mark_cac_done_idempotent
                   (dfs_create_precac_tree_for_freq 5290) 5280 eq_refl _)).
  exists (mk_node 5280 0 0 1 20). split; [vm_compute; auto | reflexivity].
Defined.

(** ** Shape of a band tree *)

(** Settles the comparisons of the goal that linear arithmetic decides. *)
Ltac settle_cmp :=
  repeat match goal with
  | |- context [?a <? ?b] =>
      first [ replace (a <? b) with true by (symmetry; apply Z.ltb_lt; lia)
            | replace (a <? b) with false by (symmetry; apply Z.ltb_ge; lia) ]
  | |- context [?a =? ?b] =>
      first [ replace (a =? b) with true by (symmetry; apply Z.eqb_eq; lia)
            | replace (a =? b) with false by (symmetry; apply Z.eqb_neq; lia) ]
  | |- context [?a <=? ?b] =>
      first [ replace (a <=? b) with true by (symmetry; apply Z.leb_le; lia)
            | replace (a <=? b) with false by (symmetry; apply Z.leb_gt; lia) ]
  end.

Lemma create_precac_tree_explicit (C : Z) :
  30 <= C <= 65505 ->
  dfs_create_precac_tree_for_freq C =
  band_tree C (0, 0) (0, 0) (0, 0) (0, 0) (0, 0) (0, 0) (0, 0).
Proof.
  intros HC. rewrite create_precac_tree_inserts. cbv zeta.
  rewrite !u16_small by lia.
  unfold band_tree, dfs_init_precac_tree_node_for_freq.
  change (u8 (N_SUBCHS_FOR_BANDWIDTH 80)) with 4.
  change (u8 (N_SUBCHS_FOR_BANDWIDTH 40)) with 2.
  change (u8 (N_SUBCHS_FOR_BANDWIDTH 20)) with 1.
  cbn [dfs_insert_node_into_bstree_for_freq ch_freq
       dfs_init_precac_tree_node_for_freq fst snd].
  repeat (settle_cmp;
          cbn [dfs_insert_node_into_bstree_for_freq ch_freq
               dfs_init_precac_tree_node_for_freq fst snd]).
  unfold dfs_init_precac_tree_node_for_freq.
  change (u8 (N_SUBCHS_FOR_BANDWIDTH 80)) with 4.
  change (u8 (N_SUBCHS_FOR_BANDWIDTH 40)) with 2.
  change (u8 (N_SUBCHS_FOR_BANDWIDTH 20)) with 1.
  replace (C + 0) with C by lia.
  replace (C + -20) with (C - 20) by lia.
  replace (C + -30) with (C - 30) by lia.
  replace (C + -10) with (C - 10) by lia.
  reflexivity.
Qed.

Lemma band_tree_inv (C : Z) (t : precac_tree) :
  is_band_tree C t ->
  exists k80 k40l k40r k1 k2 k3 k4,
    t = band_tree C k80 k40l k40r k1 k2 k3 k4.
Proof.
  intros [HC Hs]. rewrite (create_precac_tree_explicit C HC) in Hs.
  unfold band_tree in Hs. cbn [fst snd] in Hs.
  destruct t as [| d0 [| d1 [| d3 [|] [|]] [| d4 [|] [|]]]
                        [| d2 [| d5 [|] [|]] [| d6 [|] [|]]]];
    cbn in Hs; try discriminate.
  injection Hs as H0 H1 H3 H4 H2 H5 H6.
  exists (n_caced_subchs d0, n_nol_subchs d0),
         (n_caced_subchs d1, n_nol_subchs d1),
         (n_caced_subchs d2, n_nol_subchs d2),
         (n_caced_subchs d3, n_nol_subchs d3),
         (n_caced_subchs d4, n_nol_subchs d4),
         (n_caced_subchs d5, n_nol_subchs d5),
         (n_caced_subchs d6, n_nol_subchs d6).
  unfold band_tree. cbn [fst snd].
  destruct d0, d1, d2, d3, d4, d5, d6. unfold skeleton_node in *.
  cbn in *. congruence.
Qed.

(** ** The mutators keep the shape *)

Lemma skeleton_mark_cac_done_loop (f : Z) :
  forall t, skeleton (mark_cac_done_loop t f) = skeleton t.
Proof.
  induction t as [| d l IHl r IHr]; [reflexivity |].
  cbn [mark_cac_done_loop].
  assert (Hd : skeleton_node
            (if n_caced_subchs d <? N_SUBCHS_FOR_BANDWIDTH (bandwidth d)
             then set_caced d (u8 (n_caced_subchs d + 1)) else d)
          = skeleton_node d)
    by (destruct (n_caced_subchs d <? N_SUBCHS_FOR_BANDWIDTH (bandwidth d));
        reflexivity).
  destruct (f <? ch_freq d); cbn [skeleton]; rewrite Hd; congruence.
Qed.

Lemma skeleton_mark_cac_done (t : precac_tree) (f : Z) :
  skeleton (dfs_mark_tree_node_as_cac_done_for_freq t f) = skeleton t.
Proof.
  unfold dfs_mark_tree_node_as_cac_done_for_freq.
  destruct t as [| d l r]; [reflexivity |].
  destruct (dfs_is_tree_node_marked_as_cac_for_freq (Node d l r) f);
    [reflexivity | apply skeleton_mark_cac_done_loop].
Qed.

Lemma skeleton_unmark_cac_done (f : Z) :
  forall t,
    skeleton (dfs_unmark_tree_node_as_cac_done_for_freq t f) = skeleton t.
Proof.
  induction t as [| d l IHl r IHr]; [reflexivity |].
  cbn [dfs_unmark_tree_node_as_cac_done_for_freq].
  destruct (n_caced_subchs d =? 0); [reflexivity |].
  destruct (f <? ch_freq d); cbn [skeleton]; unfold skeleton_node at 1;
    cbn; fold (skeleton_node d); congruence.
Qed.

Lemma skeleton_unmark_nol (f : Z) :
  forall t, skeleton (dfs_unmark_tree_node_as_nol_for_freq t f) = skeleton t.
Proof.
  induction t as [| d l IHl r IHr]; [reflexivity |].
  cbn [dfs_unmark_tree_node_as_nol_for_freq].
  destruct (n_nol_subchs d =? 0); [reflexivity |].
  destruct (f <? ch_freq d); cbn [skeleton]; unfold skeleton_node at 1;
    cbn; fold (skeleton_node d); congruence.
Qed.

Lemma skeleton_path_update (f : Z) (g : precac_tree_node -> precac_tree_node) :
  (forall d, skeleton_node (g d) = skeleton_node d) ->
  forall t k, skeleton (path_update t f k g) = skeleton t.
Proof.
  intros Hg. induction t as [| d l IHl r IHr]; intros k; [reflexivity |].
  destruct k as [| k]; cbn [path_update skeleton].
  - rewrite Hg. reflexivity.
  - destruct (f <? ch_freq d); cbn [skeleton]; congruence.
Qed.

Lemma skeleton_mark_nol_loop (f : Z) :
  forall curr k root, skeleton (mark_nol_loop curr k root f) = skeleton root.
Proof.
  induction curr as [| c l IHl r IHr]; intros k root; [reflexivity |].
  cbn [mark_nol_loop].
  destruct (nth_error (descent_path root f) k) as [d |]; [| reflexivity].
  destruct (n_nol_subchs d <? N_SUBCHS_FOR_BANDWIDTH (bandwidth d));
    [| reflexivity].
  assert (H1 : skeleton (path_update root f k
                  (fun n => set_nol n (u8 (n_nol_subchs n + 1))))
               = skeleton root)
    by (apply skeleton_path_update; reflexivity).
  destruct (f <? ch_freq c); [rewrite IHl | rewrite IHr];
    destruct ((f =? ch_freq d) && negb (n_caced_subchs d =? 0));
    rewrite ?skeleton_unmark_cac_done; exact H1.
Qed.

Lemma skeleton_apply_mutators (ms : list mutator) :
  forall t, skeleton (apply_mutators t ms) = skeleton t.
Proof.
  unfold apply_mutators.
  induction ms as [| m ms IH]; intros t; [reflexivity |].
  cbn [fold_left]. rewrite IH.
  destruct m as [f | f | f | f]; cbn [apply_mutator].
  - apply skeleton_mark_cac_done.
  - apply skeleton_unmark_cac_done.
  - apply skeleton_mark_nol_loop.
  - apply skeleton_unmark_nol.
Qed.

(** Every state reached from an initialized band tree is a band tree in
    the sense above, with all counters within their spans. *)
Lemma reachable_is_band_tree (C : Z) (ms : list mutator) :
  30 <= C <= 65505 ->
  is_band_tree C (apply_mutators (dfs_create_precac_tree_for_freq C) ms) /\
  tree_all node_ok
    (apply_mutators (dfs_create_precac_tree_for_freq C) ms) = true.
Proof.
  intros HC. split.
  - split; [exact HC |]. rewrite skeleton_apply_mutators.
    rewrite (create_precac_tree_explicit C HC). reflexivity.
  - apply apply_mutators_ok, create_precac_tree_ok.
Qed.

Lemma mark_cac_done_loop_nol (f g : Z) :
  forall t,
    map n_nol_subchs (descent_path (mark_cac_done_loop t f) g)
    = map n_nol_subchs (descent_path t g).
Proof.
  induction t as [| d l IHl r IHr]; [reflexivity |].
  cbn [mark_cac_done_loop].
  set (d' := if n_caced_subchs d <? N_SUBCHS_FOR_BANDWIDTH (bandwidth d)
             then set_caced d (u8 (n_caced_subchs d + 1)) else d).
  assert (Hd : ch_freq d' = ch_freq d /\ n_nol_subchs d' = n_nol_subchs d)
    by (subst d';
        destruct (n_caced_subchs d <? N_SUBCHS_FOR_BANDWIDTH (bandwidth d));
        split; reflexivity).
  destruct Hd as [Hc Hn].
  destruct (f <? ch_freq d); cbn [descent_path map]; rewrite Hc, Hn;
    destruct (g <? ch_freq d); congruence.
Qed.

Lemma mark_cac_done_nol (t : precac_tree) (f g : Z) :
  map n_nol_subchs
    (descent_path (dfs_mark_tree_node_as_cac_done_for_freq t f) g)
  = map n_nol_subchs (descent_path t g).
Proof.
  unfold dfs_mark_tree_node_as_cac_done_for_freq.
  destruct t as [| d l r]; [reflexivity |].
  destruct (dfs_is_tree_node_marked_as_cac_for_freq (Node d l r) f);
    [reflexivity | apply mark_cac_done_loop_nol].
Qed.

(** ** NOL supersedes CAC *)

(** Symbolic evaluation of the tree walks on a written-out band tree. *)
Ltac tree_eval :=
  repeat (cbn [mark_nol_loop descent_path nth_error path_update
               dfs_unmark_tree_node_as_cac_done_for_freq
               dfs_is_tree_node_marked_as_cac_for_freq
               find_cac_status_loop map In
               set_nol set_caced ch_freq n_caced_subchs n_nol_subchs
               n_valid_subchs bandwidth fst snd andb negb];
          change (N_SUBCHS_FOR_BANDWIDTH 80) with 4;
          change (N_SUBCHS_FOR_BANDWIDTH 40) with 2;
          change (N_SUBCHS_FOR_BANDWIDTH 20) with 1;
          settle_cmp).

Ltac mark_nol_leaf :=
  intros; unfold dfs_mark_tree_node_as_nol_for_freq, band_tree;
  tree_eval; rewrite !u8_small by lia; reflexivity.

Lemma band_tree_ok_bounds (C c0 n0 c1 n1 c2 n2 c3 n3 c4 n4 c5 n5 c6 n6 : Z) :
  tree_all node_ok
    (band_tree C (c0, n0) (c1, n1) (c2, n2) (c3, n3) (c4, n4) (c5, n5)
               (c6, n6)) = true ->
  (0 <= c0 <= 4 /\ 0 <= n0 <= 4) /\
  (0 <= c1 <= 2 /\ 0 <= n1 <= 2) /\ (0 <= c2 <= 2 /\ 0 <= n2 <= 2) /\
  (0 <= c3 <= 1 /\ 0 <= n3 <= 1) /\ (0 <= c4 <= 1 /\ 0 <= n4 <= 1) /\
  (0 <= c5 <= 1 /\ 0 <= n5 <= 1) /\ (0 <= c6 <= 1 /\ 0 <= n6 <= 1).
Proof.
  unfold band_tree. cbn [tree_all fst snd].
  rewrite !andb_true_iff, !node_ok_spec. cbn. lia.
Qed.

Lemma mark_nol_leaf1 (C c0 n0 c1 n1 c3 n3 : Z) (k40r k2 k3 k4 : Z * Z) :
  30 <= C <= 65505 ->
  0 < c0 <= 4 -> 0 < c1 <= 2 -> 0 < c3 <= 1 ->
  0 <= n0 < 4 -> 0 <= n1 < 2 -> 0 <= n3 < 1 ->
  dfs_mark_tree_node_as_nol_for_freq
    (band_tree C (c0, n0) (c1, n1) k40r (c3, n3) k2 k3 k4) (C - 30) =
  band_tree C (c0 - 1, n0 + 1) (c1 - 1, n1 + 1) k40r (c3 - 1, n3 + 1)
            k2 k3 k4.
Proof. mark_nol_leaf. Qed.

Lemma mark_nol_leaf2 (C c0 n0 c1 n1 c4 n4 : Z) (k40r k1 k3 k4 : Z * Z) :
  30 <= C <= 65505 ->
  0 < c0 <= 4 -> 0 < c1 <= 2 -> 0 < c4 <= 1 ->
  0 <= n0 < 4 -> 0 <= n1 < 2 -> 0 <= n4 < 1 ->
  dfs_mark_tree_node_as_nol_for_freq
    (band_tree C (c0, n0) (c1, n1) k40r k1 (c4, n4) k3 k4) (C - 10) =
  band_tree C (c0 - 1, n0 + 1) (c1 - 1, n1 + 1) k40r k1 (c4 - 1, n4 + 1)
            k3 k4.
Proof. mark_nol_leaf. Qed.

Lemma mark_nol_leaf3 (C c0 n0 c2 n2 c5 n5 : Z) (k40l k1 k2 k4 : Z * Z) :
  30 <= C <= 65505 ->
  0 < c0 <= 4 -> 0 < c2 <= 2 -> 0 < c5 <= 1 ->
  0 <= n0 < 4 -> 0 <= n2 < 2 -> 0 <= n5 < 1 ->
  dfs_mark_tree_node_as_nol_for_freq
    (band_tree C (c0, n0) k40l (c2, n2) k1 k2 (c5, n5) k4) (C + 10) =
  band_tree C (c0 - 1, n0 + 1) k40l (c2 - 1, n2 + 1) k1 k2 (c5 - 1, n5 + 1)
            k4.
Proof. mark_nol_leaf. Qed.

Lemma mark_nol_leaf4 (C c0 n0 c2 n2 c6 n6 : Z) (k40l k1 k2 k3 : Z * Z) :
  30 <= C <= 65505 ->
  0 < c0 <= 4 -> 0 < c2 <= 2 -> 0 < c6 <= 1 ->
  0 <= n0 < 4 -> 0 <= n2 < 2 -> 0 <= n6 < 1 ->
  dfs_mark_tree_node_as_nol_for_freq
    (band_tree C (c0, n0) k40l (c2, n2) k1 k2 k3 (c6, n6)) (C + 30) =
  band_tree C (c0 - 1, n0 + 1) k40l (c2 - 1, n2 + 1) k1 k2 k3
            (c6 - 1, n6 + 1).
Proof. mark_nol_leaf. Qed.

Lemma band_tree_paths (C : Z) (k80 k40l k40r k1 k2 k3 k4 : Z * Z) :
  30 <= C <= 65505 ->
  let t := band_tree C k80 k40l k40r k1 k2 k3 k4 in
  descent_path t (C - 30)
  = [bt_node C 80 4 k80; bt_node (C - 20) 40 2 k40l; bt_node (C - 30) 20 1 k1]
  /\ descent_path t (C - 10)
  = [bt_node C 80 4 k80; bt_node (C - 20) 40 2 k40l; bt_node (C - 10) 20 1 k2]
  /\ descent_path t (C + 10)
  = [bt_node C 80 4 k80; bt_node (C + 20) 40 2 k40r; bt_node (C + 10) 20 1 k3]
  /\ descent_path t (C + 30)
  = [bt_node C 80 4 k80; bt_node (C + 20) 40 2 k40r; bt_node (C + 30) 20 1 k4].
Proof.
  intros HC t; subst t. unfold band_tree, bt_node.
  repeat split; tree_eval; reflexivity.
Qed.

Lemma band_tree_marked (C : Z) (k80 k40l k40r k1 k2 k3 k4 : Z * Z) :
  30 <= C <= 65505 ->
  let t := band_tree C k80 k40l k40r k1 k2 k3 k4 in
  let nz := fun k : Z * Z => negb (fst k =? 0) in
  dfs_is_tree_node_marked_as_cac_for_freq t (C - 30)
  = nz k80 && nz k40l && nz k1
  /\ dfs_is_tree_node_marked_as_cac_for_freq t (C - 10)
  = nz k80 && nz k40l && nz k2
  /\ dfs_is_tree_node_marked_as_cac_for_freq t (C + 10)
  = nz k80 && nz k40r && nz k3
  /\ dfs_is_tree_node_marked_as_cac_for_freq t (C + 30)
  = nz k80 && nz k40r && nz k4.
Proof.
  intros HC t nz; subst t nz. unfold band_tree. cbv beta.
  repeat split; tree_eval;
    repeat match goal with
    | |- context [fst ?k =? 0] => destruct (fst k =? 0)
    end; reflexivity.
Qed.

Lemma band_tree_status (C : Z) (k80 k40l k40r k1 k2 k3 k4 : Z * Z) :
  30 <= C <= 65505 ->
  let t := band_tree C k80 k40l k40r k1 k2 k3 k4 in
  dfs_find_cac_status_for_chan_for_freq t (C - 30) = (fst k1 =? 1)
  /\ dfs_find_cac_status_for_chan_for_freq t (C - 10) = (fst k2 =? 1)
  /\ dfs_find_cac_status_for_chan_for_freq t (C + 10) = (fst k3 =? 1)
  /\ dfs_find_cac_status_for_chan_for_freq t (C + 30) = (fst k4 =? 1).
Proof.
  intros HC t; subst t.
  unfold band_tree, dfs_find_cac_status_for_chan_for_freq.
  change N_SUBCHANS_FOR_80BW with 4.
  repeat split; tree_eval; reflexivity.
Qed.

(** From the facts on one leaf's descent path: the counters after
    mark-CAC-done are non-zero, and the NOL counters are those before. *)
Ltac leaf_facts Hm Hn1 Hnol :=
  rewrite !andb_true_iff, !negb_true_iff, !Z.eqb_neq in Hm;
  cbn [fst] in Hm; destruct Hm as [[? ?] ?];
  unfold bt_node in Hn1; cbn [map n_nol_subchs snd] in Hn1;
  injection Hn1 as -> -> ->;
  pose proof (Hnol _ (or_introl eq_refl));
  pose proof (Hnol _ (or_intror (or_introl eq_refl)));
  pose proof (Hnol _ (or_intror (or_intror (or_introl eq_refl))));
  unfold bt_node in *; cbn [n_nol_subchs bandwidth snd] in *;
  change (N_SUBCHS_FOR_BANDWIDTH 80) with 4 in *;
  change (N_SUBCHS_FOR_BANDWIDTH 40) with 2 in *;
  change (N_SUBCHS_FOR_BANDWIDTH 20) with 1 in *.

(** C3 (as stated, refuted): on the band tree of 5290 with the leaf 5260
    already in NOL, mark-CAC-done(5260) followed by mark-NOL(5260) leaves
    the CAC-done query on 5260 true and the NOL count of the leaf at 1:
    the descent returns at the saturated leaf before the unmark. *)
Lemma nol_on_nol_leaf_keeps_cac :
  let t := apply_mutators (dfs_create_precac_tree_for_freq 5290)
             [MarkNol 5260] in
  let t' := dfs_mark_tree_node_as_nol_for_freq
              (dfs_mark_tree_node_as_cac_done_for_freq t 5260) 5260 in
  In 5260 (map ch_freq (tree_nodes t)) /\
  dfs_find_cac_status_for_chan_for_freq t' 5260 = true /\
  map n_nol_subchs (descent_path t 5260) = [1; 1; 1] /\
  map n_nol_subchs (descent_path t' 5260) = [2; 2; 1].
Proof. vm_compute. repeat split. auto 10. Qed.

(** C3 (amended): in every state of a band tree with counters within
    their spans, for every 20 MHz sub-channel [f] of it such that no node
    on the descent path to [f] has a saturated NOL counter (n_nol below
    bandwidth / 20), mark-CAC-done(f) followed by mark-NOL(f) leaves the
    CAC-done query on [f] false and the NOL counter of every node on the
    descent path one above its value before the two calls. *)
Theorem nol_supersedes_cac :
  forall (C : Z) (t : precac_tree) (f : Z),
    is_band_tree C t ->
    tree_all node_ok t = true ->
    In f [C - 30; C - 10; C + 10; C + 30] ->
    (forall d, In d (descent_path t f) ->
       n_nol_subchs d < N_SUBCHS_FOR_BANDWIDTH (bandwidth d)) ->
    let t' := dfs_mark_tree_node_as_nol_for_freq
                (dfs_mark_tree_node_as_cac_done_for_freq t f) f in
    dfs_find_cac_status_for_chan_for_freq t' f = false /\
    map n_nol_subchs (descent_path t' f)
    = map (fun d => n_nol_subchs d + 1) (descent_path t f).
Proof.
  intros C t f Hbt Hok Hf Hnol t'. subst t'.
  pose proof Hbt as [HC _].
  assert (Hbt1 : is_band_tree C (dfs_mark_tree_node_as_cac_done_for_freq t f))
    by (destruct Hbt as [? Hs]; split;
        [assumption | rewrite skeleton_mark_cac_done; exact Hs]).
  pose proof (mark_cac_done_ok t f Hok) as Hok1.
  pose proof (mark_cac_done_nol t f f) as Hn1.
  destruct (band_tree_inv C t Hbt)
    as ([c0 n0] & [c1 n1] & [c2 n2] & [c3 n3] & [c4 n4] & [c5 n5] & [c6 n6]
        & Et).
  assert (Hm : dfs_is_tree_node_marked_as_cac_for_freq
                 (dfs_mark_tree_node_as_cac_done_for_freq t f) f = true).
  { apply mark_cac_done_marked; [exact Hok |]. rewrite Et.
    unfold band_tree.
    destruct Hf as [<- | [<- | [<- | [<- | []]]]]; tree_eval;
      eexists; (split; [do 2 right; left; reflexivity | reflexivity]). }
  destruct (band_tree_inv C _ Hbt1)
    as ([a0 m0] & [a1 m1] & [a2 m2] & [a3 m3] & [a4 m4] & [a5 m5] & [a6 m6]
        & Et1).
  rewrite Et1 in *. rewrite Et in Hn1, Hnol |- *. clear Et Et1 Hbt Hbt1.
  apply band_tree_ok_bounds in Hok1.
  pose proof (band_tree_paths C (c0, n0) (c1, n1) (c2, n2) (c3, n3) (c4, n4)
                (c5, n5) (c6, n6) HC) as (P1 & P2 & P3 & P4).
  pose proof (band_tree_paths C (a0, m0) (a1, m1) (a2, m2) (a3, m3) (a4, m4)
                (a5, m5) (a6, m6) HC) as (Q1 & Q2 & Q3 & Q4).
  pose proof (band_tree_marked C (a0, m0) (a1, m1) (a2, m2) (a3, m3) (a4, m4)
                (a5, m5) (a6, m6) HC) as (M1 & M2 & M3 & M4).
  cbv zeta in *.
  destruct Hf as [<- | [<- | [<- | [<- | []]]]].
  - rewrite P1 in Hn1, Hnol |- *. rewrite Q1 in Hn1. rewrite M1 in Hm.
    leaf_facts Hm Hn1 Hnol.
    rewrite mark_nol_leaf1 by lia.
    rewrite (proj1 (band_tree_status C _ _ _ _ _ _ _ HC)).
    rewrite (proj1 (band_tree_paths C _ _ _ _ _ _ _ HC)).
    split; [apply Z.eqb_neq; cbn [fst]; lia | reflexivity].
  - rewrite P2 in Hn1, Hnol |- *. rewrite Q2 in Hn1. rewrite M2 in Hm.
    leaf_facts Hm Hn1 Hnol.
    rewrite mark_nol_leaf2 by lia.
    rewrite (proj1 (proj2 (band_tree_status C _ _ _ _ _ _ _ HC))).
    rewrite (proj1 (proj2 (band_tree_paths C _ _ _ _ _ _ _ HC))).
    split; [apply Z.eqb_neq; cbn [fst]; lia | reflexivity].
  - rewrite P3 in Hn1, Hnol |- *. rewrite Q3 in Hn1. rewrite M3 in Hm.
    leaf_facts Hm Hn1 Hnol.
    rewrite mark_nol_leaf3 by lia.
    rewrite (proj1 (proj2 (proj2 (band_tree_status C _ _ _ _ _ _ _ HC)))).
    rewrite (proj1 (proj2 (proj2 (band_tree_paths C _ _ _ _ _ _ _ HC)))).
    split; [apply Z.eqb_neq; cbn [fst]; lia | reflexivity].
  - rewrite P4 in Hn1, Hnol |- *. rewrite Q4 in Hn1. rewrite M4 in Hm.
    leaf_facts Hm Hn1 Hnol.
    rewrite mark_nol_leaf4 by lia.
    rewrite (proj2 (proj2 (proj2 (band_tree_status C _ _ _ _ _ _ _ HC)))).
    rewrite (proj2 (proj2 (proj2 (band_tree_paths C _ _ _ _ _ _ _ HC)))).
    split; [apply Z.eqb_neq; cbn [fst]; lia | reflexivity].
Qed.

Lemma nol_supersedes_cac_witness :
  let t := dfs_create_precac_tree_for_freq 5290 in
  let t' := dfs_mark_tree_node_as_nol_for_freq
              (dfs_mark_tree_node_as_cac_done_for_freq t 5260) 5260 in
  dfs_find_cac_status_for_chan_for_freq t' 5260 = false /\
  map n_nol_subchs (descent_path t' 5260) = [1; 1; 1].
Proof.
  cbv zeta.
  assert (Hbt : is_band_tree 5290 (dfs_create_precac_tree_for_freq 5290))
    by (split; [lia | reflexivity]).
  assert (Hf : In 5260 [5290 - 30; 5290 - 10; 5290 + 10; 5290 + 30])
    by (left; reflexivity).
  assert (Hn : forall d,
             In d (descent_path (dfs_create_precac_tree_for_freq 5290) 5260) ->
             n_nol_subchs d < N_SUBCHS_FOR_BANDWIDTH (bandwidth d))
    by (intros d [<- | [<- | [<- | []]]]; reflexivity).
  exact (nol_supersedes_cac 5290 _ 5260 Hbt eq_refl Hf Hn).
Defined.

(** ** The CAC-done query *)

Lemma bst_in_path_bounds (f : Z) :
  forall t lo hi d,
    bst_in lo hi t = true -> In d (descent_path t f) -> lo < ch_freq d < hi.
Proof.
  induction t as [| x l IHl r IHr]; intros lo hi d H Hd; [destruct Hd |].
  cbn [bst_in] in H. rewrite !andb_true_iff, !Z.ltb_lt in H.
  destruct H as [[[Hlo Hhi] Hl] Hr].
  cbn [descent_path] in Hd. destruct Hd as [<- | Hd]; [lia |].
  destruct (f <? ch_freq x).
  - specialize (IHl _ _ _ Hl Hd). lia.
  - specialize (IHr _ _ _ Hr Hd). lia.
Qed.

Lemma find_cac_status_loop_spec (f : Z) :
  forall t lo hi n,
    bst_in lo hi t = true ->
    levels_ok t n = true ->
    find_cac_status_loop t f n = true <->
    exists d, In d (descent_path t f) /\ ch_freq d = f /\
              n_caced_subchs d = N_SUBCHS_FOR_BANDWIDTH (bandwidth d).
Proof.
  induction t as [| x l IHl r IHr]; intros lo hi n Hb Hl.
  - cbn. split; [discriminate | intros (d & [] & _)].
  - cbn [bst_in] in Hb. rewrite !andb_true_iff, !Z.ltb_lt in Hb.
    destruct Hb as [[[Hlo Hhi] Hbl] Hbr].
    cbn [levels_ok] in Hl. rewrite !andb_true_iff, Z.eqb_eq in Hl.
    destruct Hl as [[Hn Hll] Hlr].
    cbn [find_cac_status_loop descent_path].
    destruct (Z.eqb_spec (ch_freq x) f) as [E | E].
    + rewrite Z.eqb_eq. split.
      * intros Hc. exists x. repeat split; [left; reflexivity | exact E | lia].
      * intros (d & [<- | Hd] & Hf & Hc); [lia |].
        exfalso. destruct (Z.ltb_spec f (ch_freq x)); [lia |].
        pose proof (bst_in_path_bounds f _ _ _ _ Hbr Hd). lia.
    + assert (Hrec : find_cac_status_loop (if f <? ch_freq x then l else r)
                       f (n / 2) = true <->
                     exists d,
                       In d (descent_path (if f <? ch_freq x then l else r) f)
                       /\ ch_freq d = f /\
                       n_caced_subchs d
                       = N_SUBCHS_FOR_BANDWIDTH (bandwidth d))
        by (destruct (f <? ch_freq x); eauto).
      rewrite Hrec. split.
      * intros (d & Hd & Hf & Hc). exists d. repeat split; auto. right; auto.
      * intros (d & [<- | Hd] & Hf & Hc); [contradiction |].
        exists d. repeat split; auto.
Qed.

Lemma band_tree_search_order (C : Z) (t : precac_tree) :
  is_band_tree C t ->
  bst_in (C - 40) (C + 40) t = true /\ levels_ok t N_SUBCHANS_FOR_80BW = true.
Proof.
  intros Hbt. pose proof Hbt as [HC _].
  destruct (band_tree_inv C t Hbt) as (k80 & k40l & k40r & k1 & k2 & k3 & k4 & ->).
  unfold band_tree. split.
  - cbn [bst_in ch_freq]. settle_cmp. reflexivity.
  - reflexivity.
Qed.

Lemma band_tree_status_spec (C : Z) (t : precac_tree) (f : Z) :
  is_band_tree C t ->
  dfs_find_cac_status_for_chan_for_freq t f = true <->
  exists d, In d (descent_path t f) /\ ch_freq d = f /\
            n_caced_subchs d = bandwidth d / 20.
Proof.
  intros Hbt. destruct (band_tree_search_order C t Hbt) as [Hb Hl].
  exact (find_cac_status_loop_spec f t _ _ _ Hb Hl).
Qed.

Lemma within_range_spec (A B C : Z) :
  IS_WITHIN_RANGE A B C = true <-> B - C <= A <= B + C.
Proof.
  unfold IS_WITHIN_RANGE. rewrite andb_true_iff, !Z.leb_le. tauto.
Qed.

(** C6: on a forest of band trees over centres at least 80 MHz apart, the
    CAC-done query on [f] is true exactly when some band tree whose
    80 MHz centre is within 30 MHz of [f] has, on the descent path for
    [f], a node with centre [f] whose CAC-done count is its bandwidth / 20;
    it is false when no tree is in range or no such node is met. *)
Theorem precac_done_query_spec :
  forall (l : precac_list) (f : Z),
    forest_wf l ->
    dfs_is_precac_done_on_ht20_40_80_chan_for_freq l f = true <->
    exists e d,
      In e l /\
      IS_WITHIN_RANGE f (vht80_ch_freq e) VHT80_FREQ_OFFSET = true /\
      In d (descent_path (tree_root e) f) /\ ch_freq d = f /\
      n_caced_subchs d = bandwidth d / 20.
Proof.
  induction l as [| e l IH]; intros f Hwf.
  - cbn. split; [discriminate | intros (e & d & [] & _)].
  - destruct Hwf as (Hbt & Hfar & Hwf).
    cbn [dfs_is_precac_done_on_ht20_40_80_chan_for_freq].
    destruct (IS_WITHIN_RANGE f (vht80_ch_freq e) VHT80_FREQ_OFFSET) eqn:Hin.
    + rewrite (band_tree_status_spec _ _ f Hbt). split.
      * intros (d & Hd). exists e, d. split; [left; reflexivity | tauto].
      * intros (e' & d & [<- | He'] & Hin' & Hd); [exists d; exact Hd |].
        exfalso. specialize (Hfar e' He').
        apply within_range_spec in Hin, Hin'.
        unfold VHT80_FREQ_OFFSET in *. lia.
    + rewrite (IH f Hwf). split.
      * intros (e' & d & He' & H). exists e', d. split; [right; exact He' | exact H].
      * intros (e' & d & [<- | He'] & Hin' & H); [congruence |].
        exists e', d. tauto.
Qed.

Lemma precac_done_query_spec_witness :
  let l := dfs_mark_precac_done_for_freq
             [ mk_entry 5290 (dfs_create_precac_tree_for_freq 5290);
               mk_entry 5530 (dfs_create_precac_tree_for_freq 5530) ]
             5290 0 CH_WIDTH_80MHZ in
  exists e d,
    In e l /\
    IS_WITHIN_RANGE 5270 (vht80_ch_freq e) VHT80_FREQ_OFFSET = true /\
    In d (descent_path (tree_root e) 5270) /\ ch_freq d = 5270 /\
    n_caced_subchs d = bandwidth d / 20.
Proof.
  cbv zeta.
  set (l := dfs_mark_precac_done_for_freq
              [ mk_entry 5290 (dfs_create_precac_tree_for_freq 5290);
                mk_entry 5530 (dfs_create_precac_tree_for_freq 5530) ]
              5290 0 CH_WIDTH_80MHZ).
  assert (Hwf : forest_wf l).
  { subst l. vm_compute. repeat split; try discriminate.
    - intros e' [<- | []]. discriminate.
    - intros e' []. }
  exact (proj1 (precac_done_query_spec l 5270 Hwf) eq_refl).
Defined.

(** ** Selection *)

Lemma get_ieeechan_from_some_tree (curchan : dfs_channel) (ep es bw : Z) :
  forall l c,
    dfs_get_ieeechan_for_precac_for_freq curchan l ep es bw = c ->
    c <> 0 ->
    exists e, In e l /\
      dfs_find_ieee_ch_from_precac_tree_for_freq curchan (tree_root e) bw = c.
Proof.
  induction l as [| e l IH]; intros c Hc Hnz;
    cbn [dfs_get_ieeechan_for_precac_for_freq] in Hc; [congruence |].
  destruct (Z.eqb_spec
              (dfs_find_ieee_ch_from_precac_tree_for_freq curchan
                 (tree_root e) bw) 0) as [E | E]; cbn [negb] in Hc.
  - destruct (IH c Hc Hnz) as (e' & He' & Hf).
    exists e'. split; [right; exact He' | exact Hf].
  - exists e. split; [left; reflexivity | exact Hc].
Qed.

Lemma find_ieee_ch_loop_node (curchan : dfs_channel) (bw : Z) :
  forall t c,
    find_ieee_ch_loop curchan t bw = c ->
    c <> 0 ->
    exists d a b,
      In d (tree_nodes t) /\ ch_freq d = c /\ bandwidth d = bw /\
      dfs_is_cac_needed_for_bst_node_for_freq curchan (Node d a b) bw = true.
Proof.
  induction t as [| d l IHl r IHr]; intros c Hc Hnz;
    cbn [find_ieee_ch_loop] in Hc; [congruence |].
  destruct (Z.eqb_spec (bandwidth d) bw) as [E | E].
  - destruct (dfs_is_cac_needed_for_bst_node_for_freq curchan (Node d l r) bw)
      eqn:Hn; [| congruence].
    exists d, l, r. repeat split; [left; reflexivity | exact Hc | exact E | exact Hn].
  - destruct (negb (dfs_is_cac_needed_for_bst_node_for_freq curchan l bw)).
    + destruct (IHr c Hc Hnz) as (x & a & b & Hx & H).
      exists x, a, b. split; [| exact H].
      right. apply in_or_app. right. exact Hx.
    + destruct (IHl c Hc Hnz) as (x & a & b & Hx & H).
      exists x, a, b. split; [| exact H].
      right. apply in_or_app. left. exact Hx.
Qed.

Lemma requested_bw_cases (curchan : dfs_channel) :
  requested_bw_of curchan <> 0 ->
  requested_bw_of curchan = cur_chwidth_val curchan /\
  (requested_bw_of curchan = 20 \/ requested_bw_of curchan = 40 \/
   requested_bw_of curchan = 80).
Proof.
  unfold requested_bw_of, cur_chwidth_val, WLAN_IS_CHAN_MODE_20,
    WLAN_IS_CHAN_MODE_40.
  destruct (dfs_ch_mode curchan); cbn; intros H; try (split; [reflexivity |]);
    try tauto; congruence.
Qed.

Lemma needed_node_not_serving (curchan : dfs_channel)
  (d : precac_tree_node) (a b : precac_tree) :
  let p := dfs_ch_mhz_freq_seg1 curchan in
  let s := exclude_sec_ch_freq_of curchan in
  let w := requested_bw_of curchan in
  node_ok d = true ->
  w <> 0 ->
  bandwidth d = w ->
  w / 2 < Z.abs (s - p) ->
  dfs_is_cac_needed_for_bst_node_for_freq curchan (Node d a b) w = true ->
  ch_freq d <> p /\ ch_freq d <> s.
Proof.
  intros p s w Hok Hw Hbw Hfar Hneed.
  destruct (requested_bw_cases curchan Hw) as [Hchw Hcases].
  fold w in Hchw, Hcases.
  apply node_ok_spec in Hok. destruct Hok as (_ & Hv & Hc & Hn).
  rewrite Hbw in Hv.
  assert (HN : 1 <= N_SUBCHS_FOR_BANDWIDTH w <= 4 /\ 10 <= w / 2 <= 40)
    by (destruct Hcases as [E | [E | E]]; rewrite E; cbv; repeat split;
        discriminate).
  destruct HN as [HN Hhalf].
  unfold dfs_is_cac_needed_for_bst_node_for_freq,
    dfs_get_num_cur_subchans_in_node_freq in Hneed.
  fold p s in Hneed. rewrite <- Hchw, Hbw in Hneed.
  cbn [dfs_is_pcac_required_for_freq] in Hneed. rewrite Hbw, Hv in Hneed.
  assert (Hself : forall x, IS_WITHIN_RANGE x x (w / 2) = true)
    by (intros x; apply within_range_spec; lia).
  assert (Hother : forall x y, w / 2 < Z.abs (x - y) ->
                     IS_WITHIN_RANGE x y (w / 2) = false).
  { intros x y Hxy. destruct (IS_WITHIN_RANGE x y (w / 2)) eqn:E;
      [| reflexivity]. apply within_range_spec in E. lia. }
  (* what the two tests of the source decide once the exclusion count is
     known to be the span or zero *)
  assert (Hfin : forall x,
            x = (if (if (n_caced_subchs d =? N_SUBCHS_FOR_BANDWIDTH w)
                        || negb (n_nol_subchs d =? 0)
                     then false else true)
                 then u8 (0 + N_SUBCHS_FOR_BANDWIDTH w) else 0) ->
            (if (u8 (N_SUBCHS_FOR_BANDWIDTH w - (n_nol_subchs d + x))
                 <? u8 (N_SUBCHS_FOR_BANDWIDTH w))
                || (n_caced_subchs d + n_nol_subchs d + x
                    =? N_SUBCHS_FOR_BANDWIDTH w)
             then false else true) = true -> False).
  { intros x Hx Hcond.
    destruct ((u8 (N_SUBCHS_FOR_BANDWIDTH w - (n_nol_subchs d + x))
               <? u8 (N_SUBCHS_FOR_BANDWIDTH w))
              || (n_caced_subchs d + n_nol_subchs d + x
                  =? N_SUBCHS_FOR_BANDWIDTH w)) eqn:Hor; [discriminate |].
    apply orb_false_iff in Hor. destruct Hor as [H1 H2].
    apply Z.ltb_ge in H1. apply Z.eqb_neq in H2.
    rewrite (u8_small (N_SUBCHS_FOR_BANDWIDTH w)) in H1 by lia.
    destruct (Z.eqb_spec (n_caced_subchs d) (N_SUBCHS_FOR_BANDWIDTH w));
      destruct (Z.eqb_spec (n_nol_subchs d) 0); cbn [orb negb] in Hx;
      try rewrite (u8_small (0 + N_SUBCHS_FOR_BANDWIDTH w)) in Hx by lia;
      subst x; rewrite u8_small in H1 by lia; lia. }
  split; intros E.
  - rewrite E in Hneed. rewrite (Hself p) in Hneed.
    rewrite (Hother s p Hfar) in Hneed. rewrite Z.eqb_refl in Hneed.
    cbn [andb] in Hneed. eapply Hfin; [reflexivity | exact Hneed].
  - rewrite E in Hneed. rewrite (Hself s) in Hneed.
    rewrite (Hother p s) in Hneed by lia. rewrite Z.eqb_refl in Hneed.
    cbn [andb] in Hneed.
    replace (0 + N_SUBCHS_FOR_BANDWIDTH w)
      with (N_SUBCHS_FOR_BANDWIDTH w) in Hneed by lia.
    eapply Hfin; [| exact Hneed].
    replace (0 + N_SUBCHS_FOR_BANDWIDTH w)
      with (N_SUBCHS_FOR_BANDWIDTH w) by lia.
    reflexivity.
Qed.

Lemma raster_spans_disjoint (c p w : Z) :
  w = 20 \/ w = 40 \/ w = 80 ->
  c <> p -> (c - p) mod w = 0 -> ~ spans_overlap c w p w.
Proof.
  unfold spans_overlap. intros Hw Hne Hmod [H1 H2].
  destruct Hw as [-> | [-> | ->]];
    change (20 / 2) with 10 in *; change (40 / 2) with 20 in *;
    change (80 / 2) with 40 in *;
    apply Z.mod_divide in Hmod; try lia;
    destruct Hmod as [q Hq]; lia.
Qed.

(** C4 (as stated, refuted): serving the 20 MHz channel 5260 whose CAC is
    already recorded in the band tree of 5290, a request for 40 MHz
    returns 5270, whose span 5250-5290 contains the serving sub-channel
    5250-5270. *)
Lemma select_wider_than_serving_overlaps :
  let l := dfs_mark_precac_done_for_freq
             [ mk_entry 5290 (dfs_create_precac_tree_for_freq 5290);
               mk_entry 5530 (dfs_create_precac_tree_for_freq 5530) ]
             5260 0 CH_WIDTH_20MHZ in
  let curchan := mk_chan 5260 MODE_20 true 5260 0 in
  dfs_get_ieeechan_for_precac_for_freq curchan l 5260 0 40 = 5270 /\
  spans_overlap 5270 40 5260 20.
Proof. vm_compute. repeat split. Qed.

(** C4 (amended): for every forest state with counters within their
    spans and every operating channel whose secondary exclusion centre
    lies more than half the requested bandwidth away from the primary
    one, when the requested bandwidth is the one the operating width maps
    to (20 -> 20, 40 -> 40, 80 / 80+80 / 160 -> 80), a candidate returned
    by the selection is never the serving primary centre nor the secondary
    exclusion centre; and its span is disjoint from each operating segment
    whose centre lies on the candidate's raster of step [w]. *)
Theorem select_avoids_serving :
  forall (curchan : dfs_channel) (l : precac_list) (ep es c : Z),
    let p := dfs_ch_mhz_freq_seg1 curchan in
    let s := exclude_sec_ch_freq_of curchan in
    let w := requested_bw_of curchan in
    (forall e d, In e l -> In d (tree_nodes (tree_root e)) ->
                 node_ok d = true) ->
    w <> 0 ->
    w / 2 < Z.abs (s - p) ->
    dfs_get_ieeechan_for_precac_for_freq curchan l ep es w = c ->
    c <> 0 ->
    c <> p /\ c <> s /\
    ((c - p) mod w = 0 -> ~ spans_overlap c w p w) /\
    ((c - s) mod w = 0 -> ~ spans_overlap c w s w).
Proof.
  intros curchan l ep es c p s w Hok Hw Hfar Hc Hnz.
  destruct (get_ieeechan_from_some_tree curchan ep es w l c Hc Hnz)
    as (e & He & Hfind).
  unfold dfs_find_ieee_ch_from_precac_tree_for_freq in Hfind.
  destruct (negb (dfs_is_cac_needed_for_bst_node_for_freq curchan
                    (tree_root e) w)); [congruence |].
  destruct (find_ieee_ch_loop_node curchan w _ c Hfind Hnz)
    as (d & a & b & Hd & Hch & Hbw & Hneed).
  destruct (needed_node_not_serving curchan d a b (Hok e d He Hd) Hw Hbw
              Hfar Hneed) as [Hp Hs].
  fold p in Hp. fold s in Hs. rewrite Hch in Hp, Hs.
  destruct (requested_bw_cases curchan Hw) as [_ Hcases]. fold w in Hcases.
  repeat split; try assumption.
  - intros Hm. apply raster_spans_disjoint; assumption.
  - intros Hm. apply raster_spans_disjoint; assumption.
Qed.

Lemma select_avoids_serving_witness :
  let l := [ mk_entry 5290 (dfs_create_precac_tree_for_freq 5290);
             mk_entry 5530 (dfs_create_precac_tree_for_freq 5530) ] in
  let curchan := mk_chan 5260 MODE_80 true 5290 0 in
  dfs_get_ieeechan_for_precac_for_freq curchan l 5290 0 80 = 5530 /\
  5530 <> 5290 /\ ~ spans_overlap 5530 80 5290 80.
Proof.
  cbv zeta.
  set (l := [ mk_entry 5290 (dfs_create_precac_tree_for_freq 5290);
              mk_entry 5530 (dfs_create_precac_tree_for_freq 5530) ]).
  set (curchan := mk_chan 5260 MODE_80 true 5290 0).
  assert (Hok : forall e d, In e l -> In d (tree_nodes (tree_root e)) ->
                            node_ok d = true).
  { intros e d [<- | [<- | []]] Hd;
      apply (proj1 (tree_all_forall node_ok _) (create_precac_tree_ok _) d Hd). }
  assert (Hw : requested_bw_of curchan <> 0) by discriminate.
  assert (Hfar : requested_bw_of curchan / 2
                 < Z.abs (exclude_sec_ch_freq_of curchan
                          - dfs_ch_mhz_freq_seg1 curchan)) by reflexivity.
  assert (Hnz : 5530 <> 0) by discriminate.
  destruct (select_avoids_serving curchan l 5290 0 5530 Hok Hw Hfar eq_refl
              Hnz) as (Hp & _ & Hspan & _).
  repeat split; [exact Hp | apply Hspan; reflexivity].
Defined.

(** ** Reachable forests *)

Lemma band_tree_leaf_met (C : Z) (t : precac_tree) (f : Z) :
  is_band_tree C t ->
  In f [C - 30; C - 10; C + 10; C + 30] ->
  exists d, In d (descent_path t f) /\ ch_freq d = f.
Proof.
  intros Hbt Hf. pose proof Hbt as [HC _].
  destruct (band_tree_inv C t Hbt)
    as (k80 & k40l & k40r & k1 & k2 & k3 & k4 & ->).
  destruct (band_tree_paths C k80 k40l k40r k1 k2 k3 k4 HC)
    as (P1 & P2 & P3 & P4).
  destruct Hf as [<- | [<- | [<- | [<- | []]]]];
    [rewrite P1 | rewrite P2 | rewrite P3 | rewrite P4];
    eexists; (split; [do 2 right; left; reflexivity | reflexivity]).
Qed.

Lemma forest_wf_mark_first (g : precac_tree -> Z -> precac_tree) (f : Z) :
  (forall t, skeleton (g t f) = skeleton t) ->
  forall l, forest_wf l -> forest_wf (mark_first_in_range g l f).
Proof.
  intros Hg. induction l as [| e l IH]; [trivial |].
  intros (Hbt & Hfar & Hwf). cbn [mark_first_in_range].
  destruct (IS_WITHIN_RANGE f (vht80_ch_freq e) VHT80_FREQ_OFFSET).
  - cbn [forest_wf vht80_ch_freq tree_root].
    split; [| split; assumption].
    destruct Hbt as [HC Hs]. split; [exact HC |]. rewrite Hg. exact Hs.
  - cbn [forest_wf]. split; [exact Hbt |]. split; [| apply IH; exact Hwf].
    intros e' He'.
    assert (Hc : In (vht80_ch_freq e') (map vht80_ch_freq l)).
    { clear -He'. revert He'. induction l as [| x l IHl]; [intros [] |].
      cbn [mark_first_in_range].
      destruct (IS_WITHIN_RANGE f (vht80_ch_freq x) VHT80_FREQ_OFFSET).
      - intros [<- | H]; [left; reflexivity | right; apply in_map; exact H].
      - intros [<- | H]; [left; reflexivity | right; apply IHl; exact H]. }
    apply in_map_iff in Hc. destruct Hc as (e'' & <- & He'').
    apply Hfar. exact He''.
Qed.

(** The forest mutators keep a well-formed forest well-formed. *)
Lemma forest_wf_mutators (l : precac_list) (freqs : list Z) :
  forest_wf l ->
  forest_wf (mark_precac_done_list l freqs) /\
  forest_wf (dfs_mark_precac_nol_for_freq l freqs).
Proof.
  unfold mark_precac_done_list, dfs_mark_precac_nol_for_freq.
  revert l. induction freqs as [| f freqs IH]; intros l Hwf; [tauto |].
  cbn [fold_left]. split; apply IH; apply forest_wf_mark_first; try exact Hwf.
  - intros t. apply skeleton_mark_cac_done.
  - intros t. apply skeleton_mark_nol_loop.
Qed.

(** ** Deciding well-formedness of a forest *)

Lemma node_eqb_eq (a b : precac_tree_node) : node_eqb a b = true -> a = b.
Proof.
  unfold node_eqb. rewrite !andb_true_iff, !Z.eqb_eq.
  destruct a, b. cbn. intros [[[[-> ->] ->] ->] ->]. reflexivity.
Qed.

Lemma tree_eqb_eq : forall a b, tree_eqb a b = true -> a = b.
Proof.
  induction a as [| x l IHl r IHr]; intros [| y l' r'] H; cbn in H;
    try discriminate; [reflexivity |].
  rewrite !andb_true_iff in H. destruct H as [[Hx Hl] Hr].
  rewrite (node_eqb_eq _ _ Hx), (IHl _ Hl), (IHr _ Hr). reflexivity.
Qed.

Lemma forest_wf_b_sound : forall l, forest_wf_b l = true -> forest_wf l.
Proof.
  induction l as [| e l IH]; intros H; [exact I |].
  cbn [forest_wf_b] in H. rewrite !andb_true_iff, !Z.leb_le in H.
  destruct H as [[[[Hlo Hhi] Ht] Hfar] Hrest].
  cbn [forest_wf]. split; [| split].
  - split; [lia | apply tree_eqb_eq; exact Ht].
  - intros e' He'. rewrite forallb_forall in Hfar.
    apply Z.leb_le. apply Hfar. exact He'.
  - apply IH. exact Hrest.
Qed.

(** ** Destruction *)

Lemma set_left_at_graft (s : precac_tree) :
  forall t : precac_tree,
    t <> Null ->
    let g := set_left_at t (pred (left_spine_len t)) s in
    Permutation (tree_nodes g) (tree_nodes t ++ tree_nodes s)
    /\ left_spine_len g = (left_spine_len t + left_spine_len s)%nat
    /\ dfs_find_leftmost_leaf_of_precac_tree
         (left_descend g (pred (left_spine_len t)))
       = Some (left_spine_len s)
    /\ g <> Null.
Proof.
  induction t as [| d l IHl r _]; intros Hne; [congruence |].
  destruct l as [| dl ll lr].
  - cbn. split; [| split; [| split]]; try reflexivity; try discriminate.
    apply Permutation_cons; [reflexivity |].
    rewrite Permutation_app_comm. reflexivity.
  - remember (Node dl ll lr) as l0 eqn:El.
    assert (Hl : l0 <> Null) by (rewrite El; discriminate).
    specialize (IHl Hl). cbv zeta in IHl.
    destruct IHl as (Hp & Hs & Hf & Hn).
    replace (pred (left_spine_len (Node d l0 r)))
      with (S (pred (left_spine_len l0))) by (rewrite El; reflexivity).
    cbv zeta. cbn [set_left_at left_descend].
    split; [| split; [| split]]; try discriminate.
    + cbn [tree_nodes]. rewrite <- app_comm_cons.
      apply Permutation_cons; [reflexivity |].
      rewrite <- app_assoc.
      rewrite (Permutation_app_comm (tree_nodes r) (tree_nodes s)).
      rewrite app_assoc. apply Permutation_app_tail. exact Hp.
    + cbn [left_spine_len]. rewrite Hs. reflexivity.
    + exact Hf.
Qed.

Lemma free_precac_tree_loop_spec :
  forall (fuel : nat) (root : precac_tree) (freed : list precac_tree_node),
    (length (tree_nodes root) <= fuel)%nat ->
    exists order,
      free_precac_tree_loop fuel root (pred (left_spine_len root)) freed
      = mk_free Null (freed ++ order) false
      /\ Permutation order (tree_nodes root).
Proof.
  induction fuel as [| fuel IH]; intros root freed Hlen.
  - destruct root; [| cbn in Hlen; lia].
    exists []. rewrite app_nil_r. split; [reflexivity | apply perm_nil].
  - destruct root as [| d l r].
    + exists []. rewrite app_nil_r. split; [reflexivity | apply perm_nil].
    + cbn [tree_nodes length] in Hlen. rewrite length_app in Hlen.
      destruct r as [| dr rl rr].
      * cbn [free_precac_tree_loop left_spine_len Nat.pred].
        destruct (IH l (freed ++ [d])) as (order & Heq & Hp).
        { cbn [tree_nodes length] in Hlen. lia. }
        exists (d :: order). split.
        -- rewrite Heq. rewrite <- app_assoc. reflexivity.
        -- cbn [tree_nodes]. rewrite app_nil_r.
           apply Permutation_cons; [reflexivity | exact Hp].
      * set (r := Node dr rl rr) in *.
        assert (Hroot : Node d l r <> Null) by discriminate.
        destruct (set_left_at_graft r (Node d l r) Hroot)
          as (Hp & Hs & Hf & Hn).
        cbv zeta in Hp, Hs, Hf, Hn.
        unfold free_precac_tree_loop; fold free_precac_tree_loop.
        subst r. cbv zeta. set (r := Node dr rl rr) in *.
        rewrite Hf.
        set (g := set_left_at (Node d l r) (pred (left_spine_len (Node d l r))) r) in *.
        assert (Hg : exists l1, g = Node d l1 r
                     /\ Permutation (tree_nodes l1) (tree_nodes l ++ tree_nodes r)
                     /\ left_spine_len l1 = (left_spine_len l + left_spine_len r)%nat).
        { subst g. destruct l as [| dl ll lr].
          - exists r. cbn [left_spine_len Nat.pred set_left_at].
            split; [reflexivity |]. split; reflexivity.
          - assert (Hl : Node dl ll lr <> Null) by discriminate.
            destruct (set_left_at_graft r (Node dl ll lr) Hl)
              as (Hp' & Hs' & _ & _). cbv zeta in Hp', Hs'.
            eexists. split; [| split; [exact Hp' | exact Hs']].
            reflexivity. }
        destruct Hg as (l1 & Hgeq & Hpl & Hsl).
        rewrite Hgeq. cbn [left_descend].
        replace (pred (pred (left_spine_len (Node d l r)) + left_spine_len r))
          with (pred (left_spine_len l1))
          by (cbn [left_spine_len]; rewrite Hsl; cbn; lia).
        destruct (IH l1 (freed ++ [d])) as (order & Heq & Hpo).
        { rewrite (Permutation_length Hpl), length_app. lia. }
        exists (d :: order). split.
        -- subst r. cbv beta iota. change (left_descend l1 0) with l1.
           rewrite Heq. rewrite <- app_assoc. reflexivity.
        -- cbn [tree_nodes]. apply Permutation_cons; [reflexivity |].
           rewrite Hpo. exact Hpl.
Qed.

Lemma free_precac_tree_nodes_spec (t : precac_tree) :
  fr_root (dfs_free_precac_tree_nodes t) = Null
  /\ fr_asserted (dfs_free_precac_tree_nodes t) = false
  /\ Permutation (fr_freed (dfs_free_precac_tree_nodes t)) (tree_nodes t).
Proof.
  destruct t as [| d l r].
  - cbn. repeat split. apply perm_nil.
  - unfold dfs_free_precac_tree_nodes.
    cbn [dfs_find_leftmost_leaf_of_precac_tree].
    destruct (free_precac_tree_loop_spec
                (length (tree_nodes (Node d l r))) (Node d l r) [])
      as (order & Heq & Hp); [lia |].
    cbn [left_spine_len Nat.pred] in Heq. rewrite Heq.
    cbn. repeat split. exact Hp.
Qed.

Lemma deinit_precac_list_spec (l : precac_list) :
  fst (dfs_deinit_precac_list l) = []
  /\ Permutation (snd (dfs_deinit_precac_list l))
                 (concat (map (fun e => tree_nodes (tree_root e)) l)).
Proof.
  induction l as [| e rest IH].
  - cbn. split; [reflexivity | apply perm_nil].
  - cbn [dfs_deinit_precac_list map concat].
    destruct (dfs_deinit_precac_list rest) as [l' freed].
    cbn [fst snd] in *. destruct IH as [IH1 IH2].
    split; [exact IH1 |].
    apply Permutation_app; [| exact IH2].
    apply free_precac_tree_nodes_spec.
Qed.

(** X1: freeing the tree of an entry passes every node of the tree to
    qdf_mem_free exactly once (the freed nodes are a permutation of the
    nodes of the tree), leaves no node under the root pointer, and takes
    neither of the two QDF_ASSERT exits, for every tree. *)
Theorem free_precac_tree_nodes_all (t : precac_tree) :
  fr_root (dfs_free_precac_tree_nodes t) = Null
  /\ fr_asserted (dfs_free_precac_tree_nodes t) = false
  /\ Permutation (fr_freed (dfs_free_precac_tree_nodes t)) (tree_nodes t).
Proof. exact (free_precac_tree_nodes_spec t). Qed.

(** X2: de-initialization leaves the preCAC list empty and frees exactly
    the nodes of all the trees that were in it. *)
Theorem deinit_precac_list_all (l : precac_list) :
  fst (dfs_deinit_precac_list l) = []
  /\ Permutation (snd (dfs_deinit_precac_list l))
                 (concat (map (fun e => tree_nodes (tree_root e)) l)).
Proof. exact (deinit_precac_list_spec l). Qed.

(** ** Operations on the sub-channels of a band *)

Ltac tree_eval2 :=
  repeat (cbn [mark_nol_loop descent_path nth_error path_update
               mark_cac_done_loop
               dfs_unmark_tree_node_as_cac_done_for_freq
               dfs_unmark_tree_node_as_nol_for_freq
               dfs_is_tree_node_marked_as_cac_for_freq
               dfs_is_pcac_required_for_freq
               find_cac_status_loop map In existsb
               set_nol set_caced ch_freq n_caced_subchs n_nol_subchs
               n_valid_subchs bandwidth fst snd andb orb negb];
          change (N_SUBCHS_FOR_BANDWIDTH 80) with 4;
          change (N_SUBCHS_FOR_BANDWIDTH 40) with 2;
          change (N_SUBCHS_FOR_BANDWIDTH 20) with 1;
          settle_cmp).

Ltac leaf_op :=
  intros;
  unfold dfs_mark_tree_node_as_nol_for_freq,
         dfs_mark_tree_node_as_cac_done_for_freq, band_tree;
  tree_eval2; rewrite ?u8_small by lia; reflexivity.

Ltac mark_cac_fresh :=
  intros; unfold dfs_mark_tree_node_as_cac_done_for_freq, band_tree;
  tree_eval2;
  repeat match goal with
  | |- context [if ?c =? 0 then _ else _] => destruct (c =? 0)
  end;
  tree_eval2; rewrite ?u8_small by lia; reflexivity.

Ltac mark_cac_done :=
  intros; unfold dfs_mark_tree_node_as_cac_done_for_freq, band_tree;
  tree_eval2; reflexivity.

Lemma mark_cac_leaf1_fresh (C c0 n0 cm nm nl : Z) (k40r k2 k3 k4 : Z * Z) :
  30 <= C <= 65505 -> 0 <= c0 < 4 -> 0 <= cm < 2 ->
  dfs_mark_tree_node_as_cac_done_for_freq
    (band_tree C (c0, n0) (cm, nm) k40r (0, nl) k2 k3 k4) (C - 30) =
  band_tree C (c0 + 1, n0) (cm + 1, nm) k40r (1, nl) k2 k3 k4.
Proof. mark_cac_fresh. Qed.

Lemma mark_cac_leaf1_done (C c0 n0 cm nm cl nl : Z) (k40r k2 k3 k4 : Z * Z) :
  30 <= C <= 65505 -> c0 <> 0 -> cm <> 0 -> cl <> 0 ->
  dfs_mark_tree_node_as_cac_done_for_freq
    (band_tree C (c0, n0) (cm, nm) k40r (cl, nl) k2 k3 k4) (C - 30) =
  band_tree C (c0, n0) (cm, nm) k40r (cl, nl) k2 k3 k4.
Proof. mark_cac_done. Qed.

Lemma mark_nol_leaf1_fresh (C c0 n0 cm nm nl : Z) (k40r k2 k3 k4 : Z * Z) :
  30 <= C <= 65505 -> 0 <= n0 < 4 -> 0 <= nm < 2 -> 0 <= nl < 1 ->
  dfs_mark_tree_node_as_nol_for_freq
    (band_tree C (c0, n0) (cm, nm) k40r (0, nl) k2 k3 k4) (C - 30) =
  band_tree C (c0, n0 + 1) (cm, nm + 1) k40r (0, nl + 1) k2 k3 k4.
Proof. leaf_op. Qed.

Lemma unmark_nol_leaf1 (C c0 n0 cm nm cl nl : Z) (k40r k2 k3 k4 : Z * Z) :
  30 <= C <= 65505 -> 0 < n0 <= 4 -> 0 < nm <= 2 -> 0 < nl <= 1 ->
  dfs_unmark_tree_node_as_nol_for_freq
    (band_tree C (c0, n0) (cm, nm) k40r (cl, nl) k2 k3 k4) (C - 30) =
  band_tree C (c0, n0 - 1) (cm, nm - 1) k40r (cl, nl - 1) k2 k3 k4.
Proof. leaf_op. Qed.

Lemma mark_cac_leaf2_fresh (C c0 n0 cm nm nl : Z) (k40r k1 k3 k4 : Z * Z) :
  30 <= C <= 65505 -> 0 <= c0 < 4 -> 0 <= cm < 2 ->
  dfs_mark_tree_node_as_cac_done_for_freq
    (band_tree C (c0, n0) (cm, nm) k40r k1 (0, nl) k3 k4) (C - 10) =
  band_tree C (c0 + 1, n0) (cm + 1, nm) k40r k1 (1, nl) k3 k4.
Proof. mark_cac_fresh. Qed.

Lemma mark_cac_leaf2_done (C c0 n0 cm nm cl nl : Z) (k40r k1 k3 k4 : Z * Z) :
  30 <= C <= 65505 -> c0 <> 0 -> cm <> 0 -> cl <> 0 ->
  dfs_mark_tree_node_as_cac_done_for_freq
    (band_tree C (c0, n0) (cm, nm) k40r k1 (cl, nl) k3 k4) (C - 10) =
  band_tree C (c0, n0) (cm, nm) k40r k1 (cl, nl) k3 k4.
Proof. mark_cac_done. Qed.

Lemma mark_nol_leaf2_fresh (C c0 n0 cm nm nl : Z) (k40r k1 k3 k4 : Z * Z) :
  30 <= C <= 65505 -> 0 <= n0 < 4 -> 0 <= nm < 2 -> 0 <= nl < 1 ->
  dfs_mark_tree_node_as_nol_for_freq
    (band_tree C (c0, n0) (cm, nm) k40r k1 (0, nl) k3 k4) (C - 10) =
  band_tree C (c0, n0 + 1) (cm, nm + 1) k40r k1 (0, nl + 1) k3 k4.
Proof. leaf_op. Qed.

Lemma unmark_nol_leaf2 (C c0 n0 cm nm cl nl : Z) (k40r k1 k3 k4 : Z * Z) :
  30 <= C <= 65505 -> 0 < n0 <= 4 -> 0 < nm <= 2 -> 0 < nl <= 1 ->
  dfs_unmark_tree_node_as_nol_for_freq
    (band_tree C (c0, n0) (cm, nm) k40r k1 (cl, nl) k3 k4) (C - 10) =
  band_tree C (c0, n0 - 1) (cm, nm - 1) k40r k1 (cl, nl - 1) k3 k4.
Proof. leaf_op. Qed.

Lemma mark_cac_leaf3_fresh (C c0 n0 cm nm nl : Z) (k40l k1 k2 k4 : Z * Z) :
  30 <= C <= 65505 -> 0 <= c0 < 4 -> 0 <= cm < 2 ->
  dfs_mark_tree_node_as_cac_done_for_freq
    (band_tree C (c0, n0) k40l (cm, nm) k1 k2 (0, nl) k4) (C + 10) =
  band_tree C (c0 + 1, n0) k40l (cm + 1, nm) k1 k2 (1, nl) k4.
Proof. mark_cac_fresh. Qed.

Lemma mark_cac_leaf3_done (C c0 n0 cm nm cl nl : Z) (k40l k1 k2 k4 : Z * Z) :
  30 <= C <= 65505 -> c0 <> 0 -> cm <> 0 -> cl <> 0 ->
  dfs_mark_tree_node_as_cac_done_for_freq
    (band_tree C (c0, n0) k40l (cm, nm) k1 k2 (cl, nl) k4) (C + 10) =
  band_tree C (c0, n0) k40l (cm, nm) k1 k2 (cl, nl) k4.
Proof. mark_cac_done. Qed.

Lemma mark_nol_leaf3_fresh (C c0 n0 cm nm nl : Z) (k40l k1 k2 k4 : Z * Z) :
  30 <= C <= 65505 -> 0 <= n0 < 4 -> 0 <= nm < 2 -> 0 <= nl < 1 ->
  dfs_mark_tree_node_as_nol_for_freq
    (band_tree C (c0, n0) k40l (cm, nm) k1 k2 (0, nl) k4) (C + 10) =
  band_tree C (c0, n0 + 1) k40l (cm, nm + 1) k1 k2 (0, nl + 1) k4.
Proof. leaf_op. Qed.

Lemma unmark_nol_leaf3 (C c0 n0 cm nm cl nl : Z) (k40l k1 k2 k4 : Z * Z) :
  30 <= C <= 65505 -> 0 < n0 <= 4 -> 0 < nm <= 2 -> 0 < nl <= 1 ->
  dfs_unmark_tree_node_as_nol_for_freq
    (band_tree C (c0, n0) k40l (cm, nm) k1 k2 (cl, nl) k4) (C + 10) =
  band_tree C (c0, n0 - 1) k40l (cm, nm - 1) k1 k2 (cl, nl - 1) k4.
Proof. leaf_op. Qed.

Lemma mark_cac_leaf4_fresh (C c0 n0 cm nm nl : Z) (k40l k1 k2 k3 : Z * Z) :
  30 <= C <= 65505 -> 0 <= c0 < 4 -> 0 <= cm < 2 ->
  dfs_mark_tree_node_as_cac_done_for_freq
    (band_tree C (c0, n0) k40l (cm, nm) k1 k2 k3 (0, nl)) (C + 30) =
  band_tree C (c0 + 1, n0) k40l (cm + 1, nm) k1 k2 k3 (1, nl).
Proof. mark_cac_fresh. Qed.

Lemma mark_cac_leaf4_done (C c0 n0 cm nm cl nl : Z) (k40l k1 k2 k3 : Z * Z) :
  30 <= C <= 65505 -> c0 <> 0 -> cm <> 0 -> cl <> 0 ->
  dfs_mark_tree_node_as_cac_done_for_freq
    (band_tree C (c0, n0) k40l (cm, nm) k1 k2 k3 (cl, nl)) (C + 30) =
  band_tree C (c0, n0) k40l (cm, nm) k1 k2 k3 (cl, nl).
Proof. mark_cac_done. Qed.

Lemma mark_nol_leaf4_fresh (C c0 n0 cm nm nl : Z) (k40l k1 k2 k3 : Z * Z) :
  30 <= C <= 65505 -> 0 <= n0 < 4 -> 0 <= nm < 2 -> 0 <= nl < 1 ->
  dfs_mark_tree_node_as_nol_for_freq
    (band_tree C (c0, n0) k40l (cm, nm) k1 k2 k3 (0, nl)) (C + 30) =
  band_tree C (c0, n0 + 1) k40l (cm, nm + 1) k1 k2 k3 (0, nl + 1).
Proof. leaf_op. Qed.

Lemma unmark_nol_leaf4 (C c0 n0 cm nm cl nl : Z) (k40l k1 k2 k3 : Z * Z) :
  30 <= C <= 65505 -> 0 < n0 <= 4 -> 0 < nm <= 2 -> 0 < nl <= 1 ->
  dfs_unmark_tree_node_as_nol_for_freq
    (band_tree C (c0, n0) k40l (cm, nm) k1 k2 k3 (cl, nl)) (C + 30) =
  band_tree C (c0, n0 - 1) k40l (cm, nm - 1) k1 k2 k3 (cl, nl - 1).
Proof. leaf_op. Qed.

Lemma band_tree_is_band_tree (C : Z) (k80 k40l k40r k1 k2 k3 k4 : Z * Z) :
  30 <= C <= 65505 ->
  is_band_tree C (band_tree C k80 k40l k40r k1 k2 k3 k4).
Proof.
  intros HC. split; [exact HC |].
  rewrite (create_precac_tree_explicit C HC). reflexivity.
Qed.

Lemma band_tree_consistent (C c0 n0 c1 n1 c2 n2 c3 n3 c4 n4 c5 n5 c6 n6 : Z) :
  consistent
    (band_tree C (c0, n0) (c1, n1) (c2, n2) (c3, n3) (c4, n4) (c5, n5)
               (c6, n6)) = true <->
  (0 <= c3 /\ 0 <= n3 /\ c3 + n3 <= 1) /\
  (0 <= c4 /\ 0 <= n4 /\ c4 + n4 <= 1) /\
  (0 <= c5 /\ 0 <= n5 /\ c5 + n5 <= 1) /\
  (0 <= c6 /\ 0 <= n6 /\ c6 + n6 <= 1) /\
  (c1 = c3 + c4 /\ n1 = n3 + n4) /\ (c2 = c5 + c6 /\ n2 = n5 + n6) /\
  (c0 = c1 + c2 /\ n0 = n1 + n2).
Proof.
  unfold consistent, band_tree. cbn [tree_all sum_rule fst snd caced_of nol_of
    n_caced_subchs n_nol_subchs].
  rewrite !andb_true_iff, !node_ok_spec. unfold sum_bound.
  rewrite !Z.eqb_eq, !Z.leb_le. cbn. lia.
Qed.

Lemma band_tree_leaf_in_nol (C : Z) (k80 k40l k40r k1 k2 k3 k4 : Z * Z) :
  30 <= C <= 65505 ->
  let t := band_tree C k80 k40l k40r k1 k2 k3 k4 in
  leaf_in_nol t (C - 30) = negb (snd k1 =? 0)
  /\ leaf_in_nol t (C - 10) = negb (snd k2 =? 0)
  /\ leaf_in_nol t (C + 10) = negb (snd k3 =? 0)
  /\ leaf_in_nol t (C + 30) = negb (snd k4 =? 0).
Proof.
  intros HC t; subst t. unfold leaf_in_nol, band_tree.
  repeat split; tree_eval2; rewrite orb_false_r; reflexivity.
Qed.

Lemma in_band_leaves (C f : Z) :
  existsb (Z.eqb f) (band_leaves C) = true ->
  f = C - 30 \/ f = C - 10 \/ f = C + 10 \/ f = C + 30.
Proof.
  unfold band_leaves. cbn [existsb].
  rewrite !orb_true_iff, !Z.eqb_eq. intuition discriminate.
Qed.

Ltac use_guard Hg HC :=
  let Hf := fresh "Hf" in
  let L1 := fresh "L" in let L2 := fresh "L" in
  let L3 := fresh "L" in let L4 := fresh "L" in
  apply andb_true_iff in Hg; destruct Hg as [Hf Hg];
  apply in_band_leaves in Hf;
  match type of Hg with
  | context [leaf_in_nol (band_tree ?C ?a ?b ?c ?d ?e ?f ?g) _] =>
      destruct (band_tree_leaf_in_nol C a b c d e f g HC)
        as (L1 & L2 & L3 & L4)
  end;
  destruct Hf as [-> | [-> | [-> | ->]]];
  [rewrite L1 in Hg | rewrite L2 in Hg | rewrite L3 in Hg | rewrite L4 in Hg];
  cbn [snd] in Hg; clear L1 L2 L3 L4;
  match type of Hg with
  | context [?n =? 0] =>
      let E := fresh "E" in
      destruct (Z.eqb_spec n 0) as [E | E]; cbn in Hg;
      try discriminate Hg; clear Hg
  end.

Lemma guarded_step (C : Z) (t : precac_tree) (m : mutator) :
  is_band_tree C t -> consistent t = true -> op_guard C t m = true ->
  is_band_tree C (apply_mutator t m) /\ consistent (apply_mutator t m) = true.
Proof.
  intros Hbt Hc Hg. pose proof Hbt as [HC _].
  destruct (band_tree_inv C t Hbt)
    as ([c0 n0] & [c1 n1] & [c2 n2] & [c3 n3] & [c4 n4] & [c5 n5]
        & [c6 n6] & ->).
  apply band_tree_consistent in Hc.
  destruct m as [f | f | f | f]; cbn [op_guard apply_mutator] in *;
    [ | discriminate | | ].
  - (* mark-CAC-done *)
    use_guard Hg HC.
    + assert (c3 = 0 \/ c3 = 1) as [-> | ->] by lia.
      * rewrite mark_cac_leaf1_fresh by lia.
        split; [apply band_tree_is_band_tree; exact HC |].
        apply band_tree_consistent. lia.
      * rewrite mark_cac_leaf1_done by lia.
        split; [apply band_tree_is_band_tree; exact HC |].
        apply band_tree_consistent. lia.
    + assert (c4 = 0 \/ c4 = 1) as [-> | ->] by lia.
      * rewrite mark_cac_leaf2_fresh by lia.
        split; [apply band_tree_is_band_tree; exact HC |].
        apply band_tree_consistent. lia.
      * rewrite mark_cac_leaf2_done by lia.
        split; [apply band_tree_is_band_tree; exact HC |].
        apply band_tree_consistent. lia.
    + assert (c5 = 0 \/ c5 = 1) as [-> | ->] by lia.
      * rewrite mark_cac_leaf3_fresh by lia.
        split; [apply band_tree_is_band_tree; exact HC |].
        apply band_tree_consistent. lia.
      * rewrite mark_cac_leaf3_done by lia.
        split; [apply band_tree_is_band_tree; exact HC |].
        apply band_tree_consistent. lia.
    + assert (c6 = 0 \/ c6 = 1) as [-> | ->] by lia.
      * rewrite mark_cac_leaf4_fresh by lia.
        split; [apply band_tree_is_band_tree; exact HC |].
        apply band_tree_consistent. lia.
      * rewrite mark_cac_leaf4_done by lia.
        split; [apply band_tree_is_band_tree; exact HC |].
        apply band_tree_consistent. lia.
  - (* mark-NOL *)
    use_guard Hg HC.
    + assert (c3 = 0 \/ c3 = 1) as [-> | ->] by lia.
      * rewrite mark_nol_leaf1_fresh by lia.
        split; [apply band_tree_is_band_tree; exact HC |].
        apply band_tree_consistent. lia.
      * rewrite mark_nol_leaf1 by lia.
        split; [apply band_tree_is_band_tree; exact HC |].
        apply band_tree_consistent. lia.
    + assert (c4 = 0 \/ c4 = 1) as [-> | ->] by lia.
      * rewrite mark_nol_leaf2_fresh by lia.
        split; [apply band_tree_is_band_tree; exact HC |].
        apply band_tree_consistent. lia.
      * rewrite mark_nol_leaf2 by lia.
        split; [apply band_tree_is_band_tree; exact HC |].
        apply band_tree_consistent. lia.
    + assert (c5 = 0 \/ c5 = 1) as [-> | ->] by lia.
      * rewrite mark_nol_leaf3_fresh by lia.
        split; [apply band_tree_is_band_tree; exact HC |].
        apply band_tree_consistent. lia.
      * rewrite mark_nol_leaf3 by lia.
        split; [apply band_tree_is_band_tree; exact HC |].
        apply band_tree_consistent. lia.
    + assert (c6 = 0 \/ c6 = 1) as [-> | ->] by lia.
      * rewrite mark_nol_leaf4_fresh by lia.
        split; [apply band_tree_is_band_tree; exact HC |].
        apply band_tree_consistent. lia.
      * rewrite mark_nol_leaf4 by lia.
        split; [apply band_tree_is_band_tree; exact HC |].
        apply band_tree_consistent. lia.
  - (* unmark-NOL *)
    use_guard Hg HC.
    + rewrite unmark_nol_leaf1 by lia.
      split; [apply band_tree_is_band_tree; exact HC |].
      apply band_tree_consistent. lia.
    + rewrite unmark_nol_leaf2 by lia.
      split; [apply band_tree_is_band_tree; exact HC |].
      apply band_tree_consistent. lia.
    + rewrite unmark_nol_leaf3 by lia.
      split; [apply band_tree_is_band_tree; exact HC |].
      apply band_tree_consistent. lia.
    + rewrite unmark_nol_leaf4 by lia.
      split; [apply band_tree_is_band_tree; exact HC |].
      apply band_tree_consistent. lia.
Qed.

(** ** Guarded use of the mutators *)

Lemma run_guarded_inv (C : Z) (ms : list mutator) :
  forall t t',
    is_band_tree C t -> consistent t = true ->
    run_guarded C t ms = Some t' ->
    is_band_tree C t' /\ consistent t' = true.
Proof.
  induction ms as [| m ms IH]; intros t t' Hbt Hc Hrun; cbn in Hrun.
  - injection Hrun as <-. split; assumption.
  - destruct (op_guard C t m) eqn:Hg; [| discriminate].
    destruct (guarded_step C t m Hbt Hc Hg) as [Hbt' Hc'].
    exact (IH _ _ Hbt' Hc' Hrun).
Qed.

(** X8: from an initialized band tree, every sequence of mutators on
    20 MHz sub-channels of the band in which CAC completion and radar are
    recorded only for a sub-channel not in NOL, and NOL expiry only for a
    sub-channel in NOL, ends in a state where every counter is within its
    span, every node with children holds the sums of its children's
    counters, and CAC-done plus NOL does not exceed the valid count. *)
Theorem guarded_ops_keep_consistency (C : Z) (ms : list mutator)
  (t : precac_tree) :
  30 <= C <= 65505 ->
  run_guarded C (dfs_create_precac_tree_for_freq C) ms = Some t ->
  tree_all node_ok t = true /\ sum_rule t = true
  /\ tree_all sum_bound t = true.
Proof.
  intros HC Hrun.
  assert (Hbt : is_band_tree C (dfs_create_precac_tree_for_freq C)).
  { rewrite (create_precac_tree_explicit C HC).
    apply band_tree_is_band_tree. exact HC. }
  assert (Hc : consistent (dfs_create_precac_tree_for_freq C) = true).
  { rewrite (create_precac_tree_explicit C HC).
    apply band_tree_consistent. lia. }
  destruct (run_guarded_inv C ms _ _ Hbt Hc Hrun) as [_ Hc'].
  unfold consistent in Hc'. rewrite !andb_true_iff in Hc'. tauto.
Qed.

Lemma guarded_ops_keep_consistency_witness :
  let ms := [MarkCacDone 5260; MarkCacDone 5280; MarkNol 5260;
             MarkCacDone 5300; UnmarkNol 5260; MarkNol 5320] in
  let t := apply_mutators (dfs_create_precac_tree_for_freq 5290) ms in
  tree_all node_ok t = true /\ sum_rule t = true
  /\ tree_all sum_bound t = true.
Proof.
  cbv zeta.
  apply (guarded_ops_keep_consistency 5290
           [MarkCacDone 5260; MarkCacDone 5280; MarkNol 5260;
            MarkCacDone 5300; UnmarkNol 5260; MarkNol 5320]).
  - lia.
  - vm_compute. reflexivity.
Defined.

Lemma band_tree_status_all (C : Z) (k80 k40l k40r k1 k2 k3 k4 : Z * Z) :
  30 <= C <= 65505 ->
  let t := band_tree C k80 k40l k40r k1 k2 k3 k4 in
  dfs_find_cac_status_for_chan_for_freq t C = (fst k80 =? 4)
  /\ dfs_find_cac_status_for_chan_for_freq t (C - 20) = (fst k40l =? 2)
  /\ dfs_find_cac_status_for_chan_for_freq t (C + 20) = (fst k40r =? 2).
Proof.
  intros HC t; subst t.
  unfold band_tree, dfs_find_cac_status_for_chan_for_freq.
  change N_SUBCHANS_FOR_80BW with 4.
  repeat split; tree_eval2; reflexivity.
Qed.

Lemma band_tree_required (C : Z) (k80 k40l k40r k1 k2 k3 k4 : Z * Z) :
  30 <= C <= 65505 ->
  let t := band_tree C k80 k40l k40r k1 k2 k3 k4 in
  let rq := fun (k : Z * Z) (n : Z) =>
              negb ((fst k =? n) || negb (snd k =? 0)) in
  dfs_is_pcac_required_for_freq t C = rq k80 4
  /\ dfs_is_pcac_required_for_freq t (C - 20) = rq k40l 2
  /\ dfs_is_pcac_required_for_freq t (C + 20) = rq k40r 2
  /\ dfs_is_pcac_required_for_freq t (C - 30) = rq k1 1
  /\ dfs_is_pcac_required_for_freq t (C - 10) = rq k2 1
  /\ dfs_is_pcac_required_for_freq t (C + 10) = rq k3 1
  /\ dfs_is_pcac_required_for_freq t (C + 30) = rq k4 1.
Proof.
  intros HC t rq; subst t rq. unfold band_tree. cbv beta.
  repeat split; tree_eval2;
    match goal with
    | |- (if ?b then false else true) = _ => destruct b; reflexivity
    end.
Qed.

Ltac leaf_cases Hf :=
  unfold band_leaves in Hf;
  destruct Hf as [<- | [<- | [<- | [<- | []]]]].

Ltac use_leaf_nol Hn HC :=
  let L1 := fresh "L" in let L2 := fresh "L" in
  let L3 := fresh "L" in let L4 := fresh "L" in
  match type of Hn with
  | context [leaf_in_nol (band_tree ?C ?a ?b ?c ?d ?e ?f ?g) _] =>
      destruct (band_tree_leaf_in_nol C a b c d e f g HC)
        as (L1 & L2 & L3 & L4)
  end;
  first [rewrite L1 in Hn | rewrite L2 in Hn
        | rewrite L3 in Hn | rewrite L4 in Hn];
  cbn [snd] in Hn; clear L1 L2 L3 L4;
  match type of Hn with
  | context [?n =? 0] =>
      let E := fresh "E" in
      destruct (Z.eqb_spec n 0) as [E | E]; cbn in Hn;
      try discriminate Hn; clear Hn
  end.

(** X9: on a band tree with consistent counters, mark-NOL followed by
    unmark-NOL on a 20 MHz sub-channel that was not in NOL restores every
    NOL counter; afterwards the sub-channel is not CAC-done, and the tree
    is the one before when the sub-channel was not CAC-done. *)
Theorem nol_mark_unmark_round_trip (C : Z) (t : precac_tree) (f : Z) :
  is_band_tree C t -> consistent t = true ->
  In f (band_leaves C) -> leaf_in_nol t f = false ->
  let t' := dfs_unmark_tree_node_as_nol_for_freq
              (dfs_mark_tree_node_as_nol_for_freq t f) f in
  map n_nol_subchs (tree_nodes t') = map n_nol_subchs (tree_nodes t)
  /\ dfs_find_cac_status_for_chan_for_freq t' f = false
  /\ (dfs_find_cac_status_for_chan_for_freq t f = false -> t' = t).
Proof.
  intros Hbt Hc Hf Hn. pose proof Hbt as [HC _].
  destruct (band_tree_inv C t Hbt)
    as ([c0 n0] & [c1 n1] & [c2 n2] & [c3 n3] & [c4 n4] & [c5 n5]
        & [c6 n6] & ->).
  apply band_tree_consistent in Hc. cbv zeta.
  leaf_cases Hf; use_leaf_nol Hn HC.
  - assert (c3 = 0 \/ c3 = 1) as [-> | ->] by lia.
    + rewrite mark_nol_leaf1_fresh, unmark_nol_leaf1 by lia.
      replace (n0 + 1 - 1) with n0 by lia.
      replace (n1 + 1 - 1) with n1 by lia.
      replace (n3 + 1 - 1) with n3 by lia.
      rewrite (proj1 (band_tree_status C _ _ _ _ _ _ _ HC)).
      repeat split; reflexivity.
    + rewrite mark_nol_leaf1, unmark_nol_leaf1 by lia.
      replace (n0 + 1 - 1) with n0 by lia.
      replace (n1 + 1 - 1) with n1 by lia.
      replace (n3 + 1 - 1) with n3 by lia.
      rewrite !(proj1 (band_tree_status C _ _ _ _ _ _ _ HC)).
      repeat split; try reflexivity. discriminate.
  - assert (c4 = 0 \/ c4 = 1) as [-> | ->] by lia.
    + rewrite mark_nol_leaf2_fresh, unmark_nol_leaf2 by lia.
      replace (n0 + 1 - 1) with n0 by lia.
      replace (n1 + 1 - 1) with n1 by lia.
      replace (n4 + 1 - 1) with n4 by lia.
      rewrite (proj1 (proj2 (band_tree_status C _ _ _ _ _ _ _ HC))).
      repeat split; reflexivity.
    + rewrite mark_nol_leaf2, unmark_nol_leaf2 by lia.
      replace (n0 + 1 - 1) with n0 by lia.
      replace (n1 + 1 - 1) with n1 by lia.
      replace (n4 + 1 - 1) with n4 by lia.
      rewrite !(proj1 (proj2 (band_tree_status C _ _ _ _ _ _ _ HC))).
      repeat split; try reflexivity. discriminate.
  - assert (c5 = 0 \/ c5 = 1) as [-> | ->] by lia.
    + rewrite mark_nol_leaf3_fresh, unmark_nol_leaf3 by lia.
      replace (n0 + 1 - 1) with n0 by lia.
      replace (n2 + 1 - 1) with n2 by lia.
      replace (n5 + 1 - 1) with n5 by lia.
      rewrite (proj1 (proj2 (proj2 (band_tree_status C _ _ _ _ _ _ _ HC)))).
      repeat split; reflexivity.
    + rewrite mark_nol_leaf3, unmark_nol_leaf3 by lia.
      replace (n0 + 1 - 1) with n0 by lia.
      replace (n2 + 1 - 1) with n2 by lia.
      replace (n5 + 1 - 1) with n5 by lia.
      rewrite !(proj1 (proj2 (proj2 (band_tree_status C _ _ _ _ _ _ _ HC)))).
      repeat split; try reflexivity. discriminate.
  - assert (c6 = 0 \/ c6 = 1) as [-> | ->] by lia.
    + rewrite mark_nol_leaf4_fresh, unmark_nol_leaf4 by lia.
      replace (n0 + 1 - 1) with n0 by lia.
      replace (n2 + 1 - 1) with n2 by lia.
      replace (n6 + 1 - 1) with n6 by lia.
      rewrite (proj2 (proj2 (proj2 (band_tree_status C _ _ _ _ _ _ _ HC)))).
      repeat split; reflexivity.
    + rewrite mark_nol_leaf4, unmark_nol_leaf4 by lia.
      replace (n0 + 1 - 1) with n0 by lia.
      replace (n2 + 1 - 1) with n2 by lia.
      replace (n6 + 1 - 1) with n6 by lia.
      rewrite !(proj2 (proj2 (proj2 (band_tree_status C _ _ _ _ _ _ _ HC)))).
      repeat split; try reflexivity. discriminate.
Qed.

Lemma nol_mark_unmark_round_trip_witness :
  let t := apply_mutators (dfs_create_precac_tree_for_freq 5290)
             [MarkCacDone 5260; MarkNol 5300] in
  let t' := dfs_unmark_tree_node_as_nol_for_freq
              (dfs_mark_tree_node_as_nol_for_freq t 5260) 5260 in
  map n_nol_subchs (tree_nodes t') = map n_nol_subchs (tree_nodes t)
  /\ dfs_find_cac_status_for_chan_for_freq t' 5260 = false
  /\ (dfs_find_cac_status_for_chan_for_freq t 5260 = false -> t' = t).
Proof.
  cbv zeta.
  apply (nol_mark_unmark_round_trip 5290).
  - split; [lia | reflexivity].
  - reflexivity.
  - vm_compute. left. reflexivity.
  - reflexivity.
Defined.

Ltac radar_leaf HC :=
  match goal with
  | |- forall d, In d (descent_path (band_tree ?C ?a ?b ?c ?d1 ?e ?f ?g) ?x)
                 -> _ =>
      let P1 := fresh "P" in let P2 := fresh "P" in
      let P3 := fresh "P" in let P4 := fresh "P" in
      let S0 := fresh "S" in let S1 := fresh "S" in let S2 := fresh "S" in
      let T1 := fresh "T" in let T2 := fresh "T" in
      let T3 := fresh "T" in let T4 := fresh "T" in
      let R0 := fresh "R" in let R1 := fresh "R" in let R2 := fresh "R" in
      let R3 := fresh "R" in let R4 := fresh "R" in let R5 := fresh "R" in
      let R6 := fresh "R" in
      destruct (band_tree_paths C a b c d1 e f g HC) as (P1 & P2 & P3 & P4);
      destruct (band_tree_status_all C a b c d1 e f g HC) as (S0 & S1 & S2);
      destruct (band_tree_status C a b c d1 e f g HC) as (T1 & T2 & T3 & T4);
      destruct (band_tree_required C a b c d1 e f g HC)
        as (R0 & R1 & R2 & R3 & R4 & R5 & R6);
      first [rewrite P1 | rewrite P2 | rewrite P3 | rewrite P4];
      unfold bt_node;
      intros d [<- | [<- | [<- | []]]];
      cbn [ch_freq n_nol_subchs fst snd];
      rewrite ?S0, ?S1, ?S2, ?T1, ?T2, ?T3, ?T4,
              ?R0, ?R1, ?R2, ?R3, ?R4, ?R5, ?R6;
      cbn [fst snd];
      (split; [lia |]);
      (split; [apply Z.eqb_neq; lia |]);
      match goal with
      | |- negb (_ || negb (?n =? 0)) = false =>
          replace (n =? 0) with false by (symmetry; apply Z.eqb_neq; lia);
          cbn [negb]; rewrite orb_true_r; reflexivity
      end
  end.

(** X10: on a band tree with consistent counters, after mark-NOL on a
    20 MHz sub-channel that was not in NOL, every node met on the descent
    to it (the 80 MHz root, the 40 MHz parent and the leaf) has a non-zero
    NOL count, and for the centre of each of them the CAC-done query is
    false and preCAC is not required. *)
Theorem nol_supersedes_at_every_level (C : Z) (t : precac_tree) (f : Z) :
  is_band_tree C t -> consistent t = true ->
  In f (band_leaves C) -> leaf_in_nol t f = false ->
  let t' := dfs_mark_tree_node_as_nol_for_freq t f in
  forall d, In d (descent_path t' f) ->
    n_nol_subchs d <> 0
    /\ dfs_find_cac_status_for_chan_for_freq t' (ch_freq d) = false
    /\ dfs_is_pcac_required_for_freq t' (ch_freq d) = false.
Proof.
  intros Hbt Hc Hf Hn. pose proof Hbt as [HC _].
  destruct (band_tree_inv C t Hbt)
    as ([c0 n0] & [c1 n1] & [c2 n2] & [c3 n3] & [c4 n4] & [c5 n5]
        & [c6 n6] & ->).
  apply band_tree_consistent in Hc. cbv zeta.
  leaf_cases Hf; use_leaf_nol Hn HC.
  - assert (c3 = 0 \/ c3 = 1) as [-> | ->] by lia;
      [rewrite mark_nol_leaf1_fresh by lia | rewrite mark_nol_leaf1 by lia];
      radar_leaf HC.
  - assert (c4 = 0 \/ c4 = 1) as [-> | ->] by lia;
      [rewrite mark_nol_leaf2_fresh by lia | rewrite mark_nol_leaf2 by lia];
      radar_leaf HC.
  - assert (c5 = 0 \/ c5 = 1) as [-> | ->] by lia;
      [rewrite mark_nol_leaf3_fresh by lia | rewrite mark_nol_leaf3 by lia];
      radar_leaf HC.
  - assert (c6 = 0 \/ c6 = 1) as [-> | ->] by lia;
      [rewrite mark_nol_leaf4_fresh by lia | rewrite mark_nol_leaf4 by lia];
      radar_leaf HC.
Qed.

Lemma nol_supersedes_at_every_level_witness :
  let t := apply_mutators (dfs_create_precac_tree_for_freq 5290)
             [MarkCacDone 5260; MarkCacDone 5280] in
  let t' := dfs_mark_tree_node_as_nol_for_freq t 5260 in
  dfs_find_cac_status_for_chan_for_freq t' 5270 = false
  /\ dfs_is_pcac_required_for_freq t' 5270 = false.
Proof.
  cbv zeta.
  refine (proj2 (nol_supersedes_at_every_level 5290
                   (apply_mutators (dfs_create_precac_tree_for_freq 5290)
                      [MarkCacDone 5260; MarkCacDone 5280])
                   5260 _ _ _ _ (mk_node 5270 1 1 2 40) _)).
  - split; [lia | reflexivity].
  - reflexivity.
  - vm_compute. left. reflexivity.
  - reflexivity.
  - vm_compute. right. left. reflexivity.
Defined.

(** ** Mark-CAC-done and the CAC-done query *)

(** Mark-CAC-done on a leaf, when the CAC-done counters obey the sum
    rule. *)
Lemma mark_cac_leaf1_sum (C c0 n0 c1 n1 c2 n2 c3 n3 c4 n4 : Z)
  (k3 k4 : Z * Z) :
  30 <= C <= 65505 ->
  0 <= c3 <= 1 -> 0 <= c4 <= 1 -> 0 <= c2 <= 2 ->
  c1 = c3 + c4 -> c0 = c1 + c2 ->
  dfs_mark_tree_node_as_cac_done_for_freq
    (band_tree C (c0, n0) (c1, n1) (c2, n2) (c3, n3) (c4, n4) k3 k4) (C - 30)
  = band_tree C (c0 + 1 - c3, n0) (c1 + 1 - c3, n1) (c2, n2) (1, n3) (c4, n4)
              k3 k4.
Proof.
  intros HC H3 H4 H2 -> ->.
  assert (c3 = 0 \/ c3 = 1) as [-> | ->] by lia.
  - rewrite mark_cac_leaf1_fresh by lia. f_equal; f_equal; lia.
  - rewrite mark_cac_leaf1_done by lia. f_equal; f_equal; lia.
Qed.

Lemma mark_cac_leaf2_sum (C c0 n0 c1 n1 c2 n2 c3 n3 c4 n4 : Z)
  (k3 k4 : Z * Z) :
  30 <= C <= 65505 ->
  0 <= c3 <= 1 -> 0 <= c4 <= 1 -> 0 <= c2 <= 2 ->
  c1 = c3 + c4 -> c0 = c1 + c2 ->
  dfs_mark_tree_node_as_cac_done_for_freq
    (band_tree C (c0, n0) (c1, n1) (c2, n2) (c3, n3) (c4, n4) k3 k4) (C - 10)
  = band_tree C (c0 + 1 - c4, n0) (c1 + 1 - c4, n1) (c2, n2) (c3, n3) (1, n4)
              k3 k4.
Proof.
  intros HC H3 H4 H2 -> ->.
  assert (c4 = 0 \/ c4 = 1) as [-> | ->] by lia.
  - rewrite mark_cac_leaf2_fresh by lia. f_equal; f_equal; lia.
  - rewrite mark_cac_leaf2_done by lia. f_equal; f_equal; lia.
Qed.

Lemma mark_cac_leaf3_sum (C c0 n0 c1 n1 c2 n2 c5 n5 c6 n6 : Z)
  (k1 k2 : Z * Z) :
  30 <= C <= 65505 ->
  0 <= c5 <= 1 -> 0 <= c6 <= 1 -> 0 <= c1 <= 2 ->
  c2 = c5 + c6 -> c0 = c1 + c2 ->
  dfs_mark_tree_node_as_cac_done_for_freq
    (band_tree C (c0, n0) (c1, n1) (c2, n2) k1 k2 (c5, n5) (c6, n6)) (C + 10)
  = band_tree C (c0 + 1 - c5, n0) (c1, n1) (c2 + 1 - c5, n2) k1 k2 (1, n5)
              (c6, n6).
Proof.
  intros HC H5 H6 H1 -> ->.
  assert (c5 = 0 \/ c5 = 1) as [-> | ->] by lia.
  - rewrite mark_cac_leaf3_fresh by lia. f_equal; f_equal; lia.
  - rewrite mark_cac_leaf3_done by lia. f_equal; f_equal; lia.
Qed.

Lemma mark_cac_leaf4_sum (C c0 n0 c1 n1 c2 n2 c5 n5 c6 n6 : Z)
  (k1 k2 : Z * Z) :
  30 <= C <= 65505 ->
  0 <= c5 <= 1 -> 0 <= c6 <= 1 -> 0 <= c1 <= 2 ->
  c2 = c5 + c6 -> c0 = c1 + c2 ->
  dfs_mark_tree_node_as_cac_done_for_freq
    (band_tree C (c0, n0) (c1, n1) (c2, n2) k1 k2 (c5, n5) (c6, n6)) (C + 30)
  = band_tree C (c0 + 1 - c6, n0) (c1, n1) (c2 + 1 - c6, n2) k1 k2 (c5, n5)
              (1, n6).
Proof.
  intros HC H5 H6 H1 -> ->.
  assert (c6 = 0 \/ c6 = 1) as [-> | ->] by lia.
  - rewrite mark_cac_leaf4_fresh by lia. f_equal; f_equal; lia.
  - rewrite mark_cac_leaf4_done by lia. f_equal; f_equal; lia.
Qed.

Lemma band_tree_sums (C c0 n0 c1 n1 c2 n2 c3 n3 c4 n4 c5 n5 c6 n6 : Z) :
  let t := band_tree C (c0, n0) (c1, n1) (c2, n2) (c3, n3) (c4, n4) (c5, n5)
                     (c6, n6) in
  tree_all node_ok t = true -> sum_rule t = true ->
  (0 <= c3 <= 1 /\ 0 <= c4 <= 1 /\ 0 <= c5 <= 1 /\ 0 <= c6 <= 1) /\
  c1 = c3 + c4 /\ c2 = c5 + c6 /\ c0 = c1 + c2.
Proof.
  intros t Hok Hs. subst t. apply band_tree_ok_bounds in Hok.
  unfold band_tree in Hs.
  cbn [sum_rule fst snd caced_of nol_of n_caced_subchs n_nol_subchs] in Hs.
  rewrite !andb_true_iff, !Z.eqb_eq in Hs. lia.
Qed.

(** Routing of a frequency to the entry of its band. *)
Lemma forest_wf_split (l1 l2 : precac_list) (e : dfs_precac_entry) :
  forest_wf (l1 ++ e :: l2) ->
  is_band_tree (vht80_ch_freq e) (tree_root e) /\
  forall e', In e' l1 -> 80 <= Z.abs (vht80_ch_freq e' - vht80_ch_freq e).
Proof.
  induction l1 as [| x l1 IH]; cbn [app forest_wf].
  - intros (Hbt & _ & _). split; [exact Hbt | intros e' []].
  - intros (_ & Hfar & Hwf). destruct (IH Hwf) as [Hbt Hl1].
    split; [exact Hbt |]. intros e' [<- | He'].
    + apply Hfar. apply in_or_app. right. left. reflexivity.
    + apply Hl1. exact He'.
Qed.

Lemma mark_first_in_range_at (g : precac_tree -> Z -> precac_tree) (f : Z)
  (l1 l2 : precac_list) (e : dfs_precac_entry) :
  (forall e', In e' l1 -> 80 <= Z.abs (vht80_ch_freq e' - vht80_ch_freq e)) ->
  vht80_ch_freq e - 30 <= f <= vht80_ch_freq e + 30 ->
  mark_first_in_range g (l1 ++ e :: l2) f
  = l1 ++ mk_entry (vht80_ch_freq e) (g (tree_root e) f) :: l2.
Proof.
  intros Hfar Hf. induction l1 as [| x l1 IH]; cbn [app mark_first_in_range].
  - replace (IS_WITHIN_RANGE f (vht80_ch_freq e) VHT80_FREQ_OFFSET) with true;
      [reflexivity |].
    symmetry. apply within_range_spec. unfold VHT80_FREQ_OFFSET. lia.
  - replace (IS_WITHIN_RANGE f (vht80_ch_freq x) VHT80_FREQ_OFFSET) with false.
    + rewrite IH; [reflexivity |]. intros e' He'. apply Hfar. right. exact He'.
    + symmetry. apply not_true_is_false. intros Hin.
      apply within_range_spec in Hin. unfold VHT80_FREQ_OFFSET in Hin.
      specialize (Hfar x (or_introl eq_refl)). lia.
Qed.

Lemma precac_done_query_at (f : Z) (l1 l2 : precac_list)
  (e : dfs_precac_entry) :
  (forall e', In e' l1 -> 80 <= Z.abs (vht80_ch_freq e' - vht80_ch_freq e)) ->
  vht80_ch_freq e - 30 <= f <= vht80_ch_freq e + 30 ->
  dfs_is_precac_done_on_ht20_40_80_chan_for_freq (l1 ++ e :: l2) f
  = dfs_find_cac_status_for_chan_for_freq (tree_root e) f.
Proof.
  intros Hfar Hf. induction l1 as [| x l1 IH];
    cbn [app dfs_is_precac_done_on_ht20_40_80_chan_for_freq].
  - replace (IS_WITHIN_RANGE f (vht80_ch_freq e) VHT80_FREQ_OFFSET) with true;
      [reflexivity |].
    symmetry. apply within_range_spec. unfold VHT80_FREQ_OFFSET. lia.
  - replace (IS_WITHIN_RANGE f (vht80_ch_freq x) VHT80_FREQ_OFFSET) with false.
    + apply IH. intros e' He'. apply Hfar. right. exact He'.
    + symmetry. apply not_true_is_false. intros Hin.
      apply within_range_spec in Hin. unfold VHT80_FREQ_OFFSET in Hin.
      specialize (Hfar x (or_introl eq_refl)). lia.
Qed.

Lemma fold_mark_first_at (g : precac_tree -> Z -> precac_tree)
  (l1 l2 : precac_list) (C : Z) :
  (forall e', In e' l1 -> 80 <= Z.abs (vht80_ch_freq e' - C)) ->
  forall (chs : list Z) (t : precac_tree),
    (forall ch, In ch chs -> C - 30 <= ch <= C + 30) ->
    fold_left (mark_first_in_range g) chs (l1 ++ mk_entry C t :: l2)
    = l1 ++ mk_entry C (fold_left g chs t) :: l2.
Proof.
  intros Hfar. induction chs as [| ch chs IH]; intros t Hin; [reflexivity |].
  cbn [fold_left].
  rewrite (mark_first_in_range_at g ch l1 l2 (mk_entry C t)).
  - cbn [vht80_ch_freq tree_root]. apply IH.
    intros ch' Hch'. apply Hin. right. exact Hch'.
  - exact Hfar.
  - cbn [vht80_ch_freq]. apply Hin. left. reflexivity.
Qed.

Ltac status_all HC :=
  match goal with
  | |- context [dfs_find_cac_status_for_chan_for_freq
                  (band_tree ?C ?a ?b ?c ?d1 ?e ?f ?g) _] =>
      let S0 := fresh "S" in let S1 := fresh "S" in let S2 := fresh "S" in
      let T1 := fresh "T" in let T2 := fresh "T" in
      let T3 := fresh "T" in let T4 := fresh "T" in
      destruct (band_tree_status_all C a b c d1 e f g HC) as (S0 & S1 & S2);
      destruct (band_tree_status C a b c d1 e f g HC) as (T1 & T2 & T3 & T4);
      rewrite ?S0, ?S1, ?S2, ?T1, ?T2, ?T3, ?T4; cbn [fst snd];
      clear S0 S1 S2 T1 T2 T3 T4
  end.

Lemma band_mark_done_tree (C : Z) (t : precac_tree) (pri : Z)
  (cw : phy_ch_width) :
  is_band_tree C t ->
  tree_all node_ok t = true -> sum_rule t = true ->
  In (pri, cw) (band_channels C) ->
  exists chs,
    precac_done_channels pri 0 cw = Some chs /\
    (forall ch, In ch chs -> C - 30 <= ch <= C + 30) /\
    forall f bw,
      In (f, bw) (band_nodes C) ->
      span_covers pri (dfs_translate_chwidth_enum2val cw) f bw = true ->
      dfs_find_cac_status_for_chan_for_freq
        (fold_left dfs_mark_tree_node_as_cac_done_for_freq chs t) f = true.
Proof.
  intros Hbt Hok Hs Hp. pose proof Hbt as [HC _].
  destruct (band_tree_inv C t Hbt)
    as ([c0 n0] & [c1 n1] & [c2 n2] & [c3 n3] & [c4 n4] & [c5 n5]
        & [c6 n6] & ->).
  destruct (band_tree_sums _ _ _ _ _ _ _ _ _ _ _ _ _ _ _ Hok Hs)
    as ((B3 & B4 & B5 & B6) & E1 & E2 & E0).
  clear Hok Hs Hbt.
  unfold band_channels in Hp.
  destruct Hp as [Hp | [Hp | [Hp | [Hp | [Hp | [Hp | [Hp | []]]]]]]];
    injection Hp as <- <-;
    unfold precac_done_channels, DFS_5GHZ_NEXT_CHAN_FREQ_OFFSET,
      DFS_5GHZ_2ND_CHAN_FREQ_OFFSET;
    cbv zeta; rewrite ?u16_small by lia;
    (eexists; split; [reflexivity |]);
    (split; [cbn [In]; intros ch Hch; lia |]);
    intros f bw Hin Hcov;
    unfold span_covers, dfs_translate_chwidth_enum2val, DFS_CHWIDTH_80_VAL,
      DFS_CHWIDTH_40_VAL, DFS_CHWIDTH_20_VAL in Hcov;
    apply andb_true_iff in Hcov; rewrite !Z.leb_le in Hcov;
    unfold band_nodes in Hin;
    destruct Hin as [Hin | [Hin | [Hin | [Hin | [Hin | [Hin | [Hin | []]]]]]]];
    injection Hin as <- <-;
    try (exfalso; cbn in Hcov; lia);
    cbn [fold_left];
    replace (C - 20 - 10) with (C - 30) by lia;
    replace (C - 20 + 10) with (C - 10) by lia;
    replace (C + 20 - 10) with (C + 10) by lia;
    replace (C + 20 + 10) with (C + 30) by lia;
    repeat first
      [ rewrite mark_cac_leaf1_sum by lia
      | rewrite mark_cac_leaf2_sum by lia
      | rewrite mark_cac_leaf3_sum by lia
      | rewrite mark_cac_leaf4_sum by lia ];
    status_all HC; apply Z.eqb_eq; lia.
Qed.

Lemma mark_precac_done_then_query_lem (l : precac_list) (e : dfs_precac_entry)
  (pri : Z) (cw : phy_ch_width) :
  forest_wf l -> In e l ->
  tree_all node_ok (tree_root e) = true -> sum_rule (tree_root e) = true ->
  In (pri, cw) (band_channels (vht80_ch_freq e)) -> pri <> 0 ->
  forall f bw,
    In (f, bw) (band_nodes (vht80_ch_freq e)) ->
    span_covers pri (dfs_translate_chwidth_enum2val cw) f bw = true ->
    dfs_is_precac_done_on_ht20_40_80_chan_for_freq
      (dfs_mark_precac_done_for_freq l pri 0 cw) f = true.
Proof.
  intros Hwf He Hok Hs Hp Hnz f bw Hin Hcov.
  destruct (in_split _ _ He) as (l1 & l2 & ->).
  destruct (forest_wf_split _ _ _ Hwf) as [Hbt Hfar].
  destruct (band_mark_done_tree _ _ _ _ Hbt Hok Hs Hp)
    as (chs & Hchs & Hrange & Hst).
  unfold dfs_mark_precac_done_for_freq.
  replace (pri =? 0) with false by (symmetry; apply Z.eqb_neq; exact Hnz).
  rewrite Hchs. unfold mark_precac_done_list.
  destruct e as [C t]. cbn [vht80_ch_freq tree_root] in *.
  rewrite (fold_mark_first_at _ l1 l2 C Hfar chs t Hrange).
  rewrite (precac_done_query_at f l1 l2 (mk_entry C _)).
  - cbn [tree_root]. exact (Hst f bw Hin Hcov).
  - exact Hfar.
  - cbn [vht80_ch_freq]. unfold band_nodes in Hin. destruct Hbt as [HC _].
    destruct Hin as [Hin | [Hin | [Hin | [Hin | [Hin | [Hin | [Hin | []]]]]]]];
      injection Hin as <- <-; lia.
Qed.

(** X11: on a well-formed forest, after mark-CAC-done of a 20, 40 or
    80 MHz channel of a band whose tree has counters within their spans
    and obeys the sum rule, the CAC-done query is true for the centre of
    every node of the band whose span lies inside the channel: the
    channel itself and every narrower channel it contains. *)
Theorem mark_precac_done_then_query (l : precac_list) (e : dfs_precac_entry)
  (pri : Z) (cw : phy_ch_width) :
  forest_wf l -> In e l ->
  tree_all node_ok (tree_root e) = true -> sum_rule (tree_root e) = true ->
  In (pri, cw) (band_channels (vht80_ch_freq e)) -> pri <> 0 ->
  forall f bw,
    In (f, bw) (band_nodes (vht80_ch_freq e)) ->
    span_covers pri (dfs_translate_chwidth_enum2val cw) f bw = true ->
    dfs_is_precac_done_on_ht20_40_80_chan_for_freq
      (dfs_mark_precac_done_for_freq l pri 0 cw) f = true.
Proof. exact (mark_precac_done_then_query_lem l e pri cw). Qed.

Lemma mark_precac_done_then_query_witness :
  let l := dfs_mark_precac_nol_for_freq
             [ mk_entry 5530 (dfs_create_precac_tree_for_freq 5530);
               mk_entry 5290 (dfs_create_precac_tree_for_freq 5290) ]
             [5320] in
  dfs_is_precac_done_on_ht20_40_80_chan_for_freq
    (dfs_mark_precac_done_for_freq l 5270 0 CH_WIDTH_40MHZ) 5280 = true.
Proof.
  cbv zeta.
  set (l := dfs_mark_precac_nol_for_freq
              [ mk_entry 5530 (dfs_create_precac_tree_for_freq 5530);
                mk_entry 5290 (dfs_create_precac_tree_for_freq 5290) ]
              [5320]).
  assert (Hwf : forest_wf l).
  { subst l. apply forest_wf_b_sound. vm_compute. reflexivity. }
  refine (mark_precac_done_then_query l
            (mk_entry 5290
               (dfs_mark_tree_node_as_nol_for_freq
                  (dfs_create_precac_tree_for_freq 5290) 5320))
            5270 CH_WIDTH_40MHZ Hwf _ _ _ _ _ 5280 20 _ _).
  - subst l. vm_compute. right. left. reflexivity.
  - vm_compute. reflexivity.
  - vm_compute. reflexivity.
  - vm_compute. right. left. reflexivity.
  - discriminate.
  - vm_compute. do 4 right. left. reflexivity.
  - vm_compute. reflexivity.
Defined.

(** ** Initialization and reset of the forest *)

Lemma precac_entry_found_spec (C : Z) (l : precac_list) :
  precac_entry_found l C = true <-> In C (map vht80_ch_freq l).
Proof.
  induction l as [| e l IH]; cbn.
  - split; [discriminate | intros []].
  - destruct (Z.eqb_spec (vht80_ch_freq e) C) as [E | E].
    + split; [intros _; left; exact E | reflexivity].
    + rewrite IH. split; [intros H; right; exact H | intros [H | H]; [contradiction | exact H]].
Qed.

Lemma init_precac_step_centres (acc : precac_list) (c : dfs_channel) :
  map vht80_ch_freq (init_precac_step acc c)
  = if is_precac_chan c
       && negb (precac_entry_found acc (dfs_ch_mhz_freq_seg1 c))
    then map vht80_ch_freq acc ++ [dfs_ch_mhz_freq_seg1 c]
    else map vht80_ch_freq acc.
Proof.
  unfold init_precac_step, is_precac_chan.
  destruct (WLAN_IS_CHAN_11AC_VHT80 c && WLAN_IS_CHAN_DFS c); [| reflexivity].
  destruct (precac_entry_found acc (dfs_ch_mhz_freq_seg1 c));
    destruct (dfs_ch_mhz_freq_seg1 c =? 0); cbn; try reflexivity.
  rewrite map_app. reflexivity.
Qed.

Lemma init_fold_centres (chans : list dfs_channel) :
  forall acc : precac_list,
    NoDup (map vht80_ch_freq acc) ->
    let l := fold_left init_precac_step chans acc in
    NoDup (map vht80_ch_freq l) /\
    forall C, In C (map vht80_ch_freq l) <->
              In C (map vht80_ch_freq acc) \/
              exists c, In c chans /\ is_precac_chan c = true /\
                        dfs_ch_mhz_freq_seg1 c = C.
Proof.
  induction chans as [| c chans IH]; intros acc Hnd; cbn [fold_left].
  - split; [exact Hnd |]. intros C. split; [auto |].
    intros [H | (c & [] & _)]. exact H.
  - assert (Hstep : NoDup (map vht80_ch_freq (init_precac_step acc c))).
    { rewrite init_precac_step_centres.
      destruct (is_precac_chan c); cbn [andb]; [| exact Hnd].
      destruct (precac_entry_found acc (dfs_ch_mhz_freq_seg1 c)) eqn:Hf;
        cbn [negb]; [exact Hnd |].
      apply NoDup_app; [exact Hnd | repeat constructor; intros [] |].
      intros x Hx [<- | []].
      apply precac_entry_found_spec in Hx. congruence. }
    destruct (IH _ Hstep) as [Hnd' Hin]. split; [exact Hnd' |].
    intros C. rewrite Hin, init_precac_step_centres. clear Hin IH.
    destruct (is_precac_chan c) eqn:Hc; cbn [andb].
    + destruct (precac_entry_found acc (dfs_ch_mhz_freq_seg1 c)) eqn:Hf;
        cbn [negb].
      * apply precac_entry_found_spec in Hf. split.
        -- intros [H | (c' & Hc' & H)]; [left; exact H |].
           right. exists c'. split; [right; exact Hc' | exact H].
        -- intros [H | (c' & [<- | Hc'] & Hp & <-)]; [left; exact H | |].
           ++ left. exact Hf.
           ++ right. exists c'. auto.
      * rewrite in_app_iff. cbn [In]. split.
        -- intros [[H | [<- | []]] | (c' & Hc' & H)].
           ++ left. exact H.
           ++ right. exists c. split; [left; reflexivity | auto].
           ++ right. exists c'. split; [right; exact Hc' | exact H].
        -- intros [H | (c' & [<- | Hc'] & Hp & <-)].
           ++ left. left. exact H.
           ++ left. right. left. reflexivity.
           ++ right. exists c'. auto.
    + split.
      * intros [H | (c' & Hc' & H)]; [left; exact H |].
        right. exists c'. split; [right; exact Hc' | exact H].
      * intros [H | (c' & [<- | Hc'] & Hp & <-)]; [left; exact H | congruence |].
        right. exists c'. auto.
Qed.

Lemma init_precac_list_entries_spec (chans : list dfs_channel)
  (old : precac_list) :
  let l := dfs_init_precac_list DFS_ETSI_DOMAIN chans old in
  NoDup (map vht80_ch_freq l) /\
  (forall C, In C (map vht80_ch_freq l) <->
             exists c, In c chans /\ WLAN_IS_CHAN_11AC_VHT80 c = true /\
                       WLAN_IS_CHAN_DFS c = true /\
                       dfs_ch_mhz_freq_seg1 c = C /\ C <> 0) /\
  (forall e, In e l ->
     tree_root e = dfs_create_precac_tree_for_freq (vht80_ch_freq e)).
Proof.
  cbv zeta. unfold dfs_init_precac_list. cbn [is_etsi negb].
  destruct (init_fold_centres chans [] (NoDup_nil _)) as [Hnd Hin].
  split; [exact Hnd |]. split.
  - intros C. rewrite Hin. cbn [map In]. unfold is_precac_chan. split.
    + intros [[] | (c & Hc & Hp & <-)].
      rewrite !andb_true_iff, negb_true_iff, Z.eqb_neq in Hp.
      exists c. tauto.
    + intros (c & Hc & H1 & H2 & <- & H0). right. exists c.
      rewrite !andb_true_iff, negb_true_iff, Z.eqb_neq. tauto.
  - apply init_precac_list_trees. intros e [].
Qed.

(** X3: in the ETSI domain the initialized forest has one entry for
    every non-zero 80 MHz centre of a VHT80 DFS channel of the regulatory
    list and no other entry, no centre twice, and every entry holds the
    tree built for its centre. *)
Theorem init_precac_list_entries (chans : list dfs_channel)
  (old : precac_list) :
  let l := dfs_init_precac_list DFS_ETSI_DOMAIN chans old in
  NoDup (map vht80_ch_freq l) /\
  (forall C, In C (map vht80_ch_freq l) <->
             exists c, In c chans /\ WLAN_IS_CHAN_11AC_VHT80 c = true /\
                       WLAN_IS_CHAN_DFS c = true /\
                       dfs_ch_mhz_freq_seg1 c = C /\ C <> 0) /\
  (forall e, In e l ->
     tree_root e = dfs_create_precac_tree_for_freq (vht80_ch_freq e)).
Proof. exact (init_precac_list_entries_spec chans old). Qed.

Lemma forest_wf_of_distinct (l : precac_list) :
  (forall e, In e l -> is_band_tree (vht80_ch_freq e) (tree_root e)) ->
  NoDup (map vht80_ch_freq l) ->
  (forall e e', In e l -> In e' l -> vht80_ch_freq e <> vht80_ch_freq e' ->
     80 <= Z.abs (vht80_ch_freq e - vht80_ch_freq e')) ->
  forest_wf l.
Proof.
  induction l as [| e l IH]; intros Hbt Hnd Hfar; [exact I |].
  cbn [map] in Hnd. inversion Hnd as [| ? ? Hnotin Hnd']; subst.
  cbn [forest_wf]. split; [apply Hbt; left; reflexivity |]. split.
  - intros e' He'. apply Hfar; [left; reflexivity | right; exact He' |].
    intros E. apply Hnotin. rewrite E. apply in_map. exact He'.
  - apply IH; [| exact Hnd' |].
    + intros x Hx. apply Hbt. right. exact Hx.
    + intros x y Hx Hy. apply Hfar; right; assumption.
Qed.

Lemma init_precac_list_wf (chans : list dfs_channel) (old : precac_list) :
  regulatory_raster chans ->
  forest_wf (dfs_init_precac_list DFS_ETSI_DOMAIN chans old).
Proof.
  intros [Hrange Hfar].
  destruct (init_precac_list_entries_spec chans old) as (Hnd & Hin & Htree).
  cbv zeta in Hnd, Hin, Htree.
  assert (Hsrc : forall e,
            In e (dfs_init_precac_list DFS_ETSI_DOMAIN chans old) ->
            exists c, In c chans /\ is_precac_chan c = true /\
                      dfs_ch_mhz_freq_seg1 c = vht80_ch_freq e).
  { intros e He. apply (in_map vht80_ch_freq) in He. apply Hin in He.
    destruct He as (c & Hc & H1 & H2 & H3 & H0). exists c.
    unfold is_precac_chan.
    rewrite H1, H2, H3. cbn [andb].
    split; [exact Hc |]. split; [| reflexivity].
    apply negb_true_iff, Z.eqb_neq. exact H0. }
  apply forest_wf_of_distinct.
  - intros e He. destruct (Hsrc e He) as (c & Hc & Hp & E).
    assert (HC : 30 <= vht80_ch_freq e <= 65505)
      by (rewrite <- E; apply Hrange; assumption).
    split; [exact HC |]. rewrite (Htree e He).
    rewrite (create_precac_tree_explicit _ HC). reflexivity.
  - exact Hnd.
  - intros e e' He He' Hne.
    destruct (Hsrc e He) as (c & Hc & Hp & E).
    destruct (Hsrc e' He') as (c' & Hc' & Hp' & E').
    rewrite <- E, <- E'. apply Hfar; try assumption. congruence.
Qed.

Lemma apply_forest_op_wf (l : precac_list) (op : forest_op) :
  forest_wf l -> forest_wf (apply_forest_op l op).
Proof.
  intros Hwf. destruct op as [pri sec w | freqs | f]; cbn [apply_forest_op].
  - unfold dfs_mark_precac_done_for_freq.
    destruct (pri =? 0); [exact Hwf |].
    destruct (precac_done_channels pri sec w); [| exact Hwf].
    apply forest_wf_mutators. exact Hwf.
  - apply forest_wf_mutators. exact Hwf.
  - unfold dfs_unmark_precac_nol_for_freq.
    apply forest_wf_mark_first; [| exact Hwf].
    intros t. apply skeleton_unmark_nol.
Qed.

(** X4: when the 80 MHz centres of the regulatory list lie in
    [30, 65505] and distinct ones are at least 80 MHz apart, the forest
    initialized in the ETSI domain, and every forest reached from it by
    forest-level mark-CAC-done, mark-NOL and unmark-NOL, is a forest of
    band trees over centres at least 80 MHz apart. *)
Theorem reachable_forest_wf (chans : list dfs_channel) (old : precac_list)
  (ops : list forest_op) :
  regulatory_raster chans ->
  forest_wf (fold_left apply_forest_op ops
               (dfs_init_precac_list DFS_ETSI_DOMAIN chans old)).
Proof.
  intros Hr. pose proof (init_precac_list_wf chans old Hr) as Hwf.
  revert Hwf. generalize (dfs_init_precac_list DFS_ETSI_DOMAIN chans old).
  induction ops as [| op ops IH]; intros l Hwf; [exact Hwf |].
  cbn [fold_left]. apply IH. apply apply_forest_op_wf. exact Hwf.
Qed.

Lemma reachable_forest_wf_witness :
  forest_wf
    (fold_left apply_forest_op
       [ForestMarkDone 5260 0 CH_WIDTH_20MHZ; ForestMarkNol [5500];
        ForestUnmarkNol 5500]
       (dfs_init_precac_list DFS_ETSI_DOMAIN
          [chan_5260_vht80; mk_chan 5500 MODE_80 true 5530 0] [])).
Proof.
  apply reachable_forest_wf. split.
  - intros c [<- | [<- | []]] _; vm_compute; split; discriminate.
  - intros c c' [<- | [<- | []]] [<- | [<- | []]] _ _ Hne;
      vm_compute in Hne |- *; try contradiction; discriminate.
Defined.





(** ** Preferred channel and channel state *)

Lemma precac_extract_first_spec (C : Z) :
  forall l : precac_list,
    match precac_extract_first l C with
    | Some (x, rest) =>
        exists l1 l2, l = l1 ++ x :: l2 /\ rest = l1 ++ l2 /\
                      vht80_ch_freq x = C /\
                      forall e, In e l1 -> vht80_ch_freq e <> C
    | None => forall e, In e l -> vht80_ch_freq e <> C
    end.
Proof.
  induction l as [| e l IH]; cbn [precac_extract_first].
  - intros e [].
  - destruct (Z.eqb_spec (vht80_ch_freq e) C) as [E | E].
    + exists [], l. repeat split; try assumption. intros x [].
    + destruct (precac_extract_first l C) as [[x rest] |].
      * destruct IH as (l1 & l2 & -> & -> & Hx & Hl1).
        exists (e :: l1), l2. repeat split; try assumption.
        intros y [<- | Hy]; [exact E | apply Hl1; exact Hy].
      * intros y [<- | Hy]; [exact E | apply IH; exact Hy].
Qed.

Lemma precac_move_to_head_perm (l : precac_list) (C : Z) :
  Permutation (fst (precac_move_to_head l C)) l.
Proof.
  unfold precac_move_to_head.
  pose proof (precac_extract_first_spec C l) as H.
  destruct (precac_extract_first l C) as [[x rest] |]; cbn [fst].
  - destruct H as (l1 & l2 & -> & -> & _). apply Permutation_middle.
  - reflexivity.
Qed.

Lemma set_precac_preferred_channel_perm (D sec : Z) (dfs : wlan_dfs)
  (chan : dfs_channel) :
  Permutation (dfs_set_precac_preferred_channel D sec dfs chan)
              (dfs_precac_list dfs).
Proof.
  unfold dfs_set_precac_preferred_channel.
  destruct (dfs_precac_timer_running (dfs_soc_obj dfs)
            && WLAN_IS_CHAN_MODE_80 chan && (sec =? dfs_ch_freq chan));
    [reflexivity |].
  set (l1 := if WLAN_IS_CHAN_DFS chan && negb (is_nil (dfs_precac_list dfs))
             then fst (precac_move_to_head (dfs_precac_list dfs)
                         (dfs_ch_mhz_freq_seg1 chan))
             else dfs_precac_list dfs).
  assert (H1 : Permutation l1 (dfs_precac_list dfs)).
  { subst l1.
    destruct (WLAN_IS_CHAN_DFS chan && negb (is_nil (dfs_precac_list dfs)));
      [apply precac_move_to_head_perm | reflexivity]. }
  destruct (WLAN_IS_CHAN_MODE_160 chan && WLAN_IS_CHAN_DFS chan
            && negb (is_nil l1)); [| exact H1].
  etransitivity; [apply precac_move_to_head_perm | exact H1].
Qed.

Lemma forest_wf_forall (l : precac_list) :
  forest_wf l <->
  (forall e, In e l -> is_band_tree (vht80_ch_freq e) (tree_root e)) /\
  ForallOrdPairs
    (fun e e' => 80 <= Z.abs (vht80_ch_freq e - vht80_ch_freq e')) l.
Proof.
  induction l as [| e l IH]; cbn [forest_wf].
  - split; [intros _; split; [intros e [] | constructor] | trivial].
  - rewrite IH. split.
    + intros (Hbt & Hfar & Hall & Hp). split.
      * intros x [<- | Hx]; [exact Hbt | apply Hall; exact Hx].
      * constructor; [apply Forall_forall; exact Hfar | exact Hp].
    + intros (Hall & Hp). inversion Hp as [| ? ? Hfar Hp']; subst.
      split; [apply Hall; left; reflexivity |].
      split; [apply Forall_forall; exact Hfar |].
      split; [intros x Hx; apply Hall; right; exact Hx | exact Hp'].
Qed.

Lemma forest_wf_perm (l l' : precac_list) :
  Permutation l l' -> forest_wf l -> forest_wf l'.
Proof.
  intros Hp. rewrite !forest_wf_forall. intros [Hall Hpairs]. split.
  - intros e He. apply Hall. apply (Permutation_in _ (Permutation_sym Hp) He).
  - clear Hall. induction Hp as [| x l l' Hp IH | x y l | l l' l'' H1 IH1 H2 IH2].
    + constructor.
    + inversion Hpairs as [| ? ? Hx Hrest]; subst.
      constructor; [| apply IH; exact Hrest].
      apply Forall_forall. intros e He. rewrite Forall_forall in Hx.
      apply Hx. apply (Permutation_in _ (Permutation_sym Hp) He).
    + inversion Hpairs as [| ? ? Hy Hrest]; subst.
      inversion Hrest as [| ? ? Hx Hrest']; subst.
      inversion Hy as [| ? ? Hyx Hyl]; subst.
      constructor; [| constructor; assumption].
      constructor; [| exact Hx].
      replace (vht80_ch_freq x - vht80_ch_freq y)
        with (- (vht80_ch_freq y - vht80_ch_freq x)) by lia.
      rewrite Z.abs_opp. exact Hyx.
    + apply IH2, IH1. exact Hpairs.
Qed.

Lemma forest_wf_far (l : precac_list) (e e' : dfs_precac_entry) :
  forest_wf l -> In e l -> In e' l -> e <> e' ->
  80 <= Z.abs (vht80_ch_freq e - vht80_ch_freq e').
Proof.
  induction l as [| x l IH]; [intros _ [] |].
  intros (Hbt & Hfar & Hwf) [<- | He] [<- | He'] Hne.
  - congruence.
  - apply Hfar. exact He'.
  - replace (vht80_ch_freq e - vht80_ch_freq x)
      with (- (vht80_ch_freq x - vht80_ch_freq e)) by lia.
    rewrite Z.abs_opp. apply Hfar. exact He.
  - apply IH; assumption.
Qed.

(** On a well-formed forest the CAC-done query is answered by the only
    band in range, wherever it stands in the list. *)
Lemma precac_done_query_in (l : precac_list) (e : dfs_precac_entry) (f : Z) :
  forest_wf l -> In e l ->
  vht80_ch_freq e - 30 <= f <= vht80_ch_freq e + 30 ->
  dfs_is_precac_done_on_ht20_40_80_chan_for_freq l f
  = dfs_find_cac_status_for_chan_for_freq (tree_root e) f.
Proof.
  intros Hwf He Hf. destruct (in_split _ _ He) as (l1 & l2 & ->).
  apply precac_done_query_at; [| exact Hf].
  apply (forest_wf_split l1 l2 e Hwf).
Qed.

Lemma precac_done_query_none (l : precac_list) (f : Z) :
  (forall e, In e l ->
     IS_WITHIN_RANGE f (vht80_ch_freq e) VHT80_FREQ_OFFSET = false) ->
  dfs_is_precac_done_on_ht20_40_80_chan_for_freq l f = false.
Proof.
  induction l as [| e l IH]; intros H; [reflexivity |].
  cbn [dfs_is_precac_done_on_ht20_40_80_chan_for_freq].
  rewrite (H e (or_introl eq_refl)). apply IH.
  intros x Hx. apply H. right. exact Hx.
Qed.

Lemma precac_done_query_perm (l l' : precac_list) (f : Z) :
  Permutation l l' -> forest_wf l ->
  dfs_is_precac_done_on_ht20_40_80_chan_for_freq l' f
  = dfs_is_precac_done_on_ht20_40_80_chan_for_freq l f.
Proof.
  intros Hp Hwf. pose proof (forest_wf_perm l l' Hp Hwf) as Hwf'.
  destruct (existsb (fun e => IS_WITHIN_RANGE f (vht80_ch_freq e)
                                VHT80_FREQ_OFFSET) l) eqn:Hex.
  - apply existsb_exists in Hex. destruct Hex as (e & He & Hin).
    apply within_range_spec in Hin. unfold VHT80_FREQ_OFFSET in Hin.
    rewrite (precac_done_query_in l e f Hwf He Hin).
    apply precac_done_query_in; [exact Hwf' | | exact Hin].
    apply (Permutation_in _ Hp He).
  - assert (Hnone : forall e, In e l ->
              IS_WITHIN_RANGE f (vht80_ch_freq e) VHT80_FREQ_OFFSET = false).
    { intros e He. apply not_true_is_false. intros Hin.
      assert (Hc : existsb (fun e => IS_WITHIN_RANGE f (vht80_ch_freq e)
                                       VHT80_FREQ_OFFSET) l = true)
        by (apply existsb_exists; exists e; auto).
      congruence. }
    rewrite (precac_done_query_none l f Hnone).
    apply precac_done_query_none. intros e He. apply Hnone.
    apply (Permutation_in _ (Permutation_sym Hp) He).
Qed.

(** X12: setting the preferred channel only reorders the preCAC list:
    the result is a permutation of the list, a well-formed forest stays
    well formed, and the CAC-done query answers the same for every
    frequency. *)
Theorem set_precac_preferred_channel_reorders (D sec : Z) (dfs : wlan_dfs)
  (chan : dfs_channel) :
  forest_wf (dfs_precac_list dfs) ->
  let l' := dfs_set_precac_preferred_channel D sec dfs chan in
  Permutation l' (dfs_precac_list dfs) /\ forest_wf l' /\
  forall f,
    dfs_is_precac_done_on_ht20_40_80_chan_for_freq l' f
    = dfs_is_precac_done_on_ht20_40_80_chan_for_freq (dfs_precac_list dfs) f.
Proof.
  intros Hwf l'. subst l'.
  pose proof (set_precac_preferred_channel_perm D sec dfs chan) as Hp.
  split; [exact Hp |]. split.
  - apply (forest_wf_perm _ _ (Permutation_sym Hp) Hwf).
  - intros f. apply precac_done_query_perm; [| exact Hwf].
    apply Permutation_sym. exact Hp.
Qed.

Lemma set_precac_preferred_channel_reorders_witness :
  let dfs := mk_dfs (-1) 0 chan_5260_vht80
               [ mk_entry 5290 (dfs_create_precac_tree_for_freq 5290);
                 mk_entry 5530 (dfs_create_precac_tree_for_freq 5530) ]
               soc_idle in
  let l' := dfs_set_precac_preferred_channel 80 0 dfs
              (mk_chan 5500 MODE_80 true 5530 0) in
  Permutation l' (dfs_precac_list dfs) /\ forest_wf l' /\
  forall f,
    dfs_is_precac_done_on_ht20_40_80_chan_for_freq l' f
    = dfs_is_precac_done_on_ht20_40_80_chan_for_freq (dfs_precac_list dfs) f.
Proof.
  cbv zeta. apply set_precac_preferred_channel_reorders.
  apply forest_wf_b_sound. vm_compute. reflexivity.
Defined.

(** X13: for a DFS channel of a mode other than 160 MHz whose 80 MHz
    centre has an entry, unless the preCAC timer runs on that very
    channel, the first entry with that centre is moved to the head and
    the other entries keep their order; the selection then returns the
    candidate of that band whenever the band has one. *)
Theorem preferred_band_is_asked_first (D sec : Z) (dfs : wlan_dfs)
  (chan : dfs_channel) :
  dfs_precac_timer_running (dfs_soc_obj dfs) && WLAN_IS_CHAN_MODE_80 chan
  && (sec =? dfs_ch_freq chan) = false ->
  WLAN_IS_CHAN_DFS chan = true ->
  WLAN_IS_CHAN_MODE_160 chan = false ->
  In (dfs_ch_mhz_freq_seg1 chan) (map vht80_ch_freq (dfs_precac_list dfs)) ->
  exists x l1 l2,
    dfs_precac_list dfs = l1 ++ x :: l2 /\
    vht80_ch_freq x = dfs_ch_mhz_freq_seg1 chan /\
    (forall e, In e l1 -> vht80_ch_freq e <> dfs_ch_mhz_freq_seg1 chan) /\
    dfs_set_precac_preferred_channel D sec dfs chan = x :: l1 ++ l2 /\
    forall curchan ep es bw,
      dfs_find_ieee_ch_from_precac_tree_for_freq curchan (tree_root x) bw
      <> 0 ->
      dfs_get_ieeechan_for_precac_for_freq curchan
        (dfs_set_precac_preferred_channel D sec dfs chan) ep es bw
      = dfs_find_ieee_ch_from_precac_tree_for_freq curchan (tree_root x) bw.
Proof.
  intros Hearly Hdfs H160 Hin.
  unfold dfs_set_precac_preferred_channel. rewrite Hearly, Hdfs, H160.
  cbn [andb].
  assert (Hne : is_nil (dfs_precac_list dfs) = false)
    by (destruct (dfs_precac_list dfs); [destruct Hin | reflexivity]).
  rewrite Hne. cbn [negb]. unfold precac_move_to_head.
  pose proof (precac_extract_first_spec (dfs_ch_mhz_freq_seg1 chan)
                (dfs_precac_list dfs)) as H.
  destruct (precac_extract_first (dfs_precac_list dfs)
              (dfs_ch_mhz_freq_seg1 chan)) as [[x rest] |].
  - destruct H as (l1 & l2 & Hl & -> & Hx & Hl1). cbn [fst].
    exists x, l1, l2. repeat split; try assumption.
    intros curchan ep es bw Hnz.
    cbn [dfs_get_ieeechan_for_precac_for_freq].
    replace (dfs_find_ieee_ch_from_precac_tree_for_freq curchan
               (tree_root x) bw =? 0) with false
      by (symmetry; apply Z.eqb_neq; exact Hnz).
    reflexivity.
  - exfalso. apply in_map_iff in Hin. destruct Hin as (e & He & Hin).
    exact (H e Hin He).
Qed.

Lemma preferred_band_is_asked_first_witness :
  let dfs := mk_dfs (-1) 0 chan_5260_vht80
               [ mk_entry 5290 (dfs_create_precac_tree_for_freq 5290);
                 mk_entry 5530 (dfs_create_precac_tree_for_freq 5530) ]
               soc_idle in
  let chan := mk_chan 5500 MODE_80 true 5530 0 in
  exists x l1 l2,
    dfs_precac_list dfs = l1 ++ x :: l2 /\
    vht80_ch_freq x = dfs_ch_mhz_freq_seg1 chan /\
    (forall e, In e l1 -> vht80_ch_freq e <> dfs_ch_mhz_freq_seg1 chan) /\
    dfs_set_precac_preferred_channel 80 0 dfs chan = x :: l1 ++ l2 /\
    forall curchan ep es bw,
      dfs_find_ieee_ch_from_precac_tree_for_freq curchan (tree_root x) bw
      <> 0 ->
      dfs_get_ieeechan_for_precac_for_freq curchan
        (dfs_set_precac_preferred_channel 80 0 dfs chan) ep es bw
      = dfs_find_ieee_ch_from_precac_tree_for_freq curchan (tree_root x) bw.
Proof.
  cbv zeta. apply preferred_band_is_asked_first.
  - reflexivity.
  - reflexivity.
  - reflexivity.
  - vm_compute. right. left. reflexivity.
Defined.

(** Classification of the root of the band of [C]. *)
Lemma precac_root_state_spec (C : Z) (l : precac_list) :
  forest_wf l ->
  (precac_root_state l C = Some PRECAC_ERR /\
   ~ In C (map vht80_ch_freq l))
  \/
  exists e c0 n0 a b,
    In e l /\ vht80_ch_freq e = C /\
    tree_root e = Node (mk_node C c0 n0 4 80) a b /\
    precac_root_state l C =
    Some (if negb (n0 =? 0) then PRECAC_NOL
          else if c0 =? 4 then PRECAC_DONE else PRECAC_REQUIRED) /\
    dfs_is_precac_done_on_ht20_40_80_chan_for_freq l C = (c0 =? 4).
Proof.
  intros Hwf. induction l as [| e l IH].
  - left. split; [reflexivity | intros []].
  - pose proof Hwf as (Hbt & Hfar & Hwf').
    cbn [precac_root_state]. 
    destruct (Z.eqb_spec (vht80_ch_freq e) C) as [E | E].
    + right. pose proof Hbt as [HC _].
      destruct (band_tree_inv _ _ Hbt)
        as ([c0 n0] & k40l & k40r & k1 & k2 & k3 & k4 & Ht).
      rewrite E in Ht, HC. exists e, c0, n0.
      rewrite Ht. unfold band_tree. cbn [fst snd].
      do 2 eexists. split; [left; reflexivity |].
      split; [exact E |]. split; [reflexivity |].
      cbn [n_nol_subchs n_caced_subchs bandwidth].
      change (N_SUBCHS_FOR_BANDWIDTH 80) with 4.
      split; [destruct (n0 =? 0), (c0 =? 4); reflexivity |].
      cbn [dfs_is_precac_done_on_ht20_40_80_chan_for_freq].
      replace (IS_WITHIN_RANGE C (vht80_ch_freq e) VHT80_FREQ_OFFSET)
        with true
        by (symmetry; apply within_range_spec; unfold VHT80_FREQ_OFFSET; lia).
      rewrite Ht. 
      exact (proj1 (band_tree_status_all C (c0, n0) k40l k40r k1 k2 k3 k4 HC)).
    + destruct (IH Hwf') as [[Herr Hnin] | (e' & c0 & n0 & a & b & He' & Hc & Ht & Hs & Hq)].
      * left. split; [exact Herr |]. cbn [map In]. tauto.
      * right. exists e', c0, n0, a, b.
        split; [right; exact He' |]. split; [exact Hc |].
        split; [exact Ht |]. split; [exact Hs |].
        cbn [dfs_is_precac_done_on_ht20_40_80_chan_for_freq].
        replace (IS_WITHIN_RANGE C (vht80_ch_freq e) VHT80_FREQ_OFFSET)
          with false; [exact Hq |].
        symmetry. apply not_true_is_false. intros Hin.
        apply within_range_spec in Hin. unfold VHT80_FREQ_OFFSET in Hin.
        specialize (Hfar e' He'). lia.
Qed.

(** X14: on a well-formed forest the channel state of a frequency the
    regulatory lookup knows is always defined, and agrees with the
    CAC-done query on the 80 MHz centre of the channel: DONE only when the
    query is true, REQUIRED only when it is false, NOL only when the root
    of the band has a NOL sub-channel, NOW only when the timer runs and
    the band is at the head of the list, ERR only for a non-DFS channel
    or a centre without an entry. *)
Theorem precac_chan_state_agrees_with_query
  (find_dot11_chan : Z -> option dfs_channel) (dfs : wlan_dfs)
  (pcac_freq : Z) (chan : dfs_channel) :
  forest_wf (dfs_precac_list dfs) ->
  find_dot11_chan pcac_freq = Some chan ->
  let l := dfs_precac_list dfs in
  let C := dfs_ch_mhz_freq_seg1 chan in
  exists s,
    dfs_get_precac_chan_state_for_freq find_dot11_chan dfs pcac_freq = Some s
    /\ (s = PRECAC_DONE ->
        dfs_is_precac_done_on_ht20_40_80_chan_for_freq l C = true)
    /\ (s = PRECAC_REQUIRED ->
        dfs_is_precac_done_on_ht20_40_80_chan_for_freq l C = false)
    /\ (s = PRECAC_NOL ->
        exists e, In e l /\ vht80_ch_freq e = C /\ nol_of (tree_root e) <> 0)
    /\ (s = PRECAC_NOW ->
        dfs_precac_timer_running (dfs_soc_obj dfs) = true /\
        exists e rest, l = e :: rest /\ vht80_ch_freq e = C)
    /\ (s = PRECAC_ERR ->
        WLAN_IS_CHAN_DFS chan = false \/ ~ In C (map vht80_ch_freq l)).
Proof.
  intros Hwf Hfind l C. subst l C.
  unfold dfs_get_precac_chan_state_for_freq. rewrite Hfind.
  destruct (WLAN_IS_CHAN_DFS chan) eqn:Hdfs; cbn [negb].
  2:{ exists PRECAC_ERR. split; [reflexivity |].
      repeat split; try discriminate. intros _. left. reflexivity. }
  destruct (dfs_precac_timer_running (dfs_soc_obj dfs)
            && match dfs_precac_list dfs with
               | [] => false
               | e :: _ => vht80_ch_freq e =? dfs_ch_mhz_freq_seg1 chan
               end) eqn:Hnow.
  - exists PRECAC_NOW. split; [reflexivity |].
    repeat split; try discriminate.
    + apply andb_true_iff in Hnow. tauto.
    + apply andb_true_iff in Hnow. destruct Hnow as [_ Hhd].
      destruct (dfs_precac_list dfs) as [| e rest]; [discriminate |].
      exists e, rest. split; [reflexivity | apply Z.eqb_eq; exact Hhd].
  - destruct (precac_root_state_spec (dfs_ch_mhz_freq_seg1 chan) _ Hwf)
      as [[Herr Hnin] | (e & c0 & n0 & a & b & He & Hc & Ht & Hs & Hq)].
    + exists PRECAC_ERR. split; [exact Herr |].
      repeat split; try discriminate. intros _. right. exact Hnin.
    + eexists. split; [exact Hs |].
      destruct (Z.eqb_spec n0 0) as [En | En]; cbn [negb];
        [destruct (Z.eqb_spec c0 4) as [Ec | Ec] |];
        repeat split; try discriminate; intros _.
      * exact Hq.
      * exact Hq.
      * exists e. repeat split; try assumption. rewrite Ht. exact En.
Qed.

Lemma precac_chan_state_agrees_with_query_witness :
  let dfs := mk_dfs (-1) 0 chan_5260_vht80
               (dfs_mark_precac_done_for_freq
                  [mk_entry 5290 (dfs_create_precac_tree_for_freq 5290)]
                  5290 0 CH_WIDTH_80MHZ)
               soc_idle in
  dfs_get_precac_chan_state_for_freq sample_find_dot11_chan dfs 5260
  = Some PRECAC_DONE /\
  dfs_is_precac_done_on_ht20_40_80_chan_for_freq (dfs_precac_list dfs) 5290
  = true.
Proof.
  cbv zeta.
  set (dfs := mk_dfs (-1) 0 chan_5260_vht80
                (dfs_mark_precac_done_for_freq
                   [mk_entry 5290 (dfs_create_precac_tree_for_freq 5290)]
                   5290 0 CH_WIDTH_80MHZ)
                soc_idle).
  assert (Hwf : forest_wf (dfs_precac_list dfs)).
  { apply forest_wf_b_sound. vm_compute. reflexivity. }
  destruct (precac_chan_state_agrees_with_query sample_find_dot11_chan dfs
              5260 chan_5260_vht80 Hwf eq_refl)
    as (s & Hs & Hdone & _).
  assert (E : s = PRECAC_DONE).
  { vm_compute in Hs. injection Hs as <-. reflexivity. }
  split; [rewrite Hs, E; reflexivity | exact (Hdone E)].
Defined.

(** ** Frame of the forest operations *)

Lemma forest_shape_mark_first (g : precac_tree -> Z -> precac_tree) (f : Z) :
  (forall t, skeleton (g t f) = skeleton t) ->
  forall l, forest_shape (mark_first_in_range g l f) = forest_shape l.
Proof.
  intros Hg. induction l as [| e l IH]; [reflexivity |].
  cbn [mark_first_in_range].
  destruct (IS_WITHIN_RANGE f (vht80_ch_freq e) VHT80_FREQ_OFFSET).
  - unfold forest_shape. cbn [map vht80_ch_freq tree_root].
    rewrite Hg. reflexivity.
  - unfold forest_shape in *. cbn [map]. rewrite IH. reflexivity.
Qed.

Lemma forest_shape_fold (g : precac_tree -> Z -> precac_tree) :
  (forall t f, skeleton (g t f) = skeleton t) ->
  forall freqs l,
    forest_shape (fold_left (mark_first_in_range g) freqs l) = forest_shape l.
Proof.
  intros Hg. induction freqs as [| f freqs IH]; intros l; [reflexivity |].
  cbn [fold_left]. rewrite IH. apply forest_shape_mark_first.
  intros t. apply Hg.
Qed.

(** X6: no sequence of forest-level mark-CAC-done, mark-NOL and
    unmark-NOL adds, removes or reorders a band, or changes the place,
    centre, bandwidth or valid count of any node of any tree. *)
Theorem forest_ops_keep_shape (ops : list forest_op) :
  forall l : precac_list,
    forest_shape (fold_left apply_forest_op ops l) = forest_shape l.
Proof.
  induction ops as [| op ops IH]; intros l; [reflexivity |].
  cbn [fold_left]. rewrite IH.
  destruct op as [pri sec w | freqs | f]; cbn [apply_forest_op].
  - unfold dfs_mark_precac_done_for_freq.
    destruct (pri =? 0); [reflexivity |].
    destruct (precac_done_channels pri sec w); [| reflexivity].
    apply forest_shape_fold. intros t g. apply skeleton_mark_cac_done.
  - apply forest_shape_fold. intros t g. apply skeleton_mark_nol_loop.
  - apply forest_shape_mark_first. intros t. apply skeleton_unmark_nol.
Qed.

Lemma mark_cac_done_loop_nol_all (f : Z) :
  forall t,
    map n_nol_subchs (tree_nodes (mark_cac_done_loop t f))
    = map n_nol_subchs (tree_nodes t).
Proof.
  induction t as [| d l IHl r IHr]; [reflexivity |].
  cbn [mark_cac_done_loop].
  set (d' := if n_caced_subchs d <? N_SUBCHS_FOR_BANDWIDTH (bandwidth d)
             then set_caced d (u8 (n_caced_subchs d + 1)) else d).
  assert (Hn : n_nol_subchs d' = n_nol_subchs d)
    by (subst d';
        destruct (n_caced_subchs d <? N_SUBCHS_FOR_BANDWIDTH (bandwidth d));
        reflexivity).
  destruct (f <? ch_freq d); cbn [tree_nodes map]; rewrite Hn, !map_app;
    congruence.
Qed.

Lemma unmark_nol_caced_all (f : Z) :
  forall t,
    map n_caced_subchs (tree_nodes (dfs_unmark_tree_node_as_nol_for_freq t f))
    = map n_caced_subchs (tree_nodes t).
Proof.
  induction t as [| d l IHl r IHr]; [reflexivity |].
  cbn [dfs_unmark_tree_node_as_nol_for_freq].
  destruct (n_nol_subchs d =? 0); [reflexivity |].
  destruct (f <? ch_freq d); cbn [tree_nodes map set_nol n_caced_subchs];
    rewrite !map_app; congruence.
Qed.

(** X7: mark-CAC-done changes no NOL counter of any node, and unmark-NOL
    changes no CAC-done counter of any node, on every tree and for every
    frequency. *)
Theorem cac_and_nol_counters_frame (t : precac_tree) (f : Z) :
  map n_nol_subchs
    (tree_nodes (dfs_mark_tree_node_as_cac_done_for_freq t f))
  = map n_nol_subchs (tree_nodes t)
  /\ map n_caced_subchs
       (tree_nodes (dfs_unmark_tree_node_as_nol_for_freq t f))
     = map n_caced_subchs (tree_nodes t).
Proof.
  split; [| apply unmark_nol_caced_all].
  unfold dfs_mark_tree_node_as_cac_done_for_freq.
  destruct t as [| d l r]; [reflexivity |].
  destruct (dfs_is_tree_node_marked_as_cac_for_freq (Node d l r) f);
    [reflexivity | apply mark_cac_done_loop_nol_all].
Qed.

(** ** The selected channel *)

Lemma pcac_required_node (p : Z) :
  forall t,
    dfs_is_pcac_required_for_freq t p = true ->
    exists d, In d (tree_nodes t) /\ ch_freq d = p /\ n_nol_subchs d = 0 /\
              n_caced_subchs d <> N_SUBCHS_FOR_BANDWIDTH (bandwidth d).
Proof.
  induction t as [| d l IHl r IHr]; [discriminate |].
  cbn [dfs_is_pcac_required_for_freq tree_nodes].
  destruct (Z.eqb_spec (ch_freq d) p) as [E | E].
  - destruct (Z.eqb_spec (n_caced_subchs d)
                (N_SUBCHS_FOR_BANDWIDTH (bandwidth d))) as [Ec | Ec];
      [discriminate |].
    destruct (Z.eqb_spec (n_nol_subchs d) 0) as [En | En];
      [| discriminate].
    intros _. exists d. repeat split; try assumption. left. reflexivity.
  - intros H. destruct (p <? ch_freq d).
    + destruct (IHl H) as (x & Hx & Hrest). exists x.
      split; [right; apply in_or_app; left; exact Hx | exact Hrest].
    + destruct (IHr H) as (x & Hx & Hrest). exists x.
      split; [right; apply in_or_app; right; exact Hx | exact Hrest].
Qed.

Lemma levels_ok_le :
  forall t m,
    levels_ok t m = true -> 0 <= m ->
    forall d, In d (tree_nodes t) ->
              N_SUBCHS_FOR_BANDWIDTH (bandwidth d) <= m.
Proof.
  induction t as [| x l IHl r IHr]; intros m Hl Hm d Hd; [destruct Hd |].
  cbn [levels_ok] in Hl. rewrite !andb_true_iff, Z.eqb_eq in Hl.
  destruct Hl as [[Hx Hll] Hlr].
  assert (Hhalf : 0 <= m / 2 <= m)
    by (split; [apply Z.div_pos; lia | apply Z.div_le_upper_bound; lia]).
  cbn [tree_nodes] in Hd. destruct Hd as [<- | Hd]; [lia |].
  apply in_app_or in Hd. destruct Hd as [Hd | Hd].
  - specialize (IHl _ Hll (proj1 Hhalf) d Hd). lia.
  - specialize (IHr _ Hlr (proj1 Hhalf) d Hd). lia.
Qed.

(** The node a tree walk of the selection returns, with the sub-tree it
    roots. *)
Lemma find_ieee_ch_loop_subtree (curchan : dfs_channel) (bw : Z) :
  forall t m c,
    levels_ok t m = true -> 0 <= m ->
    find_ieee_ch_loop curchan t bw = c ->
    c <> 0 ->
    exists d a b m',
      (forall x, In x (tree_nodes (Node d a b)) -> In x (tree_nodes t)) /\
      levels_ok (Node d a b) m' = true /\ 0 <= m' /\
      ch_freq d = c /\ bandwidth d = bw /\
      dfs_is_cac_needed_for_bst_node_for_freq curchan (Node d a b) bw = true.
Proof.
  induction t as [| d l IHl r IHr]; intros m c Hl Hm Hc Hnz;
    cbn [find_ieee_ch_loop] in Hc; [congruence |].
  destruct (Z.eqb_spec (bandwidth d) bw) as [E | E].
  - destruct (dfs_is_cac_needed_for_bst_node_for_freq curchan (Node d l r) bw)
      eqn:Hn; [| congruence].
    exists d, l, r, m. repeat split; auto.
  - pose proof Hl as Hl'. cbn [levels_ok] in Hl'.
    rewrite !andb_true_iff in Hl'. destruct Hl' as [[_ Hll] Hlr].
    assert (Hhalf : 0 <= m / 2) by (apply Z.div_pos; lia).
    destruct (negb (dfs_is_cac_needed_for_bst_node_for_freq curchan l bw)).
    + destruct (IHr _ c Hlr Hhalf Hc Hnz)
        as (x & a & b & m' & Hsub & H).
      exists x, a, b, m'. split; [| exact H].
      intros y Hy. cbn [tree_nodes]. right. apply in_or_app. right.
      apply Hsub. exact Hy.
    + destruct (IHl _ c Hll Hhalf Hc Hnz)
        as (x & a & b & m' & Hsub & H).
      exists x, a, b, m'. split; [| exact H].
      intros y Hy. cbn [tree_nodes]. right. apply in_or_app. left.
      apply Hsub. exact Hy.
Qed.

(** No operating segment is charged to a node of the requested width
    other than the serving one, so such a node that needs CAC has no NOL
    sub-channel and is not fully CAC-done. *)
Lemma needed_node_is_free (curchan : dfs_channel)
  (d : precac_tree_node) (a b : precac_tree) (m : Z) :
  let p := dfs_ch_mhz_freq_seg1 curchan in
  let s := exclude_sec_ch_freq_of curchan in
  let w := requested_bw_of curchan in
  node_ok d = true ->
  w <> 0 ->
  bandwidth d = w ->
  w / 2 < Z.abs (s - p) ->
  levels_ok (Node d a b) m = true -> 0 <= m ->
  (forall x, In x (tree_nodes (Node d a b)) ->
     ch_freq x = p \/ ch_freq x = s -> bandwidth x = w) ->
  dfs_is_cac_needed_for_bst_node_for_freq curchan (Node d a b) w = true ->
  n_nol_subchs d = 0 /\ n_caced_subchs d < N_SUBCHS_FOR_BANDWIDTH w.
Proof.
  intros p s w Hok Hw Hbw Hfar Hlev Hm Halign Hneed.
  destruct (needed_node_not_serving curchan d a b Hok Hw Hbw Hfar Hneed)
    as [Hp Hs]. fold p in Hp. fold s in Hs.
  destruct (requested_bw_cases curchan Hw) as [Hchw Hcases].
  fold w in Hchw, Hcases.
  assert (HN : 1 <= N_SUBCHS_FOR_BANDWIDTH w <= 4)
    by (destruct Hcases as [E | [E | E]]; rewrite E; cbv; split;
        discriminate).
  assert (Hnot : forall q, q = p \/ q = s -> ch_freq d <> q ->
            dfs_is_pcac_required_for_freq (Node d a b) q = false).
  { intros q Hq Hdq. apply not_true_is_false. intros Hreq.
    destruct (pcac_required_node q _ Hreq) as (x & Hx & Hxq & _).
    assert (Hxw : bandwidth x = w)
      by (apply Halign; [exact Hx | rewrite Hxq; exact Hq]).
    pose proof Hlev as Hl'. cbn [levels_ok] in Hl'.
    rewrite !andb_true_iff, Z.eqb_eq in Hl'. destruct Hl' as [[Hd Hla] Hlb].
    rewrite Hbw in Hd.
    assert (Hhalf : 0 <= m / 2 < m)
      by (split; [apply Z.div_pos; lia | apply Z.div_lt; lia]).
    cbn [tree_nodes] in Hx. destruct Hx as [<- | Hx]; [contradiction |].
    apply in_app_or in Hx. destruct Hx as [Hx | Hx].
    - pose proof (levels_ok_le _ _ Hla (proj1 Hhalf) x Hx) as Hle.
      rewrite Hxw in Hle. lia.
    - pose proof (levels_ok_le _ _ Hlb (proj1 Hhalf) x Hx) as Hle.
      rewrite Hxw in Hle. lia. }
  apply node_ok_spec in Hok. destruct Hok as (_ & Hv & Hc & Hn).
  rewrite Hbw in Hv.
  unfold dfs_is_cac_needed_for_bst_node_for_freq,
    dfs_get_num_cur_subchans_in_node_freq in Hneed.
  fold p s in Hneed.
  rewrite (Hnot p (or_introl eq_refl) Hp) in Hneed.
  rewrite (Hnot s (or_intror eq_refl) Hs) in Hneed.
  rewrite !andb_false_r in Hneed. rewrite Hv in Hneed.
  destruct ((u8 (N_SUBCHS_FOR_BANDWIDTH w - (n_nol_subchs d + 0))
             <? u8 (N_SUBCHS_FOR_BANDWIDTH w))
            || (n_caced_subchs d + n_nol_subchs d + 0
                =? N_SUBCHS_FOR_BANDWIDTH w)) eqn:Hor; [discriminate |].
  apply orb_false_iff in Hor. destruct Hor as [H1 H2].
  apply Z.ltb_ge in H1. apply Z.eqb_neq in H2.
  rewrite !u8_small in H1 by lia. lia.
Qed.

(** A node of a band tree with no NOL sub-channel that is not fully
    CAC-done: the queries on its centre find it. *)
Lemma band_tree_free_node (C : Z) (t : precac_tree) (d : precac_tree_node) :
  is_band_tree C t -> In d (tree_nodes t) ->
  n_nol_subchs d = 0 ->
  n_caced_subchs d < N_SUBCHS_FOR_BANDWIDTH (bandwidth d) ->
  C - 30 <= ch_freq d <= C + 30 /\
  dfs_find_cac_status_for_chan_for_freq t (ch_freq d) = false /\
  dfs_is_pcac_required_for_freq t (ch_freq d) = true.
Proof.
  intros Hbt Hd Hn Hc. pose proof Hbt as [HC _].
  destruct (band_tree_inv C t Hbt)
    as (k80 & k40l & k40r & k1 & k2 & k3 & k4 & ->).
  destruct (band_tree_status_all C k80 k40l k40r k1 k2 k3 k4 HC)
    as (S0 & S1 & S2).
  destruct (band_tree_status C k80 k40l k40r k1 k2 k3 k4 HC)
    as (T1 & T2 & T3 & T4).
  destruct (band_tree_required C k80 k40l k40r k1 k2 k3 k4 HC)
    as (R0 & R1 & R2 & R3 & R4 & R5 & R6).
  unfold band_tree in Hd. cbn [tree_nodes app In] in Hd.
  destruct Hd as [<- | [<- | [<- | [<- | [<- | [<- | [<- | []]]]]]]];
    cbn [ch_freq n_nol_subchs n_caced_subchs bandwidth] in *;
    rewrite ?S0, ?S1, ?S2, ?T1, ?T2, ?T3, ?T4,
            ?R0, ?R1, ?R2, ?R3, ?R4, ?R5, ?R6;
    (split; [lia |]);
    rewrite Hn;
    match type of Hc with
    | ?x < N_SUBCHS_FOR_BANDWIDTH ?bw =>
        let v := eval cbv in (N_SUBCHS_FOR_BANDWIDTH bw) in
        change (N_SUBCHS_FOR_BANDWIDTH bw) with v in Hc;
        replace (x =? v) with false by (symmetry; apply Z.eqb_neq; lia)
    end;
    split; reflexivity.
Qed.

Lemma selected_channel_needs_cac_lem :
  forall (curchan : dfs_channel) (l : precac_list) (ep es c : Z),
    let p := dfs_ch_mhz_freq_seg1 curchan in
    let s := exclude_sec_ch_freq_of curchan in
    let w := requested_bw_of curchan in
    forest_wf l ->
    (forall e, In e l -> tree_all node_ok (tree_root e) = true) ->
    w <> 0 ->
    w / 2 < Z.abs (s - p) ->
    (forall e d, In e l -> In d (tree_nodes (tree_root e)) ->
                 ch_freq d = p \/ ch_freq d = s -> bandwidth d = w) ->
    dfs_get_ieeechan_for_precac_for_freq curchan l ep es w = c ->
    c <> 0 ->
    dfs_is_precac_done_on_ht20_40_80_chan_for_freq l c = false /\
    exists e d,
      In e l /\ In d (tree_nodes (tree_root e)) /\
      ch_freq d = c /\ bandwidth d = w /\ n_nol_subchs d = 0 /\
      n_caced_subchs d < n_valid_subchs d /\
      dfs_is_pcac_required_for_freq (tree_root e) c = true.
Proof.
  intros curchan l ep es c p s w Hwf Hok Hw Hfar Halign Hc Hnz.
  destruct (get_ieeechan_from_some_tree curchan ep es w l c Hc Hnz)
    as (e & He & Hfind).
  unfold dfs_find_ieee_ch_from_precac_tree_for_freq in Hfind.
  destruct (negb (dfs_is_cac_needed_for_bst_node_for_freq curchan
                    (tree_root e) w)); [congruence |].
  assert (Hbt : is_band_tree (vht80_ch_freq e) (tree_root e)).
  { destruct (in_split _ _ He) as (l1 & l2 & ->).
    apply (forest_wf_split l1 l2 e Hwf). }
  destruct (band_tree_search_order _ _ Hbt) as [_ Hlev].
  destruct (find_ieee_ch_loop_subtree curchan w _ _ c Hlev
              ltac:(discriminate) Hfind Hnz)
    as (d & a & b & m & Hsub & Hlevd & Hm & Hch & Hbw & Hneed).
  assert (Hd : In d (tree_nodes (tree_root e)))
    by (apply Hsub; left; reflexivity).
  assert (Hdok : node_ok d = true)
    by (apply (proj1 (tree_all_forall node_ok _) (Hok e He) d Hd)).
  destruct (needed_node_is_free curchan d a b m Hdok Hw Hbw Hfar Hlevd Hm)
    as [Hn Hcaced]; [| exact Hneed |].
  { intros x Hx. apply (Halign e x He). apply Hsub. exact Hx. }
  fold w in Hcaced. rewrite <- Hbw in Hcaced.
  destruct (band_tree_free_node _ _ d Hbt Hd Hn Hcaced)
    as (Hrange & Hst & Hreq).
  rewrite Hch in Hrange, Hst, Hreq.
  split.
  - rewrite (precac_done_query_in l e c Hwf He Hrange). exact Hst.
  - exists e, d. repeat split; try assumption.
    apply node_ok_spec in Hdok. destruct Hdok as (_ & Hv & _). lia.
Qed.

(** X15: on a well-formed forest with counters within their spans, for
    an operating channel whose exclusion centres are centres of the
    forest only at nodes of the requested width, and lie more than half
    that width apart, a candidate returned for the width the operating
    mode maps to is the centre of a node of that width with no NOL
    sub-channel that is not fully CAC-done: the CAC-done query on it is
    false and preCAC is required for it. *)
Theorem selected_channel_needs_cac :
  forall (curchan : dfs_channel) (l : precac_list) (ep es c : Z),
    let p := dfs_ch_mhz_freq_seg1 curchan in
    let s := exclude_sec_ch_freq_of curchan in
    let w := requested_bw_of curchan in
    forest_wf l ->
    (forall e, In e l -> tree_all node_ok (tree_root e) = true) ->
    w <> 0 ->
    w / 2 < Z.abs (s - p) ->
    (forall e d, In e l -> In d (tree_nodes (tree_root e)) ->
                 ch_freq d = p \/ ch_freq d = s -> bandwidth d = w) ->
    dfs_get_ieeechan_for_precac_for_freq curchan l ep es w = c ->
    c <> 0 ->
    dfs_is_precac_done_on_ht20_40_80_chan_for_freq l c = false /\
    exists e d,
      In e l /\ In d (tree_nodes (tree_root e)) /\
      ch_freq d = c /\ bandwidth d = w /\ n_nol_subchs d = 0 /\
      n_caced_subchs d < n_valid_subchs d /\
      dfs_is_pcac_required_for_freq (tree_root e) c = true.
Proof. exact selected_channel_needs_cac_lem. Qed.

Lemma selected_channel_needs_cac_witness :
  let l := dfs_mark_precac_done_for_freq
             [ mk_entry 5290 (dfs_create_precac_tree_for_freq 5290);
               mk_entry 5530 (dfs_create_precac_tree_for_freq 5530) ]
             5500 0 CH_WIDTH_20MHZ in
  let curchan := mk_chan 5260 MODE_20 true 5260 0 in
  dfs_get_ieeechan_for_precac_for_freq curchan l 5260 0 20 = 5280 /\
  dfs_is_precac_done_on_ht20_40_80_chan_for_freq l 5280 = false.
Proof.
  cbv zeta.
  set (l := dfs_mark_precac_done_for_freq
              [ mk_entry 5290 (dfs_create_precac_tree_for_freq 5290);
                mk_entry 5530 (dfs_create_precac_tree_for_freq 5530) ]
              5500 0 CH_WIDTH_20MHZ).
  set (curchan := mk_chan 5260 MODE_20 true 5260 0).
  assert (Hwf : forest_wf l).
  { subst l. apply forest_wf_b_sound. vm_compute. reflexivity. }
  assert (Hok : forall e, In e l -> tree_all node_ok (tree_root e) = true).
  { intros e [<- | [<- | []]]; reflexivity. }
  assert (Hw : requested_bw_of curchan <> 0) by discriminate.
  assert (Hfar : requested_bw_of curchan / 2
                 < Z.abs (exclude_sec_ch_freq_of curchan
                          - dfs_ch_mhz_freq_seg1 curchan)) by reflexivity.
  assert (Halign : forall e d, In e l -> In d (tree_nodes (tree_root e)) ->
            ch_freq d = dfs_ch_mhz_freq_seg1 curchan \/
            ch_freq d = exclude_sec_ch_freq_of curchan ->
            bandwidth d = requested_bw_of curchan).
  { intros e d [<- | [<- | []]] Hd; vm_compute in Hd;
      repeat (destruct Hd as [<- | Hd]; [vm_compute; intros [E | E];
                                         first [discriminate | reflexivity] |]);
      destruct Hd. }
  assert (Hnz : 5280 <> 0) by discriminate.
  split; [reflexivity |].
  exact (proj1 (selected_channel_needs_cac curchan l 5260 0 5280 Hwf Hok Hw
                  Hfar Halign eq_refl Hnz)).
Defined.

(** ** Forest mutators band by band, and wide channels *)

Lemma mark_first_in_range_map (g : precac_tree -> Z -> precac_tree) (f : Z) :
  forall l,
    forest_wf l ->
    mark_first_in_range g l f = map (per_band g [f]) l.
Proof.
  induction l as [| e l IH]; intros Hwf; [reflexivity |].
  destruct Hwf as (Hbt & Hfar & Hwf).
  cbn [mark_first_in_range map]. unfold per_band at 1. cbn [filter].
  destruct (IS_WITHIN_RANGE f (vht80_ch_freq e) VHT80_FREQ_OFFSET) eqn:Hin.
  - cbn [fold_left]. f_equal.
    rewrite <- (map_id l) at 1. apply map_ext_in. intros e' He'.
    unfold per_band. cbn [filter].
    replace (IS_WITHIN_RANGE f (vht80_ch_freq e') VHT80_FREQ_OFFSET)
      with false; [destruct e'; reflexivity |].
    symmetry. apply not_true_is_false. intros Hin'.
    apply within_range_spec in Hin, Hin'. unfold VHT80_FREQ_OFFSET in *.
    specialize (Hfar e' He'). lia.
  - cbn [fold_left]. rewrite (IH Hwf). destruct e; reflexivity.
Qed.

Lemma per_band_compose (g : precac_tree -> Z -> precac_tree) (f : Z)
  (freqs : list Z) (e : dfs_precac_entry) :
  per_band g freqs (per_band g [f] e) = per_band g (f :: freqs) e.
Proof.
  unfold per_band. cbn [vht80_ch_freq tree_root filter].
  destruct (IS_WITHIN_RANGE f (vht80_ch_freq e) VHT80_FREQ_OFFSET);
    reflexivity.
Qed.

Lemma fold_mark_first_map (g : precac_tree -> Z -> precac_tree) :
  (forall t f, skeleton (g t f) = skeleton t) ->
  forall freqs l,
    forest_wf l ->
    fold_left (mark_first_in_range g) freqs l = map (per_band g freqs) l.
Proof.
  intros Hg. induction freqs as [| f freqs IH]; intros l Hwf.
  - cbn [fold_left]. rewrite <- (map_id l) at 1. apply map_ext.
    intros e. destruct e; reflexivity.
  - cbn [fold_left]. rewrite IH.
    + rewrite (mark_first_in_range_map g f l Hwf), map_map.
      apply map_ext. intros e. apply per_band_compose.
    + apply forest_wf_mark_first; [intros t; apply Hg | exact Hwf].
Qed.

Lemma forest_mutators_act_per_band_lem (l : precac_list) (freqs : list Z) :
  forest_wf l ->
  mark_precac_done_list l freqs
  = map (per_band dfs_mark_tree_node_as_cac_done_for_freq freqs) l
  /\ dfs_mark_precac_nol_for_freq l freqs
     = map (per_band dfs_mark_tree_node_as_nol_for_freq freqs) l
  /\ forall f,
       dfs_unmark_precac_nol_for_freq l f
       = map (per_band dfs_unmark_tree_node_as_nol_for_freq [f]) l.
Proof.
  intros Hwf. split; [| split].
  - apply fold_mark_first_map; [| exact Hwf].
    intros t f. apply skeleton_mark_cac_done.
  - apply fold_mark_first_map; [| exact Hwf].
    intros t f. apply skeleton_mark_nol_loop.
  - intros f. apply mark_first_in_range_map. exact Hwf.
Qed.

(** X16: on a well-formed forest a forest-level mutator acts on every
    band independently: each entry gets the tree mutator applied to the
    listed frequencies within 30 MHz of its own centre, in list order,
    and nothing else. *)
Theorem forest_mutators_act_per_band (l : precac_list) (freqs : list Z) :
  forest_wf l ->
  mark_precac_done_list l freqs
  = map (per_band dfs_mark_tree_node_as_cac_done_for_freq freqs) l
  /\ dfs_mark_precac_nol_for_freq l freqs
     = map (per_band dfs_mark_tree_node_as_nol_for_freq freqs) l
  /\ forall f,
       dfs_unmark_precac_nol_for_freq l f
       = map (per_band dfs_unmark_tree_node_as_nol_for_freq [f]) l.
Proof. exact (forest_mutators_act_per_band_lem l freqs). Qed.

Lemma forest_mutators_act_per_band_witness :
  let l := [ mk_entry 5290 (dfs_create_precac_tree_for_freq 5290);
             mk_entry 5530 (dfs_create_precac_tree_for_freq 5530) ] in
  dfs_mark_precac_nol_for_freq l [5260; 5500; 5280]
  = map (per_band dfs_mark_tree_node_as_nol_for_freq [5260; 5500; 5280]) l.
Proof.
  cbv zeta.
  refine (proj1 (proj2 (forest_mutators_act_per_band _ _ _))).
  apply forest_wf_b_sound. vm_compute. reflexivity.
Defined.

(** Marking the four 20 MHz sub-channels of a band makes the band
    CAC-done. *)
Lemma band_done_after_marks (C : Z) (t : precac_tree) :
  is_band_tree C t ->
  tree_all node_ok t = true -> sum_rule t = true ->
  dfs_find_cac_status_for_chan_for_freq
    (fold_left dfs_mark_tree_node_as_cac_done_for_freq
       [C - 30; C - 10; C + 10; C + 30] t) C = true.
Proof.
  intros Hbt Hok Hs. pose proof Hbt as [HC _].
  destruct (band_mark_done_tree C t C CH_WIDTH_80MHZ Hbt Hok Hs
              (or_introl eq_refl)) as (chs & Hchs & _ & Hst).
  unfold precac_done_channels, DFS_5GHZ_NEXT_CHAN_FREQ_OFFSET,
    DFS_5GHZ_2ND_CHAN_FREQ_OFFSET in Hchs.
  cbv zeta in Hchs. rewrite !u16_small in Hchs by lia.
  injection Hchs as <-.
  apply (Hst C 80); [left; reflexivity |].
  unfold span_covers. cbn. rewrite !Z.leb_refl. reflexivity.
Qed.

Lemma per_band_query (g : precac_tree -> Z -> precac_tree)
  (freqs : list Z) (l : precac_list) (e : dfs_precac_entry) (f : Z) :
  forest_wf (map (per_band g freqs) l) -> In e l ->
  vht80_ch_freq e - 30 <= f <= vht80_ch_freq e + 30 ->
  dfs_is_precac_done_on_ht20_40_80_chan_for_freq (map (per_band g freqs) l) f
  = dfs_find_cac_status_for_chan_for_freq
      (tree_root (per_band g freqs e)) f.
Proof.
  intros Hwf He Hf.
  apply (precac_done_query_in _ (per_band g freqs e) f Hwf).
  - apply in_map. exact He.
  - exact Hf.
Qed.

Lemma filter_band_self (C : Z) :
  filter (fun f => IS_WITHIN_RANGE f C VHT80_FREQ_OFFSET)
         [C - 30; C - 10; C + 10; C + 30]
  = [C - 30; C - 10; C + 10; C + 30].
Proof.
  cbn [filter]. unfold IS_WITHIN_RANGE, VHT80_FREQ_OFFSET.
  settle_cmp. reflexivity.
Qed.

Lemma filter_band_other (C C' : Z) :
  80 <= Z.abs (C - C') ->
  filter (fun f => IS_WITHIN_RANGE f C VHT80_FREQ_OFFSET)
         [C' - 30; C' - 10; C' + 10; C' + 30]
  = [].
Proof.
  intros Hfar. unfold IS_WITHIN_RANGE, VHT80_FREQ_OFFSET.
  assert (C + 80 <= C' \/ C' + 80 <= C) as [H | H] by lia;
    cbn [filter]; settle_cmp; reflexivity.
Qed.

(** X17: on a well-formed forest, after mark-CAC-done of a contiguous
    160 MHz channel given by its 160 MHz centre [Q], with both 80 MHz
    bands [Q - 40] and [Q + 40] in the forest in states that obey the sum
    rule, the operating-channel query is true for that channel when the
    two 80 MHz centres of a 160 MHz channel are taken 80 MHz apart. *)
Theorem mark_precac_done_160_then_query
  (cf2 : dfs_channel -> bool) (l : precac_list) (e1 e2 : dfs_precac_entry)
  (chan : dfs_channel) (Q : Z) :
  forest_wf l -> In e1 l -> In e2 l ->
  vht80_ch_freq e1 = Q - 40 -> vht80_ch_freq e2 = Q + 40 ->
  tree_all node_ok (tree_root e1) = true -> sum_rule (tree_root e1) = true ->
  tree_all node_ok (tree_root e2) = true -> sum_rule (tree_root e2) = true ->
  WLAN_IS_CHAN_MODE_160 chan = true ->
  dfs_ch_mhz_freq_seg2 chan = Q ->
  (dfs_ch_freq chan < Q /\ dfs_ch_mhz_freq_seg1 chan = Q - 40) \/
  (Q <= dfs_ch_freq chan /\ dfs_ch_mhz_freq_seg1 chan = Q + 40) ->
  dfs_is_precac_done 80 cf2
    (dfs_mark_precac_done_for_freq l Q 0 CH_WIDTH_160MHZ) chan = true.
Proof.
  intros Hwf He1 He2 Hc1 Hc2 Hok1 Hs1 Hok2 Hs2 H160 Hseg2 Hseg1.
  assert (Hbt1 : is_band_tree (Q - 40) (tree_root e1)).
  { rewrite <- Hc1. destruct (in_split _ _ He1) as (a & b & ->).
    apply (forest_wf_split a b e1 Hwf). }
  assert (Hbt2 : is_band_tree (Q + 40) (tree_root e2)).
  { rewrite <- Hc2. destruct (in_split _ _ He2) as (a & b & ->).
    apply (forest_wf_split a b e2 Hwf). }
  pose proof Hbt1 as [HC1 _]. pose proof Hbt2 as [HC2 _].
  unfold dfs_mark_precac_done_for_freq.
  replace (Q =? 0) with false by (symmetry; apply Z.eqb_neq; lia).
  unfold precac_done_channels, DFS_5GHZ_NEXT_CHAN_FREQ_OFFSET,
    DFS_5GHZ_2ND_CHAN_FREQ_OFFSET, DFS_5GHZ_3RD_CHAN_FREQ_OFFSET,
    DFS_5GHZ_4TH_CHAN_FREQ_OFFSET.
  cbv zeta. rewrite !u16_small by lia.
  set (chs := [Q - 70; Q - 50; Q - 30; Q - 10; Q + 10; Q + 30; Q + 50;
               Q + 70]).
  destruct (forest_mutators_act_per_band_lem l chs Hwf) as (Hmap & _).
  pose proof (proj1 (forest_wf_mutators l chs Hwf)) as Hwf'.
  rewrite Hmap in Hwf' |- *.
  set (g := dfs_mark_tree_node_as_cac_done_for_freq) in *.
  assert (Hq1 : dfs_is_precac_done_on_ht20_40_80_chan_for_freq
                  (map (per_band g chs) l) (Q - 40) = true).
  { rewrite (per_band_query g chs l e1 (Q - 40) Hwf' He1) by lia.
    unfold per_band. cbn [tree_root]. rewrite Hc1. subst chs.
    change [Q - 70; Q - 50; Q - 30; Q - 10; Q + 10; Q + 30; Q + 50; Q + 70]
      with ([Q - 70; Q - 50; Q - 30; Q - 10]
            ++ [Q + 10; Q + 30; Q + 50; Q + 70]).
    replace (Q - 70) with (Q - 40 - 30) by lia.
    replace (Q - 50) with (Q - 40 - 10) by lia.
    replace (Q - 30) with (Q - 40 + 10) by lia.
    replace (Q - 10) with (Q - 40 + 30) by lia.
    replace (Q + 10) with (Q + 40 - 30) by lia.
    replace (Q + 30) with (Q + 40 - 10) by lia.
    replace (Q + 50) with (Q + 40 + 10) by lia.
    replace (Q + 70) with (Q + 40 + 30) by lia.
    rewrite filter_app, filter_band_self, filter_band_other by lia.
    rewrite app_nil_r.
    apply band_done_after_marks; assumption. }
  assert (Hq2 : dfs_is_precac_done_on_ht20_40_80_chan_for_freq
                  (map (per_band g chs) l) (Q + 40) = true).
  { rewrite (per_band_query g chs l e2 (Q + 40) Hwf' He2) by lia.
    unfold per_band. cbn [tree_root]. rewrite Hc2. subst chs.
    change [Q - 70; Q - 50; Q - 30; Q - 10; Q + 10; Q + 30; Q + 50; Q + 70]
      with ([Q - 70; Q - 50; Q - 30; Q - 10]
            ++ [Q + 10; Q + 30; Q + 50; Q + 70]).
    replace (Q - 70) with (Q - 40 - 30) by lia.
    replace (Q - 50) with (Q - 40 - 10) by lia.
    replace (Q - 30) with (Q - 40 + 10) by lia.
    replace (Q - 10) with (Q - 40 + 30) by lia.
    replace (Q + 10) with (Q + 40 - 30) by lia.
    replace (Q + 30) with (Q + 40 - 10) by lia.
    replace (Q + 50) with (Q + 40 + 10) by lia.
    replace (Q + 70) with (Q + 40 + 30) by lia.
    rewrite filter_app, filter_band_self, filter_band_other by lia.
    apply band_done_after_marks; assumption. }
  unfold dfs_is_precac_done, dfs_is_precac_done_on_ht8080_ht160_chan.
  assert (Hm : WLAN_IS_CHAN_MODE_20 chan = false
               /\ WLAN_IS_CHAN_MODE_40 chan = false
               /\ WLAN_IS_CHAN_MODE_80 chan = false).
  { unfold WLAN_IS_CHAN_MODE_160, WLAN_IS_CHAN_MODE_20,
      WLAN_IS_CHAN_MODE_40, WLAN_IS_CHAN_MODE_80 in *.
    destruct (dfs_ch_mode chan); try discriminate; repeat split. }
  destruct Hm as (-> & -> & ->). rewrite H160, Hseg2.
  cbn [orb]. rewrite orb_true_r.
  destruct Hseg1 as [[Hlt ->] | [Hge ->]].
  - replace (dfs_ch_freq chan <? Q) with true
      by (symmetry; apply Z.ltb_lt; exact Hlt).
    rewrite u16_small by lia.
    replace (Q - 40 + 80) with (Q + 40) by lia. rewrite Hq1, Hq2.
    destruct (WLAN_IS_CHAN_DFS chan), (cf2 chan); reflexivity.
  - replace (dfs_ch_freq chan <? Q) with false
      by (symmetry; apply Z.ltb_ge; exact Hge).
    rewrite u16_small by lia.
    replace (Q + 40 - 80) with (Q - 40) by lia. rewrite Hq1, Hq2.
    destruct (WLAN_IS_CHAN_DFS chan), (cf2 chan); reflexivity.
Qed.

Lemma mark_precac_done_160_then_query_witness :
  let l := [ mk_entry 5530 (dfs_create_precac_tree_for_freq 5530);
             mk_entry 5610 (dfs_create_precac_tree_for_freq 5610) ] in
  dfs_is_precac_done 80 (fun _ => true)
    (dfs_mark_precac_done_for_freq l 5570 0 CH_WIDTH_160MHZ)
    (mk_chan 5500 MODE_160 true 5530 5570) = true.
Proof.
  cbv zeta.
  refine (mark_precac_done_160_then_query (fun _ => true) _
            (mk_entry 5530 (dfs_create_precac_tree_for_freq 5530))
            (mk_entry 5610 (dfs_create_precac_tree_for_freq 5610))
            (mk_chan 5500 MODE_160 true 5530 5570) 5570
            _ _ _ _ _ _ _ _ _ _ _ _).
  - apply forest_wf_b_sound. vm_compute. reflexivity.
  - left. reflexivity.
  - right. left. reflexivity.
  - reflexivity.
  - reflexivity.
  - reflexivity.
  - reflexivity.
  - reflexivity.
  - reflexivity.
  - reflexivity.
  - reflexivity.
  - left. split; reflexivity.
Defined.

(** X18: on a well-formed forest, after mark-CAC-done of an 80+80 MHz
    channel given by its two 80 MHz centres, with both bands in the
    forest in states that obey the sum rule, the operating-channel query
    is true for that channel. *)
Theorem mark_precac_done_80p80_then_query (D : Z)
  (cf2 : dfs_channel -> bool) (l : precac_list) (e1 e2 : dfs_precac_entry)
  (chan : dfs_channel) :
  forest_wf l -> In e1 l -> In e2 l ->
  vht80_ch_freq e1 = dfs_ch_mhz_freq_seg1 chan ->
  vht80_ch_freq e2 = dfs_ch_mhz_freq_seg2 chan ->
  dfs_ch_mhz_freq_seg1 chan <> dfs_ch_mhz_freq_seg2 chan ->
  tree_all node_ok (tree_root e1) = true -> sum_rule (tree_root e1) = true ->
  tree_all node_ok (tree_root e2) = true -> sum_rule (tree_root e2) = true ->
  WLAN_IS_CHAN_MODE_80_80 chan = true ->
  dfs_is_precac_done D cf2
    (dfs_mark_precac_done_for_freq l (dfs_ch_mhz_freq_seg1 chan)
       (dfs_ch_mhz_freq_seg2 chan) CH_WIDTH_80P80MHZ) chan = true.
Proof.
  intros Hwf He1 He2 Hc1 Hc2 Hne Hok1 Hs1 Hok2 Hs2 H8080.
  set (s1 := dfs_ch_mhz_freq_seg1 chan) in *.
  set (s2 := dfs_ch_mhz_freq_seg2 chan) in *.
  assert (Hbt1 : is_band_tree s1 (tree_root e1)).
  { rewrite <- Hc1. destruct (in_split _ _ He1) as (a & b & ->).
    apply (forest_wf_split a b e1 Hwf). }
  assert (Hbt2 : is_band_tree s2 (tree_root e2)).
  { rewrite <- Hc2. destruct (in_split _ _ He2) as (a & b & ->).
    apply (forest_wf_split a b e2 Hwf). }
  pose proof Hbt1 as [HC1 _]. pose proof Hbt2 as [HC2 _].
  assert (Hfar : 80 <= Z.abs (s1 - s2)).
  { rewrite <- Hc1, <- Hc2. apply (forest_wf_far l e1 e2 Hwf He1 He2).
    intros E. apply Hne. rewrite <- Hc1, <- Hc2, E. reflexivity. }
  unfold dfs_mark_precac_done_for_freq.
  replace (s1 =? 0) with false by (symmetry; apply Z.eqb_neq; lia).
  unfold precac_done_channels, DFS_5GHZ_NEXT_CHAN_FREQ_OFFSET,
    DFS_5GHZ_2ND_CHAN_FREQ_OFFSET.
  cbv zeta. rewrite !u16_small by lia.
  set (chs := [s1 - 30; s1 - 10; s1 + 10; s1 + 30;
               s2 - 30; s2 - 10; s2 + 10; s2 + 30]).
  destruct (forest_mutators_act_per_band_lem l chs Hwf) as (Hmap & _).
  pose proof (proj1 (forest_wf_mutators l chs Hwf)) as Hwf'.
  rewrite Hmap in Hwf' |- *.
  set (g := dfs_mark_tree_node_as_cac_done_for_freq) in *.
  assert (Hq1 : dfs_is_precac_done_on_ht20_40_80_chan_for_freq
                  (map (per_band g chs) l) s1 = true).
  { rewrite (per_band_query g chs l e1 s1 Hwf' He1) by lia.
    unfold per_band. cbn [tree_root]. rewrite Hc1. subst chs.
    change [s1 - 30; s1 - 10; s1 + 10; s1 + 30;
            s2 - 30; s2 - 10; s2 + 10; s2 + 30]
      with ([s1 - 30; s1 - 10; s1 + 10; s1 + 30]
            ++ [s2 - 30; s2 - 10; s2 + 10; s2 + 30]).
    rewrite filter_app, filter_band_self, filter_band_other by lia.
    rewrite app_nil_r.
    apply band_done_after_marks; assumption. }
  assert (Hq2 : dfs_is_precac_done_on_ht20_40_80_chan_for_freq
                  (map (per_band g chs) l) s2 = true).
  { rewrite (per_band_query g chs l e2 s2 Hwf' He2) by lia.
    unfold per_band. cbn [tree_root]. rewrite Hc2. subst chs.
    change [s1 - 30; s1 - 10; s1 + 10; s1 + 30;
            s2 - 30; s2 - 10; s2 + 10; s2 + 30]
      with ([s1 - 30; s1 - 10; s1 + 10; s1 + 30]
            ++ [s2 - 30; s2 - 10; s2 + 10; s2 + 30]).
    rewrite filter_app, filter_band_self, filter_band_other by lia.
    apply band_done_after_marks; assumption. }
  unfold dfs_is_precac_done, dfs_is_precac_done_on_ht8080_ht160_chan.
  assert (Hm : WLAN_IS_CHAN_MODE_20 chan = false
               /\ WLAN_IS_CHAN_MODE_40 chan = false
               /\ WLAN_IS_CHAN_MODE_80 chan = false
               /\ WLAN_IS_CHAN_MODE_160 chan = false).
  { unfold WLAN_IS_CHAN_MODE_80_80, WLAN_IS_CHAN_MODE_160,
      WLAN_IS_CHAN_MODE_20, WLAN_IS_CHAN_MODE_40, WLAN_IS_CHAN_MODE_80 in *.
    destruct (dfs_ch_mode chan); try discriminate; repeat split. }
  destruct Hm as (-> & -> & -> & ->). rewrite H8080.
  cbn [orb]. fold s1 s2. rewrite Hq1, Hq2.
  destruct (WLAN_IS_CHAN_DFS chan), (cf2 chan); reflexivity.
Qed.

Lemma mark_precac_done_80p80_then_query_witness :
  let l := [ mk_entry 5290 (dfs_create_precac_tree_for_freq 5290);
             mk_entry 5610 (dfs_create_precac_tree_for_freq 5610) ] in
  dfs_is_precac_done 80 (fun _ => true)
    (dfs_mark_precac_done_for_freq l 5290 5610 CH_WIDTH_80P80MHZ)
    (mk_chan 5260 MODE_80_80 true 5290 5610) = true.
Proof.
  cbv zeta.
  refine (mark_precac_done_80p80_then_query 80 (fun _ => true) _
            (mk_entry 5290 (dfs_create_precac_tree_for_freq 5290))
            (mk_entry 5610 (dfs_create_precac_tree_for_freq 5610))
            (mk_chan 5260 MODE_80_80 true 5290 5610)
            _ _ _ _ _ _ _ _ _ _ _).
  - apply forest_wf_b_sound. vm_compute. reflexivity.
  - left. reflexivity.
  - right. left. reflexivity.
  - reflexivity.
  - reflexivity.
  - discriminate.
  - reflexivity.
  - reflexivity.
  - reflexivity.
  - reflexivity.
  - reflexivity.
Defined.

(** ** The agile candidate *)

Lemma agile_width_requested (curchan : dfs_channel) :
  is_invalid_chwidth
    (dfs_find_agile_width (chan_width_of_mode (dfs_ch_mode curchan))) = false ->
  requested_bw_of curchan <> 0.
Proof.
  unfold requested_bw_of. destruct (dfs_ch_mode curchan); cbn;
    intros H; try discriminate.
Qed.

(** X19: when the agile channel selection of a radio stores a non-zero
    frequency, the stored width is the one the operating mode maps to
    (20 -> 20, 40 -> 40, 80 / 80+80 / 160 -> 80), whatever exclusion
    frequencies the caller passes, and on a well-formed forest with
    counters within their spans, for an operating channel whose exclusion
    centres lie more than half that width apart and are centres of the
    forest only at nodes of that width, the frequency is neither
    exclusion centre and its CAC-done query is false; the OCAC status is
    reset and the forest is not changed. *)
Theorem agile_candidate_needs_cac (soc soc' : dfs_soc_priv_obj)
  (r r' : precac_radio) (pri sec c : Z) :
  let curchan := rd_curchan r in
  let l := rd_precac_list r in
  let p := dfs_ch_mhz_freq_seg1 curchan in
  let s := exclude_sec_ch_freq_of curchan in
  let w := requested_bw_of curchan in
  forest_wf l ->
  (forall e, In e l -> tree_all node_ok (tree_root e) = true) ->
  w / 2 < Z.abs (s - p) ->
  (forall e d, In e l -> In d (tree_nodes (tree_root e)) ->
               ch_freq d = p \/ ch_freq d = s -> bandwidth d = w) ->
  dfs_get_ieeechan_for_agilecac_for_freq soc r pri sec = (soc', r', Some c) ->
  c <> 0 ->
  dfs_translate_chwidth_enum2val (dfs_precac_chwidth r') = w /\
  dfs_agile_precac_freq_mhz r' = c /\
  rd_precac_list r' = l /\
  ocac_status soc' = OCAC_RESET /\
  c <> p /\ c <> s /\
  dfs_is_precac_done_on_ht20_40_80_chan_for_freq l c = false /\
  forall pri' sec',
    dfs_get_ieeechan_for_agilecac_for_freq soc r pri' sec'
    = (soc', r', Some c).
Proof.
  intros curchan l p s w Hwf Hok Hfar Halign Hrun Hnz.
  unfold dfs_get_ieeechan_for_agilecac_for_freq in Hrun.
  fold curchan in Hrun.
  destruct (is_wide_chwidth (chan_width_of_mode (dfs_ch_mode curchan))
            && negb (dfs_fw_adfs_support_160 r)) eqn:Hwide;
    [discriminate |].
  cbn [dfs_precac_chwidth set_dfs_precac_chwidth rd_curchan
       rd_precac_list] in Hrun.
  destruct (is_invalid_chwidth
              (dfs_find_agile_width
                 (chan_width_of_mode (dfs_ch_mode curchan)))) eqn:Hinv;
    [discriminate |].
  pose proof (agile_width_requested curchan Hinv) as Hw. fold w in Hw.
  fold l in Hrun.
  change (dfs_translate_chwidth_enum2val
            (dfs_find_agile_width
               (chan_width_of_mode (dfs_ch_mode curchan)))) with w in Hrun.
  injection Hrun as <- <- Hc.
  cbn [dfs_precac_chwidth dfs_agile_precac_freq_mhz rd_precac_list
       set_dfs_agile_precac_freq_mhz set_dfs_precac_chwidth ocac_status].
  assert (Hps : c <> p /\ c <> s).
  { destruct (get_ieeechan_from_some_tree curchan pri sec w l c Hc Hnz)
      as (e & He & Hfind).
    unfold dfs_find_ieee_ch_from_precac_tree_for_freq in Hfind.
    destruct (negb (dfs_is_cac_needed_for_bst_node_for_freq curchan
                      (tree_root e) w)); [congruence |].
    destruct (find_ieee_ch_loop_node curchan w _ c Hfind Hnz)
      as (d & a & b & Hd & Hch & Hbw & Hneed).
    assert (Hdok : node_ok d = true)
      by (apply (proj1 (tree_all_forall node_ok _) (Hok e He) d Hd)).
    destruct (needed_node_not_serving curchan d a b Hdok Hw Hbw Hfar Hneed)
      as [Hp Hs]. fold p in Hp. fold s in Hs. rewrite Hch in Hp, Hs.
    split; assumption. }
  destruct (selected_channel_needs_cac_lem curchan l pri sec c Hwf Hok Hw
              Hfar Halign Hc Hnz) as [Hq _].
  repeat split; try tauto.
  intros pri' sec'. unfold dfs_get_ieeechan_for_agilecac_for_freq.
  fold curchan. rewrite Hwide.
  cbn [dfs_precac_chwidth set_dfs_precac_chwidth rd_curchan
       rd_precac_list]. rewrite Hinv. fold l.
  change (dfs_translate_chwidth_enum2val
            (dfs_find_agile_width
               (chan_width_of_mode (dfs_ch_mode curchan)))) with w.
  assert (Hsame : forall l0,
            dfs_get_ieeechan_for_precac_for_freq curchan l0 pri' sec' w
            = dfs_get_ieeechan_for_precac_for_freq curchan l0 pri sec w).
  { induction l0 as [| e l0 IH]; [reflexivity |].
    cbn [dfs_get_ieeechan_for_precac_for_freq]. rewrite IH. reflexivity. }
  rewrite Hsame. f_equal. f_equal. exact Hc.
Qed.

Lemma agile_candidate_needs_cac_witness :
  let l := dfs_mark_precac_done_for_freq
             [ mk_entry 5290 (dfs_create_precac_tree_for_freq 5290);
               mk_entry 5530 (dfs_create_precac_tree_for_freq 5530) ]
             5500 0 CH_WIDTH_20MHZ in
  let r := radio_sample (mk_chan 5260 MODE_20 true 5260 0) l in
  dfs_is_precac_done_on_ht20_40_80_chan_for_freq l 5280 = false /\
  5280 <> 5260.
Proof.
  cbv zeta.
  set (l := dfs_mark_precac_done_for_freq
              [ mk_entry 5290 (dfs_create_precac_tree_for_freq 5290);
                mk_entry 5530 (dfs_create_precac_tree_for_freq 5530) ]
              5500 0 CH_WIDTH_20MHZ).
  set (r := radio_sample (mk_chan 5260 MODE_20 true 5260 0) l).
  assert (Hwf : forest_wf (rd_precac_list r))
    by (apply forest_wf_b_sound; vm_compute; reflexivity).
  assert (Hok : forall e, In e (rd_precac_list r) ->
                          tree_all node_ok (tree_root e) = true).
  { intros e [<- | [<- | []]]; reflexivity. }
  assert (Hfar : requested_bw_of (rd_curchan r) / 2
                 < Z.abs (exclude_sec_ch_freq_of (rd_curchan r)
                          - dfs_ch_mhz_freq_seg1 (rd_curchan r)))
    by reflexivity.
  assert (Halign : forall e d, In e (rd_precac_list r) ->
            In d (tree_nodes (tree_root e)) ->
            ch_freq d = dfs_ch_mhz_freq_seg1 (rd_curchan r) \/
            ch_freq d = exclude_sec_ch_freq_of (rd_curchan r) ->
            bandwidth d = requested_bw_of (rd_curchan r)).
  { intros e d [<- | [<- | []]] Hd; vm_compute in Hd;
      repeat (destruct Hd as [<- | Hd]; [vm_compute; intros [E | E];
                                         first [discriminate | reflexivity] |]);
      destruct Hd. }
  assert (Hnz : 5280 <> 0) by discriminate.
  destruct (agile_candidate_needs_cac soc_idle _ r _ 5260 0 5280
              Hwf Hok Hfar Halign eq_refl Hnz)
    as (_ & _ & _ & _ & Hp & _ & Hq & _).
  split; [exact Hq | exact Hp].
Defined.

(** ** Preparation of the agile channel *)

Lemma radio_candidate_static (r r' : precac_radio) :
  radio_static r = radio_static r' -> radio_candidate r = radio_candidate r'.
Proof.
  unfold radio_static. intros H. injection H as Ha Hc Hl Hf.
  unfold radio_candidate, dfs_get_ieeechan_for_agilecac_for_freq.
  rewrite Ha, Hc, Hf. destruct (agile_precac_active r'); [| reflexivity].
  destruct (is_wide_chwidth (chan_width_of_mode (dfs_ch_mode (rd_curchan r')))
            && negb (dfs_fw_adfs_support_160 r')); [reflexivity |].
  cbn [dfs_precac_chwidth set_dfs_precac_chwidth rd_curchan rd_precac_list].
  destruct (is_invalid_chwidth
              (dfs_find_agile_width
                 (chan_width_of_mode (dfs_ch_mode (rd_curchan r')))));
    [reflexivity |].
  cbn [snd]. rewrite Hc, Hl. reflexivity.
Qed.

(** One visit: what it keeps, and what it stores. *)
Lemma agilecac_visit (soc : dfs_soc_priv_obj) (r : precac_radio) :
  let '(soc', r', out) :=
    dfs_get_ieeechan_for_agilecac_for_freq soc r
      (dfs_ch_mhz_freq_seg1 (rd_curchan r))
      (exclude_sec_ch_freq_of (rd_curchan r)) in
  radio_static r' = radio_static r /\
  dfs_precac_timer_running soc' = dfs_precac_timer_running soc /\
  dfs_precac_timer soc' = dfs_precac_timer soc /\
  match out with
  | Some c =>
      (agile_precac_active r = true -> radio_candidate r = c) /\
      dfs_agile_precac_freq_mhz r' = c /\ ocac_status soc' = OCAC_RESET
  | None => radio_candidate r = 0
  end.
Proof.
  unfold radio_candidate, dfs_get_ieeechan_for_agilecac_for_freq.
  destruct (is_wide_chwidth (chan_width_of_mode (dfs_ch_mode (rd_curchan r)))
            && negb (dfs_fw_adfs_support_160 r)).
  - repeat split. destruct (agile_precac_active r); reflexivity.
  - cbn [dfs_precac_chwidth set_dfs_precac_chwidth rd_curchan
         rd_precac_list].
    destruct (is_invalid_chwidth
                (dfs_find_agile_width
                   (chan_width_of_mode (dfs_ch_mode (rd_curchan r))))).
    + repeat split. destruct (agile_precac_active r); reflexivity.
    + repeat split. intros ->. reflexivity.
Qed.

Lemma set_nth_radio_length (r : precac_radio) :
  forall l i, length (set_nth_radio l i r) = length l.
Proof.
  induction l as [| x l IH]; intros [| i]; cbn; try reflexivity.
  rewrite IH. reflexivity.
Qed.

Lemma set_nth_radio_nth (r : precac_radio) :
  forall l i, (i < length l)%nat -> nth_error (set_nth_radio l i r) i = Some r.
Proof.
  induction l as [| x l IH]; intros [| i] H; cbn in *; try lia.
  - reflexivity.
  - apply IH. lia.
Qed.

Lemma set_nth_radio_map {A : Type} (f : precac_radio -> A)
  (r r' : precac_radio) :
  f r' = f r ->
  forall l i, nth_error l i = Some r ->
              map f (set_nth_radio l i r') = map f l.
Proof.
  intros Hf. induction l as [| x l IH]; intros [| i] H; cbn in *;
    try discriminate.
  - injection H as ->. rewrite Hf. reflexivity.
  - rewrite (IH _ H). reflexivity.
Qed.

Lemma nth_error_static (l l' : list precac_radio) (i : nat)
  (r : precac_radio) :
  map radio_static l' = map radio_static l ->
  nth_error l i = Some r ->
  exists r', nth_error l' i = Some r' /\ radio_static r' = radio_static r.
Proof.
  intros Hmap Hr.
  assert (H : nth_error (map radio_static l') i = Some (radio_static r))
    by (rewrite Hmap; apply map_nth_error; exact Hr).
  rewrite nth_error_map in H.
  destruct (nth_error l' i) as [r' |]; cbn in H; [| discriminate].
  exists r'. split; [reflexivity | congruence].
Qed.

Lemma find_pdev_in_range (s : precac_soc) :
  0 < num_dfs_privs s <= 255 ->
  dfs_find_pdev_for_agile_precac s
  = (cur_precac_dfs_index s + 1) mod num_dfs_privs s
  /\ 0 <= dfs_find_pdev_for_agile_precac s < num_dfs_privs s.
Proof.
  intros Hn. unfold dfs_find_pdev_for_agile_precac.
  pose proof (Z.mod_pos_bound (cur_precac_dfs_index s + 1)
                (num_dfs_privs s) ltac:(lia)) as Hb.
  rewrite u8_small by lia. split; [reflexivity | exact Hb].
Qed.

Lemma radio_candidate_inactive (r : precac_radio) :
  agile_precac_active r = false -> radio_candidate r = 0.
Proof. unfold radio_candidate. intros ->. reflexivity. Qed.

Lemma prepare_agile_loop_spec :
  forall (fuel : nat) (s s' : precac_soc) (found : option (Z * Z)),
    0 < num_dfs_privs s <= 255 ->
    num_dfs_privs s = Z.of_nat (length (dfs_priv s)) ->
    prepare_agile_loop fuel s = (s', found) ->
    num_dfs_privs s' = num_dfs_privs s /\
    map radio_static (dfs_priv s') = map radio_static (dfs_priv s) /\
    precac_events s' = precac_events s /\
    precac_state_started s' = precac_state_started s /\
    dfs_precac_timer_running (psoc_obj s')
    = dfs_precac_timer_running (psoc_obj s) /\
    dfs_precac_timer (psoc_obj s') = dfs_precac_timer (psoc_obj s) /\
    match found with
    | Some (idx, c) =>
        cur_precac_dfs_index s' = idx /\ 0 <= idx < num_dfs_privs s /\
        c <> 0 /\
        exists r',
          nth_error (dfs_priv s') (Z.to_nat idx) = Some r' /\
          agile_precac_active r' = true /\ radio_candidate r' = c /\
          dfs_agile_precac_freq_mhz r' = c /\
          ocac_status (psoc_obj s') = OCAC_RESET
    | None =>
        forall j, 1 <= j <= Z.of_nat fuel ->
          forall r,
            nth_error (dfs_priv s)
              (Z.to_nat ((cur_precac_dfs_index s + j) mod num_dfs_privs s))
            = Some r ->
            radio_candidate r = 0
    end.
Proof.
  induction fuel as [| fuel IH]; intros s s' found Hn Hlen Hrun.
  - cbn in Hrun. injection Hrun as <- <-. repeat split. intros j Hj. lia.
  - cbn [prepare_agile_loop] in Hrun.
    destruct (find_pdev_in_range s Hn) as [Hidx Hrange].
    set (idx := dfs_find_pdev_for_agile_precac s) in *.
    set (s1 := mk_psoc (num_dfs_privs s) idx (dfs_priv s) (psoc_obj s)
                       (precac_state_started s) (precac_events s)) in *.
    assert (Hshift : forall j,
              (cur_precac_dfs_index s1 + (j - 1)) mod num_dfs_privs s
              = (cur_precac_dfs_index s + j) mod num_dfs_privs s).
    { intros j. cbn [cur_precac_dfs_index s1]. rewrite Hidx.
      rewrite Zplus_mod_idemp_l. f_equal. lia. }
    cbn [dfs_priv s1] in Hrun.
    destruct (nth_error (dfs_priv s) (Z.to_nat idx)) as [r |] eqn:Hr.
    2:{ exfalso. apply nth_error_None in Hr. lia. }
    assert (Hfirst : forall x,
              nth_error (dfs_priv s)
                (Z.to_nat ((cur_precac_dfs_index s + 1) mod num_dfs_privs s))
              = Some x -> x = r)
      by (intros x Hx; rewrite <- Hidx, Hr in Hx; congruence).
    destruct (agile_precac_active r) eqn:Hact; cbn [negb] in Hrun.
    + (* an active radio is asked for a candidate *)
      pose proof (agilecac_visit (psoc_obj s) r) as Hvisit.
      cbn [psoc_obj s1] in Hrun.
      destruct (dfs_get_ieeechan_for_agilecac_for_freq (psoc_obj s) r
                  (dfs_ch_mhz_freq_seg1 (rd_curchan r))
                  (exclude_sec_ch_freq_of (rd_curchan r)))
        as [[soc' r'] out].
      destruct Hvisit as (Hst & Hrun' & Htim & Hout).
      cbn [num_dfs_privs precac_state_started precac_events s1] in Hrun.
      set (s2 := mk_psoc (num_dfs_privs s) idx
                   (set_nth_radio (dfs_priv s) (Z.to_nat idx) r') soc'
                   (precac_state_started s) (precac_events s)) in *.
      assert (Hmap2 : map radio_static (dfs_priv s2)
                      = map radio_static (dfs_priv s))
        by (apply (set_nth_radio_map radio_static r r' Hst); exact Hr).
      assert (Hlen2 : num_dfs_privs s2 = Z.of_nat (length (dfs_priv s2)))
        by (cbn [num_dfs_privs dfs_priv s2]; rewrite set_nth_radio_length;
            exact Hlen).
      assert (Hrec : forall s' found,
                prepare_agile_loop fuel s2 = (s', found) ->
                radio_candidate r = 0 ->
                num_dfs_privs s' = num_dfs_privs s /\
                map radio_static (dfs_priv s') = map radio_static (dfs_priv s) /\
                precac_events s' = precac_events s /\
                precac_state_started s' = precac_state_started s /\
                dfs_precac_timer_running (psoc_obj s')
                = dfs_precac_timer_running (psoc_obj s) /\
                dfs_precac_timer (psoc_obj s') = dfs_precac_timer (psoc_obj s) /\
                match found with
                | Some (idx, c) =>
                    cur_precac_dfs_index s' = idx /\
                    0 <= idx < num_dfs_privs s /\ c <> 0 /\
                    exists r',
                      nth_error (dfs_priv s') (Z.to_nat idx) = Some r' /\
                      agile_precac_active r' = true /\
                      radio_candidate r' = c /\
                      dfs_agile_precac_freq_mhz r' = c /\
                      ocac_status (psoc_obj s') = OCAC_RESET
                | None =>
                    forall j, 1 <= j <= Z.of_nat (S fuel) ->
                      forall r,
                        nth_error (dfs_priv s)
                          (Z.to_nat ((cur_precac_dfs_index s + j)
                                     mod num_dfs_privs s)) = Some r ->
                        radio_candidate r = 0
                end).
      { intros t fnd Ht Hzero.
        destruct (IH s2 t fnd Hn Hlen2 Ht)
          as (H1 & H2 & H3 & H4 & H5 & H6 & H7).
        cbn [num_dfs_privs precac_events precac_state_started psoc_obj s2]
          in H1, H3, H4, H5, H6.
        split; [exact H1 |]. split; [congruence |].
        split; [exact H3 |]. split; [exact H4 |].
        split; [congruence |]. split; [congruence |].
        destruct fnd as [[i c] |]; [exact H7 |].
        intros j Hj x Hx.
        destruct (Z.eq_dec j 1) as [-> | Hj1].
        - rewrite (Hfirst x Hx). exact Hzero.
        - rewrite <- Hshift in Hx.
          destruct (nth_error_static _ _ _ _ Hmap2 Hx) as (x2 & Hx2 & Hs2).
          rewrite <- (radio_candidate_static x2 x Hs2).
          apply (H7 (j - 1)); [lia |].
          cbn [num_dfs_privs cur_precac_dfs_index s2].
          cbn [cur_precac_dfs_index s1] in Hx2. exact Hx2. }
      destruct out as [c |].
      * destruct Hout as (Hcand & Hfreq & Hocac).
        destruct (Z.eqb_spec c 0) as [Ec | Ec].
        -- apply (Hrec _ _ Hrun). rewrite (Hcand Hact). exact Ec.
        -- injection Hrun as <- <-.
           cbn [num_dfs_privs precac_events precac_state_started psoc_obj
                cur_precac_dfs_index dfs_priv s2].
           repeat split; try assumption; try lia.
           exists r'. split.
           { apply set_nth_radio_nth. apply nth_error_Some. congruence. }
           split; [unfold radio_static in Hst; congruence |].
           split; [rewrite (radio_candidate_static r' r Hst);
                   apply Hcand; exact Hact |].
           split; assumption.
      * apply (Hrec _ _ Hrun). exact Hout.
    + (* an inactive radio is skipped *)
      assert (Hlen1 : num_dfs_privs s1 = Z.of_nat (length (dfs_priv s1)))
        by exact Hlen.
      destruct (IH s1 s' found Hn Hlen1 Hrun)
        as (H1 & H2 & H3 & H4 & H5 & H6 & H7).
      repeat split; try assumption.
      destruct found as [[i c] |]; [exact H7 |].
      intros j Hj x Hx.
      destruct (Z.eq_dec j 1) as [-> | Hj1].
      * rewrite (Hfirst x Hx). apply radio_candidate_inactive. exact Hact.
      * rewrite <- Hshift in Hx. apply (H7 (j - 1)); [lia | exact Hx].
Qed.

Lemma prepare_agile_outcome_lem (k : precac_consts) (s : precac_soc) :
  0 < num_dfs_privs s <= 255 ->
  num_dfs_privs s = Z.of_nat (length (dfs_priv s)) ->
  let s' := dfs_prepare_agile_precac_chan k s in
  map radio_static (dfs_priv s') = map radio_static (dfs_priv s) /\
  ((exists idx r' p,
       precac_events s' = AgileChCfgCmd idx p :: precac_events s /\
       0 <= idx < num_dfs_privs s /\ cur_precac_dfs_index s' = idx /\
       nth_error (dfs_priv s') (Z.to_nat idx) = Some r' /\
       agile_precac_active r' = true /\
       precac_chan_freq p = radio_candidate r' /\ precac_chan_freq p <> 0 /\
       dfs_agile_precac_freq_mhz r' = precac_chan_freq p /\
       precac_chwidth p = dfs_precac_chwidth r' /\
       dfs_precac_timer_running (psoc_obj s') = true /\
       ocac_status (psoc_obj s') = OCAC_RESET /\
       dfs_precac_timer (psoc_obj s')
       = Some (if negb (min_precac_timeout p =? 0)
               then u32 (min_precac_timeout p + EXTRA_TIME_IN_MS)
               else min_precac_timeout p) /\
       precac_state_started s' = precac_state_started s)
   \/
   (precac_events s' = precac_events s /\
    precac_state_started s' = false /\
    dfs_precac_timer_running (psoc_obj s')
    = dfs_precac_timer_running (psoc_obj s) /\
    dfs_precac_timer (psoc_obj s') = dfs_precac_timer (psoc_obj s) /\
    forall r, In r (dfs_priv s) -> radio_candidate r = 0)).
Proof.
  intros Hn Hlen. cbv zeta. unfold dfs_prepare_agile_precac_chan.
  destruct (prepare_agile_loop (Z.to_nat (num_dfs_privs s)) s)
    as [s1 found] eqn:Hloop.
  destruct (prepare_agile_loop_spec _ _ _ _ Hn Hlen Hloop)
    as (H1 & H2 & H3 & H4 & H5 & H6 & H7).
  destruct found as [[idx c] |].
  - destruct H7 as (Hcur & Hidx & Hc & r' & Hr' & Hact & Hcand & Hfreq & Hocac).
    rewrite Hr'. unfold dfs_start_agile_precac_timer.
    cbn [dfs_soc_obj radio_dfs].
    destruct (agile_precac_timeouts k (radio_dfs (psoc_obj s1) r')
                (ocac_status (psoc_obj s1))
                (mk_adfs c (dfs_precac_chwidth r') 0 0)) as [mn mx].
    cbn [dfs_priv precac_events psoc_obj cur_precac_dfs_index
         precac_state_started dfs_soc_obj].
    split; [exact H2 |]. left.
    exists idx, r', (mk_adfs c (dfs_precac_chwidth r') mn mx).
    cbn [precac_chan_freq precac_chwidth min_precac_timeout
         dfs_precac_timer_running dfs_precac_timer ocac_status].
    rewrite Hocac. cbn [is_ocac_success].
    repeat split; try assumption; try lia; congruence.
  - cbn [dfs_priv precac_events psoc_obj precac_state_started].
    split; [exact H2 |]. right. repeat split; try assumption.
    intros r Hr. apply In_nth_error in Hr. destruct Hr as [i Hi].
    assert (Hi' : (i < length (dfs_priv s))%nat)
      by (apply nth_error_Some; congruence).
    set (n := num_dfs_privs s) in *.
    set (c0 := cur_precac_dfs_index s) in *.
    apply (H7 ((Z.of_nat i - c0 - 1) mod n + 1)).
    + pose proof (Z.mod_pos_bound (Z.of_nat i - c0 - 1) n ltac:(lia)). lia.
    + replace ((c0 + ((Z.of_nat i - c0 - 1) mod n + 1)) mod n)
        with (Z.of_nat i).
      * rewrite Nat2Z.id. exact Hi.
      * replace (c0 + ((Z.of_nat i - c0 - 1) mod n + 1))
          with (c0 + 1 + (Z.of_nat i - c0 - 1) mod n) by lia.
        rewrite Zplus_mod_idemp_r.
        replace (c0 + 1 + (Z.of_nat i - c0 - 1)) with (Z.of_nat i) by lia.
        symmetry. apply Z.mod_small. lia.
Qed.

(** X20: with between 1 and 255 radios present, the preparation of the
    agile channel either sends exactly one agile channel command, to an
    active radio, carrying the non-zero candidate of that radio and the
    width stored for it, leaves the round-robin index on that radio,
    resets the OCAC status and arms the running timer with the minimum
    timeout of the command plus 2000 ms (or with 0 when that minimum is
    0); or it sends nothing, leaves the timer alone and clears
    precac_state_started, and then no radio present has a candidate.  It
    changes neither the forest nor the operating channel of any radio. *)
Theorem prepare_agile_precac_chan_outcome (k : precac_consts)
  (s : precac_soc) :
  0 < num_dfs_privs s <= 255 ->
  num_dfs_privs s = Z.of_nat (length (dfs_priv s)) ->
  let s' := dfs_prepare_agile_precac_chan k s in
  map radio_static (dfs_priv s') = map radio_static (dfs_priv s) /\
  ((exists idx r' p,
       precac_events s' = AgileChCfgCmd idx p :: precac_events s /\
       0 <= idx < num_dfs_privs s /\ cur_precac_dfs_index s' = idx /\
       nth_error (dfs_priv s') (Z.to_nat idx) = Some r' /\
       agile_precac_active r' = true /\
       precac_chan_freq p = radio_candidate r' /\ precac_chan_freq p <> 0 /\
       dfs_agile_precac_freq_mhz r' = precac_chan_freq p /\
       precac_chwidth p = dfs_precac_chwidth r' /\
       dfs_precac_timer_running (psoc_obj s') = true /\
       ocac_status (psoc_obj s') = OCAC_RESET /\
       dfs_precac_timer (psoc_obj s')
       = Some (if negb (min_precac_timeout p =? 0)
               then u32 (min_precac_timeout p + EXTRA_TIME_IN_MS)
               else min_precac_timeout p) /\
       precac_state_started s' = precac_state_started s)
   \/
   (precac_events s' = precac_events s /\
    precac_state_started s' = false /\
    dfs_precac_timer_running (psoc_obj s')
    = dfs_precac_timer_running (psoc_obj s) /\
    dfs_precac_timer (psoc_obj s') = dfs_precac_timer (psoc_obj s) /\
    forall r, In r (dfs_priv s) -> radio_candidate r = 0)).
Proof. exact (prepare_agile_outcome_lem k s). Qed.

Lemma prepare_agile_precac_chan_outcome_witness :
  let s' := dfs_prepare_agile_precac_chan spec_consts psoc_sample in
  map radio_static (dfs_priv s') = map radio_static (dfs_priv psoc_sample) /\
  ((exists idx r' p,
       precac_events s' = AgileChCfgCmd idx p :: precac_events psoc_sample /\
       0 <= idx < num_dfs_privs psoc_sample /\
       cur_precac_dfs_index s' = idx /\
       nth_error (dfs_priv s') (Z.to_nat idx) = Some r' /\
       agile_precac_active r' = true /\
       precac_chan_freq p = radio_candidate r' /\ precac_chan_freq p <> 0 /\
       dfs_agile_precac_freq_mhz r' = precac_chan_freq p /\
       precac_chwidth p = dfs_precac_chwidth r' /\
       dfs_precac_timer_running (psoc_obj s') = true /\
       ocac_status (psoc_obj s') = OCAC_RESET /\
       dfs_precac_timer (psoc_obj s')
       = Some (if negb (min_precac_timeout p =? 0)
               then u32 (min_precac_timeout p + EXTRA_TIME_IN_MS)
               else min_precac_timeout p) /\
       precac_state_started s' = precac_state_started psoc_sample)
   \/
   (precac_events s' = precac_events psoc_sample /\
    precac_state_started s' = false /\
    dfs_precac_timer_running (psoc_obj s')
    = dfs_precac_timer_running (psoc_obj psoc_sample) /\
    dfs_precac_timer (psoc_obj s') = dfs_precac_timer (psoc_obj psoc_sample) /\
    forall r, In r (dfs_priv psoc_sample) -> radio_candidate r = 0)).
Proof.
  apply (prepare_agile_precac_chan_outcome spec_consts psoc_sample).
  - vm_compute. split; [reflexivity | discriminate].
  - reflexivity.
Defined.

Example prepare_agile_sample :
  precac_events (dfs_prepare_agile_precac_chan spec_consts psoc_sample)
  = [AgileChCfgCmd 1 (mk_adfs 5280 CH_WIDTH_20MHZ 60000 600000)]
  /\ dfs_precac_timer
       (psoc_obj (dfs_prepare_agile_precac_chan spec_consts psoc_sample))
     = Some 62000.
Proof. vm_compute. split; reflexivity. Qed.

(** ** Switch to the desired channel *)

Lemma band_channel_node (C pri : Z) (cw : phy_ch_width) :
  In (pri, cw) (band_channels C) ->
  In (pri, dfs_translate_chwidth_enum2val cw) (band_nodes C)
  /\ (cw = CH_WIDTH_20MHZ \/ cw = CH_WIDTH_40MHZ \/ cw = CH_WIDTH_80MHZ).
Proof.
  unfold band_channels, band_nodes. cbn [In].
  intros [H | [H | [H | [H | [H | [H | [H | []]]]]]]];
    injection H as <- <-; cbn; intuition.
Qed.




(** ** Expiry of the agile preCAC timer *)

Lemma mark_first_in_range_trees (P : precac_tree -> Prop)
  (g : precac_tree -> Z -> precac_tree) (f : Z) :
  (forall t, P t -> P (g t f)) ->
  forall l, (forall e, In e l -> P (tree_root e)) ->
            forall e, In e (mark_first_in_range g l f) -> P (tree_root e).
Proof.
  intros Hg. induction l as [| x l IH]; intros Hl e He; [destruct He |].
  cbn [mark_first_in_range] in He.
  destruct (IS_WITHIN_RANGE f (vht80_ch_freq x) VHT80_FREQ_OFFSET).
  - destruct He as [<- | He].
    + cbn [tree_root]. apply Hg. apply Hl. left. reflexivity.
    + apply Hl. right. exact He.
  - destruct He as [<- | He].
    + apply Hl. left. reflexivity.
    + apply IH; [| exact He]. intros y Hy. apply Hl. right. exact Hy.
Qed.

Lemma mark_precac_done_trees (P : precac_tree -> Prop) :
  (forall t f, P t -> P (dfs_mark_tree_node_as_cac_done_for_freq t f)) ->
  forall l pri sec w,
    (forall e, In e l -> P (tree_root e)) ->
    forall e, In e (dfs_mark_precac_done_for_freq l pri sec w) ->
              P (tree_root e).
Proof.
  intros Hg l pri sec w Hl. unfold dfs_mark_precac_done_for_freq.
  destruct (pri =? 0); [exact Hl |].
  destruct (precac_done_channels pri sec w) as [chs |]; [| exact Hl].
  unfold mark_precac_done_list. revert l Hl.
  induction chs as [| f chs IH]; intros l Hl; [exact Hl |].
  cbn [fold_left]. apply IH.
  apply mark_first_in_range_trees; [intros t; apply Hg | exact Hl].
Qed.

Lemma tree_nodes_skeleton (t : precac_tree) :
  tree_nodes (skeleton t) = map skeleton_node (tree_nodes t).
Proof.
  induction t as [| d l IHl r IHr]; [reflexivity |].
  cbn [skeleton tree_nodes map]. rewrite map_app, IHl, IHr. reflexivity.
Qed.

(** A property of the centres and bandwidths of the nodes is a property
    of the shape. *)
Lemma shape_property (Q : Z -> Z -> Prop) (t t' : precac_tree) :
  skeleton t' = skeleton t ->
  (forall d, In d (tree_nodes t) -> Q (ch_freq d) (bandwidth d)) ->
  forall d, In d (tree_nodes t') -> Q (ch_freq d) (bandwidth d).
Proof.
  intros Hs Ht d Hd.
  apply (in_map skeleton_node) in Hd. rewrite <- tree_nodes_skeleton, Hs in Hd.
  rewrite tree_nodes_skeleton in Hd. apply in_map_iff in Hd.
  destruct Hd as (d0 & Hd0 & Hin). specialize (Ht d0 Hin).
  unfold skeleton_node in Hd0.
  replace (ch_freq d) with (ch_freq d0)
    by (apply (f_equal ch_freq) in Hd0; exact Hd0).
  replace (bandwidth d) with (bandwidth d0)
    by (apply (f_equal bandwidth) in Hd0; exact Hd0).
  exact Ht.
Qed.

Lemma check_home_no_desired (D : Z) (cf2 : dfs_channel -> bool)
  (find : Z -> Z -> option dfs_channel) (s : precac_soc) (idx : Z)
  (dfs : precac_radio) :
  dfs_autoswitch_des_chan_freq dfs = 0 ->
  dfs_precac_check_home_chan_change D cf2 find s idx dfs = (s, false).
Proof.
  intros H. unfold dfs_precac_check_home_chan_change. rewrite H.
  destruct (find 0 (dfs_autoswitch_des_mode dfs)); reflexivity.
Qed.

(** The candidate of an active radio comes from the forest walk. *)
Lemma radio_candidate_walk (r : precac_radio) (c : Z) :
  radio_candidate r = c -> c <> 0 ->
  requested_bw_of (rd_curchan r) <> 0 /\
  dfs_get_ieeechan_for_precac_for_freq (rd_curchan r) (rd_precac_list r)
    (dfs_ch_mhz_freq_seg1 (rd_curchan r))
    (exclude_sec_ch_freq_of (rd_curchan r))
    (requested_bw_of (rd_curchan r)) = c.
Proof.
  unfold radio_candidate, dfs_get_ieeechan_for_agilecac_for_freq.
  destruct (agile_precac_active r); [| congruence].
  destruct (is_wide_chwidth (chan_width_of_mode (dfs_ch_mode (rd_curchan r)))
            && negb (dfs_fw_adfs_support_160 r)); [cbn; congruence |].
  cbn [dfs_precac_chwidth set_dfs_precac_chwidth rd_curchan rd_precac_list].
  destruct (is_invalid_chwidth
              (dfs_find_agile_width
                 (chan_width_of_mode (dfs_ch_mode (rd_curchan r)))))
    eqn:Hinv; [cbn; congruence |].
  cbn [snd]. intros Hc _. split; [| exact Hc].
  apply agile_width_requested. exact Hinv.
Qed.

Lemma agile_timeout_progress_lem (D : Z) (cf2 : dfs_channel -> bool)
  (find : Z -> Z -> option dfs_channel) (k : precac_consts)
  (s : precac_soc) (dfs : precac_radio) (e : dfs_precac_entry) :
  let idx := cur_precac_dfs_index s in
  let f := dfs_agile_precac_freq_mhz dfs in
  let cw := dfs_precac_chwidth dfs in
  let curchan := rd_curchan dfs in
  let l := rd_precac_list dfs in
  0 < num_dfs_privs s <= 255 ->
  num_dfs_privs s = Z.of_nat (length (dfs_priv s)) ->
  nth_error (dfs_priv s) (Z.to_nat idx) = Some dfs ->
  dfs_is_legacy_precac_enabled dfs = false ->
  dfs_is_agile_precac_enabled dfs = true ->
  ocac_status (psoc_obj s) = OCAC_SUCCESS ->
  dfs_autoswitch_des_chan_freq dfs = 0 ->
  forest_wf l -> In e l ->
  (forall e0, In e0 l -> tree_all node_ok (tree_root e0) = true) ->
  sum_rule (tree_root e) = true ->
  In (f, cw) (band_channels (vht80_ch_freq e)) -> f <> 0 ->
  requested_bw_of curchan / 2
  < Z.abs (exclude_sec_ch_freq_of curchan - dfs_ch_mhz_freq_seg1 curchan) ->
  (forall e0 d, In e0 l -> In d (tree_nodes (tree_root e0)) ->
                ch_freq d = dfs_ch_mhz_freq_seg1 curchan \/
                ch_freq d = exclude_sec_ch_freq_of curchan ->
                bandwidth d = requested_bw_of curchan) ->
  let s' := dfs_precac_timeout D cf2 find k s in
  (exists r',
      nth_error (dfs_priv s') (Z.to_nat idx) = Some r' /\
      rd_precac_list r' = dfs_mark_precac_done_for_freq l f 0 cw /\
      dfs_is_precac_done_on_ht20_40_80_chan_for_freq (rd_precac_list r') f
      = true) /\
  ((exists idx' p,
       precac_events s' = AgileChCfgCmd idx' p :: precac_events s /\
       precac_chan_freq p <> 0 /\
       (idx' = idx -> precac_chan_freq p <> f) /\
       dfs_precac_timer_running (psoc_obj s') = true /\
       ocac_status (psoc_obj s') = OCAC_RESET)
   \/
   (precac_events s' = precac_events s /\
    precac_state_started s' = false /\
    dfs_precac_timer_running (psoc_obj s') = false)).
Proof.
  intros idx f cw curchan l Hn Hlen Hr Hleg Hagile Hocac Hdes Hwf He
         Hok Hsum Hband Hnz Hfar Halign.
  cbv zeta. unfold dfs_precac_timeout. fold idx. rewrite Hr.
  rewrite Hleg, Hagile.
  cbn [psoc_obj set_psoc_obj ocac_status]. rewrite Hocac.
  cbn [is_ocac_success]. cbv beta iota zeta.
  fold f cw l.
  set (l' := dfs_mark_precac_done_for_freq l f 0 cw).
  set (dfs1 := set_rd_precac_list dfs l').
  assert (Hdes1 : dfs_autoswitch_des_chan_freq dfs1 = 0) by exact Hdes.
  rewrite (check_home_no_desired D cf2 find _ idx dfs1 Hdes1).
  cbn [negb].
  set (s1 := set_radio _ idx dfs1).
  assert (Hi : (Z.to_nat idx < length (dfs_priv s))%nat)
    by (apply nth_error_Some; congruence).
  assert (Hr1 : nth_error (dfs_priv s1) (Z.to_nat idx) = Some dfs1).
  { unfold s1, set_radio, set_psoc_obj. cbn [dfs_priv].
    apply set_nth_radio_nth. exact Hi. }
  assert (Hn1 : 0 < num_dfs_privs s1 <= 255) by exact Hn.
  assert (Hlen1 : num_dfs_privs s1 = Z.of_nat (length (dfs_priv s1))).
  { unfold s1, set_radio, set_psoc_obj. cbn [dfs_priv num_dfs_privs].
    rewrite set_nth_radio_length. exact Hlen. }
  assert (Hev1 : precac_events s1 = precac_events s) by reflexivity.
  assert (Hrun1 : dfs_precac_timer_running (psoc_obj s1) = false)
    by reflexivity.
  destruct (band_channel_node _ _ _ Hband) as [Hnode _].
  assert (Hq : dfs_is_precac_done_on_ht20_40_80_chan_for_freq l' f = true).
  { apply (mark_precac_done_then_query_lem l e f cw Hwf He (Hok e He) Hsum
             Hband Hnz _ _ Hnode).
    unfold span_covers. rewrite !Z.leb_refl. reflexivity. }
  destruct (prepare_agile_outcome_lem k s1 Hn1 Hlen1) as [Hstat Hout].
  clearbody s1.
  set (s' := dfs_prepare_agile_precac_chan k s1) in *. clearbody s'.
  destruct (nth_error_static _ _ _ _ Hstat Hr1) as (r' & Hr' & Hst).
  assert (Hl' : rd_precac_list r' = l').
  { unfold radio_static in Hst. injection Hst as _ _ H _. exact H. }
  assert (Hc' : rd_curchan r' = curchan).
  { unfold radio_static in Hst. injection Hst as _ H _ _. exact H. }
  split.
  - exists r'. split; [exact Hr' |]. split; [exact Hl' |].
    rewrite Hl'. exact Hq.
  - destruct Hout as [(i & r2 & p & Hev & Hi2 & _ & Hr2 & _ & Hcand & Hpnz
                         & _ & _ & Hrun & Hoc & _)
                     | (Hev & Hstarted & Hrun & _)].
    + left. exists i, p. rewrite Hev, Hev1.
      split; [reflexivity |]. split; [exact Hpnz |].
      split; [| split; [exact Hrun | exact Hoc]].
      intros -> Heq.
      assert (r2 = r') by congruence. subst r2.
      destruct (radio_candidate_walk r' _ (eq_sym Hcand) Hpnz) as [Hw Hwalk].
      rewrite Hc', Hl' in Hwalk. rewrite Hc' in Hw.
      assert (Hwf' : forest_wf l')
        by (apply (apply_forest_op_wf l (ForestMarkDone f 0 cw) Hwf)).
      assert (Hok' : forall e0, In e0 l' ->
                                tree_all node_ok (tree_root e0) = true).
      { apply (mark_precac_done_trees
                 (fun t => tree_all node_ok t = true)).
        - intros t g. apply mark_cac_done_ok.
        - exact Hok. }
      assert (Halign' : forall e0 d, In e0 l' ->
                In d (tree_nodes (tree_root e0)) ->
                ch_freq d = dfs_ch_mhz_freq_seg1 curchan \/
                ch_freq d = exclude_sec_ch_freq_of curchan ->
                bandwidth d = requested_bw_of curchan).
      { intros e0 d He0.
        revert d.
        apply (mark_precac_done_trees
                 (fun t => forall d, In d (tree_nodes t) ->
                    ch_freq d = dfs_ch_mhz_freq_seg1 curchan \/
                    ch_freq d = exclude_sec_ch_freq_of curchan ->
                    bandwidth d = requested_bw_of curchan)) with (l := l)
          (pri := f) (sec := 0) (w := cw); [| | exact He0].
        - intros t g Ht.
          apply (shape_property
                   (fun c b => c = dfs_ch_mhz_freq_seg1 curchan \/
                               c = exclude_sec_ch_freq_of curchan ->
                               b = requested_bw_of curchan) t);
            [apply skeleton_mark_cac_done | exact Ht].
        - intros e1 He1 d Hd. apply (Halign e1 d He1 Hd). }
      destruct (selected_channel_needs_cac_lem curchan l' _ _ _ Hwf' Hok' Hw
                  Hfar Halign' Hwalk Hpnz) as [Hfalse _].
      rewrite Heq in Hfalse. congruence.
    + right. rewrite Hev, Hev1, Hrun, Hrun1. repeat split. exact Hstarted.
Qed.

(** X22: the agile preCAC timer expires on a SoC whose OCAC status is
    success, for a radio with agile preCAC enabled, no desired channel
    pending and an agile channel that is a 20, 40 or 80 MHz channel of a
    band of its well-formed forest: the handler records that channel as
    CAC-done in the forest of the radio, and then either sends one new
    agile command with a non-zero frequency, which for the same radio
    is never the channel just completed, and leaves the timer running
    with the OCAC status reset, or sends nothing, with the timer stopped
    and preCAC marked as not started. *)
Theorem agile_timeout_makes_progress (D : Z) (cf2 : dfs_channel -> bool)
  (find : Z -> Z -> option dfs_channel) (k : precac_consts)
  (s : precac_soc) (dfs : precac_radio) (e : dfs_precac_entry) :
  let idx := cur_precac_dfs_index s in
  let f := dfs_agile_precac_freq_mhz dfs in
  let cw := dfs_precac_chwidth dfs in
  let curchan := rd_curchan dfs in
  let l := rd_precac_list dfs in
  0 < num_dfs_privs s <= 255 ->
  num_dfs_privs s = Z.of_nat (length (dfs_priv s)) ->
  nth_error (dfs_priv s) (Z.to_nat idx) = Some dfs ->
  dfs_is_legacy_precac_enabled dfs = false ->
  dfs_is_agile_precac_enabled dfs = true ->
  ocac_status (psoc_obj s) = OCAC_SUCCESS ->
  dfs_autoswitch_des_chan_freq dfs = 0 ->
  forest_wf l -> In e l ->
  (forall e0, In e0 l -> tree_all node_ok (tree_root e0) = true) ->
  sum_rule (tree_root e) = true ->
  In (f, cw) (band_channels (vht80_ch_freq e)) -> f <> 0 ->
  requested_bw_of curchan / 2
  < Z.abs (exclude_sec_ch_freq_of curchan - dfs_ch_mhz_freq_seg1 curchan) ->
  (forall e0 d, In e0 l -> In d (tree_nodes (tree_root e0)) ->
                ch_freq d = dfs_ch_mhz_freq_seg1 curchan \/
                ch_freq d = exclude_sec_ch_freq_of curchan ->
                bandwidth d = requested_bw_of curchan) ->
  let s' := dfs_precac_timeout D cf2 find k s in
  (exists r',
      nth_error (dfs_priv s') (Z.to_nat idx) = Some r' /\
      rd_precac_list r' = dfs_mark_precac_done_for_freq l f 0 cw /\
      dfs_is_precac_done_on_ht20_40_80_chan_for_freq (rd_precac_list r') f
      = true) /\
  ((exists idx' p,
       precac_events s' = AgileChCfgCmd idx' p :: precac_events s /\
       precac_chan_freq p <> 0 /\
       (idx' = idx -> precac_chan_freq p <> f) /\
       dfs_precac_timer_running (psoc_obj s') = true /\
       ocac_status (psoc_obj s') = OCAC_RESET)
   \/
   (precac_events s' = precac_events s /\
    precac_state_started s' = false /\
    dfs_precac_timer_running (psoc_obj s') = false)).
Proof. exact (agile_timeout_progress_lem D cf2 find k s dfs e). Qed.

Lemma agile_timeout_makes_progress_witness :
  let s' := dfs_precac_timeout 80 (fun _ => false) (fun _ _ => None)
              spec_consts psoc_timeout in
  (exists r',
      nth_error (dfs_priv s') (Z.to_nat 1) = Some r' /\
      rd_precac_list r'
      = dfs_mark_precac_done_for_freq
          [ mk_entry 5290 (dfs_create_precac_tree_for_freq 5290);
            mk_entry 5530 (dfs_create_precac_tree_for_freq 5530) ]
          5280 0 CH_WIDTH_20MHZ /\
      dfs_is_precac_done_on_ht20_40_80_chan_for_freq (rd_precac_list r') 5280
      = true) /\
  ((exists idx' p,
       precac_events s' = AgileChCfgCmd idx' p :: precac_events psoc_timeout /\
       precac_chan_freq p <> 0 /\
       (idx' = 1 -> precac_chan_freq p <> 5280) /\
       dfs_precac_timer_running (psoc_obj s') = true /\
       ocac_status (psoc_obj s') = OCAC_RESET)
   \/
   (precac_events s' = precac_events psoc_timeout /\
    precac_state_started s' = false /\
    dfs_precac_timer_running (psoc_obj s') = false)).
Proof.
  refine (agile_timeout_makes_progress 80 (fun _ => false) (fun _ _ => None)
            spec_consts psoc_timeout
            (mk_radio true (-1) 5180 (mk_chan 5260 MODE_20 true 5260 0)
               [ mk_entry 5290 (dfs_create_precac_tree_for_freq 5290);
                 mk_entry 5530 (dfs_create_precac_tree_for_freq 5530) ]
               false true true false CH_WIDTH_20MHZ 5280 0 0 0)
            (mk_entry 5290 (dfs_create_precac_tree_for_freq 5290))
            _ _ _ _ _ _ _ _ _ _ _ _ _ _ _).
  - vm_compute. split; [reflexivity | discriminate].
  - reflexivity.
  - reflexivity.
  - reflexivity.
  - reflexivity.
  - reflexivity.
  - reflexivity.
  - apply forest_wf_b_sound. vm_compute. reflexivity.
  - left. reflexivity.
  - intros e0 [<- | [<- | []]]; reflexivity.
  - reflexivity.
  - right. right. right. right. left. reflexivity.
  - discriminate.
  - reflexivity.
  - intros e0 d [<- | [<- | []]] Hd; vm_compute in Hd;
      repeat (destruct Hd as [<- | Hd]; [vm_compute; intros [E | E];
                                         first [discriminate | reflexivity] |]);
      destruct Hd.
Defined.

Example agile_timeout_sample :
  precac_events
    (dfs_precac_timeout 80 (fun _ => false) (fun _ _ => None) spec_consts
       psoc_timeout)
  = [ AgileChCfgCmd 1 (mk_adfs 5300 CH_WIDTH_20MHZ 60000 600000);
      AgileChCfgCmd 1 (mk_adfs 5280 CH_WIDTH_20MHZ 60000 600000) ].
Proof. vm_compute. reflexivity. Qed.

(** ** Completion of the off-channel CAC *)

Lemma process_ocac_success (k : precac_consts) (s : precac_soc) (idx : Z)
  (dfs : precac_radio) (center_freq_mhz : Z) :
  nth_error (dfs_priv s) (Z.to_nat idx) = Some dfs ->
  dfs_process_ocac_complete k s idx OCAC_SUCCESS center_freq_mhz
  = set_psoc_obj s (mk_soc true OCAC_SUCCESS (Some 0)).
Proof.
  intros Hr. unfold dfs_process_ocac_complete. rewrite Hr.
  unfold dfs_start_agile_precac_timer, agile_precac_timeouts.
  cbn [is_ocac_success dfs_soc_obj radio_dfs Z.eqb negb].
  destruct s; reflexivity.
Qed.

Lemma ocac_success_is_recorded_lem (D : Z) (cf2 : dfs_channel -> bool)
  (find : Z -> Z -> option dfs_channel) (k : precac_consts)
  (s : precac_soc) (dfs : precac_radio) (e : dfs_precac_entry)
  (center_freq_mhz : Z) :
  let idx := cur_precac_dfs_index s in
  let f := dfs_agile_precac_freq_mhz dfs in
  let cw := dfs_precac_chwidth dfs in
  let curchan := rd_curchan dfs in
  let l := rd_precac_list dfs in
  0 < num_dfs_privs s <= 255 ->
  num_dfs_privs s = Z.of_nat (length (dfs_priv s)) ->
  nth_error (dfs_priv s) (Z.to_nat idx) = Some dfs ->
  dfs_is_legacy_precac_enabled dfs = false ->
  dfs_is_agile_precac_enabled dfs = true ->
  dfs_autoswitch_des_chan_freq dfs = 0 ->
  forest_wf l -> In e l ->
  (forall e0, In e0 l -> tree_all node_ok (tree_root e0) = true) ->
  sum_rule (tree_root e) = true ->
  In (f, cw) (band_channels (vht80_ch_freq e)) -> f <> 0 ->
  requested_bw_of curchan / 2
  < Z.abs (exclude_sec_ch_freq_of curchan - dfs_ch_mhz_freq_seg1 curchan) ->
  (forall e0 d, In e0 l -> In d (tree_nodes (tree_root e0)) ->
                ch_freq d = dfs_ch_mhz_freq_seg1 curchan \/
                ch_freq d = exclude_sec_ch_freq_of curchan ->
                bandwidth d = requested_bw_of curchan) ->
  let s1 := dfs_process_ocac_complete k s idx OCAC_SUCCESS center_freq_mhz in
  let s' := dfs_precac_timeout D cf2 find k s1 in
  (dfs_precac_timer_running (psoc_obj s1) = true /\
   dfs_precac_timer (psoc_obj s1) = Some 0 /\
   precac_events s1 = precac_events s /\ dfs_priv s1 = dfs_priv s) /\
  (exists r',
      nth_error (dfs_priv s') (Z.to_nat idx) = Some r' /\
      rd_precac_list r' = dfs_mark_precac_done_for_freq l f 0 cw /\
      dfs_is_precac_done_on_ht20_40_80_chan_for_freq (rd_precac_list r') f
      = true) /\
  ((exists idx' p,
       precac_events s' = AgileChCfgCmd idx' p :: precac_events s /\
       precac_chan_freq p <> 0 /\
       (idx' = idx -> precac_chan_freq p <> f) /\
       dfs_precac_timer_running (psoc_obj s') = true /\
       ocac_status (psoc_obj s') = OCAC_RESET)
   \/
   (precac_events s' = precac_events s /\
    precac_state_started s' = false /\
    dfs_precac_timer_running (psoc_obj s') = false)).
Proof.
  intros idx f cw curchan l Hn Hlen Hr Hleg Hagile Hdes Hwf He
         Hok Hsum Hband Hnz Hfar Halign.
  cbv zeta. rewrite (process_ocac_success k s idx dfs center_freq_mhz Hr).
  split; [repeat split |].
  exact (agile_timeout_progress_lem D cf2 find k
           (set_psoc_obj s (mk_soc true OCAC_SUCCESS (Some 0))) dfs e
           Hn Hlen Hr Hleg Hagile eq_refl Hdes Hwf He Hok Hsum Hband
           Hnz Hfar Halign).
Qed.

(** X23: the firmware reports the off-channel CAC of the current radio
    as complete (OCAC_SUCCESS): the event handler arms the timer with a
    zero timeout, sends nothing and changes no radio; when the timer
    then fires, for a radio with agile preCAC enabled, no desired
    channel pending and an agile channel that is a 20, 40 or 80 MHz
    channel of a band of its well-formed forest, that channel is
    recorded as CAC-done in the forest of the radio, and either one new
    agile command with a non-zero frequency is sent, never for the
    channel just completed on the same radio, or nothing is sent, the
    timer is stopped and preCAC is marked as not started. *)
Theorem ocac_success_is_recorded (D : Z) (cf2 : dfs_channel -> bool)
  (find : Z -> Z -> option dfs_channel) (k : precac_consts)
  (s : precac_soc) (dfs : precac_radio) (e : dfs_precac_entry)
  (center_freq_mhz : Z) :
  let idx := cur_precac_dfs_index s in
  let f := dfs_agile_precac_freq_mhz dfs in
  let cw := dfs_precac_chwidth dfs in
  let curchan := rd_curchan dfs in
  let l := rd_precac_list dfs in
  0 < num_dfs_privs s <= 255 ->
  num_dfs_privs s = Z.of_nat (length (dfs_priv s)) ->
  nth_error (dfs_priv s) (Z.to_nat idx) = Some dfs ->
  dfs_is_legacy_precac_enabled dfs = false ->
  dfs_is_agile_precac_enabled dfs = true ->
  dfs_autoswitch_des_chan_freq dfs = 0 ->
  forest_wf l -> In e l ->
  (forall e0, In e0 l -> tree_all node_ok (tree_root e0) = true) ->
  sum_rule (tree_root e) = true ->
  In (f, cw) (band_channels (vht80_ch_freq e)) -> f <> 0 ->
  requested_bw_of curchan / 2
  < Z.abs (exclude_sec_ch_freq_of curchan - dfs_ch_mhz_freq_seg1 curchan) ->
  (forall e0 d, In e0 l -> In d (tree_nodes (tree_root e0)) ->
                ch_freq d = dfs_ch_mhz_freq_seg1 curchan \/
                ch_freq d = exclude_sec_ch_freq_of curchan ->
                bandwidth d = requested_bw_of curchan) ->
  let s1 := dfs_process_ocac_complete k s idx OCAC_SUCCESS center_freq_mhz in
  let s' := dfs_precac_timeout D cf2 find k s1 in
  (dfs_precac_timer_running (psoc_obj s1) = true /\
   dfs_precac_timer (psoc_obj s1) = Some 0 /\
   precac_events s1 = precac_events s /\ dfs_priv s1 = dfs_priv s) /\
  (exists r',
      nth_error (dfs_priv s') (Z.to_nat idx) = Some r' /\
      rd_precac_list r' = dfs_mark_precac_done_for_freq l f 0 cw /\
      dfs_is_precac_done_on_ht20_40_80_chan_for_freq (rd_precac_list r') f
      = true) /\
  ((exists idx' p,
       precac_events s' = AgileChCfgCmd idx' p :: precac_events s /\
       precac_chan_freq p <> 0 /\
       (idx' = idx -> precac_chan_freq p <> f) /\
       dfs_precac_timer_running (psoc_obj s') = true /\
       ocac_status (psoc_obj s') = OCAC_RESET)
   \/
   (precac_events s' = precac_events s /\
    precac_state_started s' = false /\
    dfs_precac_timer_running (psoc_obj s') = false)).
Proof.
  exact (ocac_success_is_recorded_lem D cf2 find k s dfs e center_freq_mhz).
Qed.

Lemma ocac_success_is_recorded_witness :
  let s1 := dfs_process_ocac_complete spec_consts psoc_running 1
              OCAC_SUCCESS 5280 in
  let s' := dfs_precac_timeout 80 (fun _ => false) (fun _ _ => None)
              spec_consts s1 in
  (dfs_precac_timer_running (psoc_obj s1) = true /\
   dfs_precac_timer (psoc_obj s1) = Some 0 /\
   precac_events s1 = precac_events psoc_running /\
   dfs_priv s1 = dfs_priv psoc_running) /\
  (exists r',
      nth_error (dfs_priv s') (Z.to_nat 1) = Some r' /\
      rd_precac_list r'
      = dfs_mark_precac_done_for_freq
          [ mk_entry 5290 (dfs_create_precac_tree_for_freq 5290);
            mk_entry 5530 (dfs_create_precac_tree_for_freq 5530) ]
          5280 0 CH_WIDTH_20MHZ /\
      dfs_is_precac_done_on_ht20_40_80_chan_for_freq (rd_precac_list r') 5280
      = true) /\
  ((exists idx' p,
       precac_events s' = AgileChCfgCmd idx' p :: precac_events psoc_running /\
       precac_chan_freq p <> 0 /\
       (idx' = 1 -> precac_chan_freq p <> 5280) /\
       dfs_precac_timer_running (psoc_obj s') = true /\
       ocac_status (psoc_obj s') = OCAC_RESET)
   \/
   (precac_events s' = precac_events psoc_running /\
    precac_state_started s' = false /\
    dfs_precac_timer_running (psoc_obj s') = false)).
Proof.
  refine (ocac_success_is_recorded 80 (fun _ => false) (fun _ _ => None)
            spec_consts psoc_running
            (mk_radio true (-1) 5180 (mk_chan 5260 MODE_20 true 5260 0)
               [ mk_entry 5290 (dfs_create_precac_tree_for_freq 5290);
                 mk_entry 5530 (dfs_create_precac_tree_for_freq 5530) ]
               false true true false CH_WIDTH_20MHZ 5280 0 0 0)
            (mk_entry 5290 (dfs_create_precac_tree_for_freq 5290)) 5280
            _ _ _ _ _ _ _ _ _ _ _ _ _ _).
  - vm_compute. split; [reflexivity | discriminate].
  - reflexivity.
  - reflexivity.
  - reflexivity.
  - reflexivity.
  - reflexivity.
  - apply forest_wf_b_sound. vm_compute. reflexivity.
  - left. reflexivity.
  - intros e0 [<- | [<- | []]]; reflexivity.
  - reflexivity.
  - right. right. right. right. left. reflexivity.
  - discriminate.
  - reflexivity.
  - intros e0 d [<- | [<- | []]] Hd; vm_compute in Hd;
      repeat (destruct Hd as [<- | Hd]; [vm_compute; intros [E | E];
                                         first [discriminate | reflexivity] |]);
      destruct Hd.
Defined.

(** ** Expiry of the legacy preCAC timer *)

Lemma legacy_timeout_lem (D : Z) (cf2 : dfs_channel -> bool)
  (find : Z -> Z -> option dfs_channel) (k : precac_consts)
  (s : precac_soc) (dfs : precac_radio) (e : dfs_precac_entry) :
  let idx := cur_precac_dfs_index s in
  let f := dfs_precac_secondary_freq_mhz dfs in
  let cw := dfs_precac_chwidth dfs in
  let l := rd_precac_list dfs in
  nth_error (dfs_priv s) (Z.to_nat idx) = Some dfs ->
  dfs_is_legacy_precac_enabled dfs = true ->
  forest_wf l -> In e l ->
  tree_all node_ok (tree_root e) = true -> sum_rule (tree_root e) = true ->
  In (f, cw) (band_channels (vht80_ch_freq e)) -> f <> 0 ->
  let s' := dfs_precac_timeout D cf2 find k s in
  dfs_precac_timer_running (psoc_obj s') = false /\
  (exists r',
      nth_error (dfs_priv s') (Z.to_nat idx) = Some r' /\
      rd_precac_list r' = dfs_mark_precac_done_for_freq l f 0 cw /\
      dfs_is_precac_done_on_ht20_40_80_chan_for_freq (rd_precac_list r') f
      = true) /\
  ((precac_events s' = ChannelChangeByPrecac idx :: precac_events s /\
    precac_state_started s' = precac_state_started s)
   \/
   (precac_events s'
    = PrecacChanChangeCsa idx (dfs_autoswitch_des_chan_freq dfs)
        (dfs_autoswitch_des_mode dfs) :: precac_events s /\
    precac_state_started s' = false /\
    dfs_autoswitch_des_chan_freq dfs <> 0)).
Proof.
  intros idx f cw l Hr Hleg Hwf He Hok Hsum Hband Hnz.
  cbv zeta. unfold dfs_precac_timeout. fold idx. rewrite Hr, Hleg.
  fold f cw l.
  set (l' := dfs_mark_precac_done_for_freq l f 0 cw).
  destruct (band_channel_node _ _ _ Hband) as [Hnode _].
  assert (Hq : dfs_is_precac_done_on_ht20_40_80_chan_for_freq l' f = true).
  { apply (mark_precac_done_then_query_lem l e f cw Hwf He Hok Hsum
             Hband Hnz _ _ Hnode).
    unfold span_covers. rewrite !Z.leb_refl. reflexivity. }
  assert (Hi : (Z.to_nat idx < length (dfs_priv s))%nat)
    by (apply nth_error_Some; congruence).
  clearbody l'. clear Hr Hwf He Hok Hsum Hband Hnode Hleg.
  subst f cw l.
  destruct dfs as [ract rover rinter rcur rlist rleg ragile rnon r160 rcw
                   rfreq rsec rdes rmode].
  unfold dfs_precac_check_home_chan_change.
  cbn [set_rd_precac_list dfs_autoswitch_des_chan_freq
       dfs_autoswitch_des_mode rd_precac_list].
  destruct (find rdes rmode) as [chan |].
  - destruct (negb (rdes =? 0) && dfs_is_precac_done D cf2 l' chan)
      eqn:Hgo.
    + cbn [negb].
      unfold dfs_precac_csa, set_precac_state_started, set_radio, add_event,
        set_psoc_obj.
      cbn [set_rd_precac_inter_chan_freq set_dfs_autoswitch_des
           set_rd_precac_list agile_precac_active rd_precac_timeout_override
           rd_precac_inter_chan_freq rd_curchan rd_precac_list
           dfs_legacy_precac_ucfg dfs_agile_precac_ucfg
           dfs_fw_adfs_support_non_160 dfs_fw_adfs_support_160
           dfs_precac_chwidth dfs_agile_precac_freq_mhz
           dfs_precac_secondary_freq_mhz dfs_autoswitch_des_chan_freq
           dfs_autoswitch_des_mode precac_events precac_state_started
           dfs_priv num_dfs_privs cur_precac_dfs_index psoc_obj
           dfs_precac_timer_running].
      split; [reflexivity |]. split.
      * eexists. split.
        -- apply set_nth_radio_nth. rewrite set_nth_radio_length. exact Hi.
        -- cbn [rd_precac_list]. split; [reflexivity | exact Hq].
      * right. repeat split.
        apply andb_prop in Hgo. destruct Hgo as [Hne _].
        apply negb_true_iff, Z.eqb_neq in Hne. exact Hne.
    + cbn [negb].
      unfold set_radio, add_event, set_psoc_obj.
      cbn [precac_events precac_state_started dfs_priv num_dfs_privs
           cur_precac_dfs_index psoc_obj dfs_precac_timer_running].
      split; [reflexivity |]. split.
      * eexists. split.
        -- apply set_nth_radio_nth. exact Hi.
        -- cbn [rd_precac_list]. split; [reflexivity | exact Hq].
      * left. split; reflexivity.
  - cbn [negb].
    unfold set_radio, add_event, set_psoc_obj.
    cbn [precac_events precac_state_started dfs_priv num_dfs_privs
         cur_precac_dfs_index psoc_obj dfs_precac_timer_running].
    split; [reflexivity |]. split.
    + eexists. split.
      * apply set_nth_radio_nth. exact Hi.
      * cbn [rd_precac_list]. split; [reflexivity | exact Hq].
    + left. split; reflexivity.
Qed.

(** X24: the legacy preCAC timer expires for a radio whose secondary
    preCAC channel is a 20, 40 or 80 MHz channel of a band of its
    well-formed forest: the handler leaves the timer stopped, records
    that channel as CAC-done in the forest of the radio, and issues
    exactly one request: a CSA to the desired channel, which is then
    non-zero, with preCAC marked as not started, or else a channel
    change by preCAC. *)
Theorem legacy_timeout_changes_channel (D : Z) (cf2 : dfs_channel -> bool)
  (find : Z -> Z -> option dfs_channel) (k : precac_consts)
  (s : precac_soc) (dfs : precac_radio) (e : dfs_precac_entry) :
  let idx := cur_precac_dfs_index s in
  let f := dfs_precac_secondary_freq_mhz dfs in
  let cw := dfs_precac_chwidth dfs in
  let l := rd_precac_list dfs in
  nth_error (dfs_priv s) (Z.to_nat idx) = Some dfs ->
  dfs_is_legacy_precac_enabled dfs = true ->
  forest_wf l -> In e l ->
  tree_all node_ok (tree_root e) = true -> sum_rule (tree_root e) = true ->
  In (f, cw) (band_channels (vht80_ch_freq e)) -> f <> 0 ->
  let s' := dfs_precac_timeout D cf2 find k s in
  dfs_precac_timer_running (psoc_obj s') = false /\
  (exists r',
      nth_error (dfs_priv s') (Z.to_nat idx) = Some r' /\
      rd_precac_list r' = dfs_mark_precac_done_for_freq l f 0 cw /\
      dfs_is_precac_done_on_ht20_40_80_chan_for_freq (rd_precac_list r') f
      = true) /\
  ((precac_events s' = ChannelChangeByPrecac idx :: precac_events s /\
    precac_state_started s' = precac_state_started s)
   \/
   (precac_events s'
    = PrecacChanChangeCsa idx (dfs_autoswitch_des_chan_freq dfs)
        (dfs_autoswitch_des_mode dfs) :: precac_events s /\
    precac_state_started s' = false /\
    dfs_autoswitch_des_chan_freq dfs <> 0)).
Proof. exact (legacy_timeout_lem D cf2 find k s dfs e). Qed.

Lemma legacy_timeout_changes_channel_witness :
  let s' := dfs_precac_timeout 80 (fun _ => false) (fun _ _ => None)
              spec_consts psoc_legacy in
  dfs_precac_timer_running (psoc_obj s') = false /\
  (exists r',
      nth_error (dfs_priv s') (Z.to_nat 0) = Some r' /\
      rd_precac_list r'
      = dfs_mark_precac_done_for_freq (rd_precac_list radio_legacy) 5290 0
          CH_WIDTH_80MHZ /\
      dfs_is_precac_done_on_ht20_40_80_chan_for_freq (rd_precac_list r') 5290
      = true) /\
  ((precac_events s' = ChannelChangeByPrecac 0 :: precac_events psoc_legacy /\
    precac_state_started s' = precac_state_started psoc_legacy)
   \/
   (precac_events s'
    = PrecacChanChangeCsa 0 (dfs_autoswitch_des_chan_freq radio_legacy)
        (dfs_autoswitch_des_mode radio_legacy) :: precac_events psoc_legacy /\
    precac_state_started s' = false /\
    dfs_autoswitch_des_chan_freq radio_legacy <> 0)).
Proof.
  refine (legacy_timeout_changes_channel 80 (fun _ => false)
            (fun _ _ => None) spec_consts psoc_legacy radio_legacy
            (mk_entry 5290 (dfs_create_precac_tree_for_freq 5290))
            _ _ _ _ _ _ _ _).
  - reflexivity.
  - reflexivity.
  - apply forest_wf_b_sound. vm_compute. reflexivity.
  - left. reflexivity.
  - reflexivity.
  - reflexivity.
  - left. reflexivity.
  - discriminate.
Defined.
